(** * pthread-chat: the server's session registry, message router and
      activity log (server.c, common.h), embedded in Rocq.

    Character arrays are modelled as lists of [ascii] of the array's size, so
    that truncation and missing terminators are visible; an access outside an
    array is a [Fault].  Every function of server.c that touches the shared
    state is a computation in the monad [M] below: it reads and writes the
    [Server] state (the globals [clients], [client_count], [whiteboard]) and
    emits the [event]s the process performs on sockets and on the console. *)

From Stdlib Require Import ZArith Lia Ascii String.
From stdpp Require Import base option list strings relations.

Local Open Scope nat_scope.

#[global] Arguments Nat.modulo : simpl never.

(** ** common.h *)

Definition MAX_CLIENTS : nat := 10.
Definition MAX_USERNAME : nat := 20.
Definition MAX_MESSAGE : nat := 256.
Definition WHITEBOARD_SIZE : nat := 10.

Arguments MAX_CLIENTS : simpl never.
Arguments MAX_USERNAME : simpl never.
Arguments MAX_MESSAGE : simpl never.
Arguments WHITEBOARD_SIZE : simpl never.

(** [typedef enum { MSG_LOGIN, ... } MessageType]: the field travels on the
    wire as an [int], so a received frame may carry any value. *)
Definition MSG_LOGIN : Z := 0.
Definition MSG_LOGOUT : Z := 1.
Definition MSG_BROADCAST : Z := 2.
Definition MSG_PRIVATE : Z := 3.
Definition MSG_ERROR : Z := 4.

Record Message := mkMessage {
  type : Z;
  sender : list ascii;      (* char sender[MAX_USERNAME] *)
  recipient : list ascii;   (* char recipient[MAX_USERNAME] *)
  content : list ascii      (* char content[MAX_MESSAGE] *)
}.

(** The array sizes of the struct. *)
Definition message_sized (m : Message) : Prop :=
  length (sender m) = MAX_USERNAME /\
  length (recipient m) = MAX_USERNAME /\
  length (content m) = MAX_MESSAGE.

(** ** C strings in fixed-size buffers *)

Module CString.

Definition nul : ascii := Ascii.zero.

Definition is_nul (c : ascii) : bool := Ascii.eqb c nul.

(** A string literal, as the list of its characters (terminator not included). *)
Definition lit (s : string) : list ascii := list_ascii_of_string s.

(** The bytes a zero-initialised array of [n] chars holds. *)
Definition zeros (n : nat) : list ascii := replicate n nul.

(** The string a [char*] to the start of [buf] denotes: the bytes before the
    first terminator.  [None] when the buffer holds no terminator, where a
    reader such as [printf("%s")] or [strcpy] runs off the end of the array. *)
Fixpoint c_str (buf : list ascii) : option (list ascii) :=
  match buf with
  | [] => None
  | c :: rest => if is_nul c then Some [] else cons c <$> c_str rest
  end.

(** [strcmp(a, b) == 0].  The two arrays are read in step until the bytes
    differ or both are the terminator; [None] when an array ends first. *)
Fixpoint strcmp_eq (a b : list ascii) : option bool :=
  match a, b with
  | x :: a', y :: b' =>
      if Ascii.eqb x y then (if is_nul x then Some true else strcmp_eq a' b')
      else Some false
  | _, _ => None
  end.

(** The [n] bytes [strncpy(dst, src, n)] writes: the characters of [src] up to
    its terminator or up to [n] of them, then terminators up to [n] bytes.
    [None] when [src] ends before either. *)
Fixpoint strncpy_bytes (src : list ascii) (n : nat) {struct n} : option (list ascii) :=
  match n with
  | 0 => Some []
  | S n' =>
      match src with
      | [] => None
      | c :: rest =>
          if is_nul c then Some (zeros (S n'))
          else cons c <$> strncpy_bytes rest n'
      end
  end.

(** [strncpy(dst, src, n)]: the first [n] bytes of [dst] are overwritten, the
    others are kept.  [None] when [dst] has fewer than [n] bytes. *)
Definition strncpy (dst src : list ascii) (n : nat) : option (list ascii) :=
  if decide (n <= length dst)
  then bytes ← strncpy_bytes src n; Some (bytes ++ drop n dst)
  else None.

(** [strcpy(dst, s)] and [sprintf(dst, ...)] for a string [s] already read:
    [s] and a terminator are written at the start of [dst], the bytes after
    them are kept.  [None] when they do not fit. *)
Definition strcpy (dst s : list ascii) : option (list ascii) :=
  if decide (S (length s) <= length dst)
  then Some (s ++ nul :: drop (S (length s)) dst)
  else None.

(** [snprintf(buf, size, ...)] of the text [s]: at most [size - 1] characters
    are kept. *)
Definition snprintf (size : nat) (s : list ascii) : list ascii :=
  take (size - 1) s.

End CString.
Import CString.

Arguments lit : simpl never.
Arguments zeros : simpl never.

(** ** server.c: the shared state *)

Record Client := mkClient {
  socket : Z;
  username : list ascii     (* char username[MAX_USERNAME] *)
}.

(** [sizeof(whiteboard.messages[0])] *)
Definition WB_LINE : nat := MAX_USERNAME + MAX_MESSAGE + 50.
Arguments WB_LINE : simpl never.

Record Whiteboard := mkWhiteboard {
  messages : list (list ascii);   (* char messages[WHITEBOARD_SIZE][WB_LINE] *)
  current_index : nat
}.

(** The globals [clients], [client_count] and [whiteboard].  The active
    sessions are the first [client_count] entries of [clients]. *)
Record Server := mkServer {
  clients : list Client;          (* Client clients[MAX_CLIENTS] *)
  client_count : nat;
  whiteboard : Whiteboard
}.

Definition active (st : Server) : list Client :=
  take (client_count st) (clients st).

Definition with_whiteboard (st : Server) (wb : Whiteboard) : Server :=
  {| clients := clients st; client_count := client_count st; whiteboard := wb |}.

(** Static storage is zero-initialised. *)
Definition server_init : Server :=
  {| clients := replicate MAX_CLIENTS (mkClient 0 (zeros MAX_USERNAME));
     client_count := 0;
     whiteboard := {| messages := replicate WHITEBOARD_SIZE (zeros WB_LINE);
                      current_index := 0 |} |}.

(** What the process does to the outside: [send] of one [Message] struct on a
    socket, [close] of a socket, and one redraw of the console (the count shown
    in the header and the lines printed below it, top to bottom). *)
Inductive event :=
| Send (sock : Z) (m : Message)
| Close (sock : Z)
| Render (active_count : nat) (lines : list (list ascii)).

(** Behaviour the C standard leaves undefined. *)
Inductive fault :=
| OutOfBounds      (* an array element outside the array is read or written *)
| BufferOverrun.   (* a string function runs past the end of a char array *)

Inductive result (A : Type) :=
| Ok (a : A)
| Fault (f : fault).
Arguments Ok {A} a.
Arguments Fault {A} f.

#[global] Instance result_ret : MRet result := @Ok.
#[global] Instance result_bind : MBind result := fun A B f r =>
  match r with Ok a => f a | Fault e => Fault e end.

Definition of_option {A} (f : fault) (o : option A) : result A :=
  match o with Some a => Ok a | None => Fault f end.

(** State, output and faults. *)
Definition M (A : Type) : Type := Server -> result (A * Server * list event).

Definition ret {A} (a : A) : M A := fun st => Ok (a, st, []).

Definition bind {A B} (m : M A) (k : A -> M B) : M B := fun st =>
  match m st with
  | Ok (a, st1, out1) =>
      match k a st1 with
      | Ok (b, st2, out2) => Ok (b, st2, out1 ++ out2)
      | Fault e => Fault e
      end
  | Fault e => Fault e
  end.

Notation "x <- m ;; k" := (bind m (fun x => k))
  (at level 100, m at next level, right associativity, only parsing).
Notation "m ;;; k" := (bind m (fun _ => k))
  (at level 100, right associativity, only parsing).

Definition get : M Server := fun st => Ok (st, st, []).
Definition put (st : Server) : M unit := fun _ => Ok (tt, st, []).
Definition emit (out : list event) : M unit := fun st => Ok (tt, st, out).
Definition liftR {A} (r : result A) : M A := fun st =>
  match r with Ok a => Ok (a, st, []) | Fault e => Fault e end.

(** Reading the string at a [char*] (a [%s] argument, the source of [strcpy]). *)
Definition read_str (buf : list ascii) : M (list ascii) :=
  liftR (of_option BufferOverrun (c_str buf)).

(** Writing a string into a char array. *)
Definition write_str (dst s : list ascii) : M (list ascii) :=
  liftR (of_option BufferOverrun (strcpy dst s)).

(** ** The activity log *)

Inductive ServerMsgType :=
| MSG_TYPE_BROADCAST
| MSG_TYPE_PRIVATE
| MSG_TYPE_LOGIN
| MSG_TYPE_LOGOUT
| MSG_TYPE_ERROR.

Definition ESC : ascii := ascii_of_nat 27.
Definition ANSI_RESET : list ascii := ESC :: lit "[0m".
Definition ANSI_RED : list ascii := ESC :: lit "[31m".
Definition ANSI_GREEN : list ascii := ESC :: lit "[32m".
Definition ANSI_YELLOW : list ascii := ESC :: lit "[33m".
Definition ANSI_BLUE : list ascii := ESC :: lit "[34m".
Definition ANSI_MAGENTA : list ascii := ESC :: lit "[35m".

(** The colour and the type string. *)
Definition get_msg_properties (ty : ServerMsgType) : list ascii * list ascii :=
  match ty with
  | MSG_TYPE_BROADCAST => (ANSI_BLUE, lit "BROADCAST")
  | MSG_TYPE_PRIVATE => (ANSI_MAGENTA, lit "PRIVATE")
  | MSG_TYPE_LOGIN => (ANSI_GREEN, lit "LOGIN")
  | MSG_TYPE_LOGOUT => (ANSI_YELLOW, lit "LOGOUT")
  | MSG_TYPE_ERROR => (ANSI_RED, lit "ERROR")
  end.

(** The [strncpy] into the next slot and the advance of the cursor. *)
Definition wb_store (wb : Whiteboard) (message : list ascii) : result Whiteboard :=
  slot ← of_option OutOfBounds (messages wb !! current_index wb);
  slot' ← of_option BufferOverrun (strncpy slot message (WB_LINE - 1));
  Ok {| messages := <[current_index wb := slot']> (messages wb);
        current_index := (current_index wb + 1) mod WHITEBOARD_SIZE |}.

(** The display loop, for the values [ixs] of [i]. *)
Fixpoint wb_lines (wb : Whiteboard) (ixs : list nat) : result (list (list ascii)) :=
  match ixs with
  | [] => Ok []
  | i :: ixs' =>
      let idx := (current_index wb + i) mod WHITEBOARD_SIZE in
      slot ← of_option OutOfBounds (messages wb !! idx);
      c ← of_option OutOfBounds (slot !! 0);
      if is_nul c then wb_lines wb ixs'
      else line ← of_option BufferOverrun (c_str slot);
           rest ← wb_lines wb ixs';
           Ok (line :: rest)
  end.

Definition wb_render (wb : Whiteboard) : result (list (list ascii)) :=
  wb_lines wb (seq 0 WHITEBOARD_SIZE).

(** [update_whiteboard(message)], [message] being the array the pointer is to. *)
Definition update_whiteboard (message : list ascii) : M unit :=
  st <- get;;
  wb <- liftR (wb_store (whiteboard st) message);;
  put (with_whiteboard st wb);;;
  let active_count := client_count st in
  lines <- liftR (wb_render wb);;
  emit [Render active_count lines].

(** [format_whiteboard_msg(type, format, ...)]; [text] is the expansion of the
    format with its arguments, which the caller reads. *)
Definition format_whiteboard_msg (ty : ServerMsgType) (text : list ascii) : M unit :=
  let message := snprintf WB_LINE text in
  let '(color, type_str) := get_msg_properties ty in
  let full_message :=
    snprintf WB_LINE (color ++ type_str ++ ANSI_RESET ++ lit " - " ++ message) in
  update_whiteboard (full_message ++ [nul]).

(** ** The session registry and the router *)

(** The loop of [find_client] over the active entries: the socket of the first
    one whose name compares equal. *)
Fixpoint find_loop (cs : list Client) (name : list ascii) : result (option Z) :=
  match cs with
  | [] => Ok None
  | c :: rest =>
      eq ← of_option BufferOverrun (strcmp_eq (username c) name);
      if eq : bool then Ok (Some (socket c)) else find_loop rest name
  end.

(** [find_client(username, &socket_out)]: [Some] socket when found. *)
Definition find_client (name : list ascii) : M (option Z) :=
  st <- get;;
  liftR (find_loop (active st) name).

(** The [send] loop of [broadcast_message]. *)
Fixpoint broadcast_loop (cs : list Client) (msg : Message) (sender_socket : Z)
  : list event :=
  match cs with
  | [] => []
  | c :: rest =>
      if decide (socket c = sender_socket)
      then broadcast_loop rest msg sender_socket
      else Send (socket c) msg :: broadcast_loop rest msg sender_socket
  end.

Definition broadcast_message (msg : Message) (sender_socket : Z) : M unit :=
  st <- get;;
  emit (broadcast_loop (active st) msg sender_socket);;;
  s <- read_str (sender msg);;
  c <- read_str (content msg);;
  format_whiteboard_msg MSG_TYPE_BROADCAST (s ++ lit ": " ++ c).

(** [send_private_message(msg)].  [error_msg] is declared without an
    initialiser: [junk] is what the struct holds before its fields are set. *)
Definition send_private_message (msg junk : Message) : M unit :=
  found <- find_client (recipient msg);;
  match found with
  | None =>
      r <- read_str (recipient msg);;
      content' <- write_str (content junk)
                    (lit "User '" ++ r ++ lit "' does not exist or is offline");;
      sender' <- write_str (sender junk) (lit "Server");;
      let error_msg :=
        {| type := MSG_ERROR; sender := sender';
           recipient := recipient junk; content := content' |} in
      sender_found <- find_client (sender msg);;
      match sender_found with
      | Some sender_socket => emit [Send sender_socket error_msg]
      | None => ret tt
      end;;;
      s <- read_str (sender msg);;
      r' <- read_str (recipient msg);;
      format_whiteboard_msg MSG_TYPE_ERROR
        (s ++ lit " tried to message non-existent user " ++ r')
  | Some recipient_socket =>
      emit [Send recipient_socket msg];;;
      s <- read_str (sender msg);;
      r <- read_str (recipient msg);;
      c <- read_str (content msg);;
      format_whiteboard_msg MSG_TYPE_PRIVATE
        (s ++ lit " to " ++ r ++ lit ": " ++ c)
  end.

(** ** The connection handler, [handle_client] *)

(** A [Message] declared with [= {.type = t}]: the other fields are zeroed. *)
Definition zeroed_message (t : Z) : Message :=
  {| type := t; sender := zeros MAX_USERNAME;
     recipient := zeros MAX_USERNAME; content := zeros MAX_MESSAGE |}.

(** [username] after [recv(client_socket, username, MAX_USERNAME, 0)] delivered
    the bytes [rx] into the zeroed array. *)
Definition recv_username (rx : list ascii) : list ascii :=
  take MAX_USERNAME rx ++ zeros (MAX_USERNAME - length rx).

(** The handshake up to the duplicate check.  [rx] is what the first [recv]
    delivers, [[]] when it returns 0 or an error.  [Some] name when the
    handler goes on to register it, [None] when it has closed the socket. *)
Definition check_username (client_socket : Z) (rx : list ascii)
  : M (option (list ascii)) :=
  match rx with
  | [] => emit [Close client_socket];;; ret None
  | _ :: _ =>
      let username := recv_username rx in
      found <- find_client username;;
      match found with
      | Some _ =>
          let error_msg := zeroed_message MSG_ERROR in
          name <- read_str username;;
          content' <- write_str (content error_msg)
                        (lit "Username '" ++ name ++ lit "' is already in use");;
          sender' <- write_str (sender error_msg) (lit "Server");;
          emit [Send client_socket
                  {| type := type error_msg; sender := sender';
                     recipient := recipient error_msg; content := content' |};
                Close client_socket];;;
          ret None
      | None => ret (Some username)
      end
  end.

(** The critical section that registers the new client. *)
Definition register_client (client_socket : Z) (name : list ascii) : M unit :=
  st <- get;;
  slot <- liftR (of_option OutOfBounds (clients st !! client_count st));;
  name' <- liftR (of_option BufferOverrun (strncpy (username slot) name MAX_USERNAME));;
  put {| clients := <[client_count st :=
                        {| socket := client_socket; username := name' |}]> (clients st);
         client_count := S (client_count st);
         whiteboard := whiteboard st |}.

(** The log entry and the notice that follow the registration. *)
Definition announce_login (client_socket : Z) (name : list ascii) : M unit :=
  s <- read_str name;;
  format_whiteboard_msg MSG_TYPE_LOGIN (s ++ lit " has joined the chat");;;
  let login_msg := zeroed_message MSG_LOGIN in
  sender' <- write_str (sender login_msg) s;;
  content' <- write_str (content login_msg) (lit "has joined the chat");;
  broadcast_message
    {| type := type login_msg; sender := sender';
       recipient := recipient login_msg; content := content' |}
    client_socket.

(** The states of a connection; a registered one keeps its local [username]. *)
Inductive conn_state :=
| Handshaking
| Registered (name : list ascii)
| Closed.

(** [handle_client] from its start to the message loop. *)
Definition handshake (client_socket : Z) (rx : list ascii) : M conn_state :=
  checked <- check_username client_socket rx;;
  match checked with
  | None => ret Closed
  | Some name =>
      register_client client_socket name;;;
      announce_login client_socket name;;;
      ret (Registered name)
  end.

(** [for (j = i; j < client_count - 1; j++) clients[j] = clients[j + 1]],
    with [n] iterations left. *)
Fixpoint shift_left (cs : list Client) (j n : nat) : result (list Client) :=
  match n with
  | 0 => Ok cs
  | S n' =>
      c ← of_option OutOfBounds (cs !! S j);
      shift_left (<[j := c]> cs) (S j) n'
  end.

(** The critical section of the disconnect path: the first active entry with
    this socket is removed, its name copied into the local [username]. *)
Definition remove_client (client_socket : Z) (name : list ascii) : M (list ascii) :=
  st <- get;;
  match list_find (fun c => socket c = client_socket) (active st) with
  | Some (i, c) =>
      s <- read_str (username c);;
      name' <- write_str name s;;
      cs <- liftR (shift_left (clients st) i (client_count st - 1 - i));;
      put {| clients := cs; client_count := client_count st - 1;
             whiteboard := whiteboard st |};;;
      ret name'
  | None => ret name
  end.

Definition disconnect (client_socket : Z) (name : list ascii) : M unit :=
  name' <- remove_client client_socket name;;
  s <- read_str name';;
  format_whiteboard_msg MSG_TYPE_LOGOUT (s ++ lit " has left the chat");;;
  let logout_msg := zeroed_message MSG_LOGOUT in
  sender' <- write_str (sender logout_msg) s;;
  content' <- write_str (content logout_msg) (lit "has left the chat");;
  broadcast_message
    {| type := type logout_msg; sender := sender';
       recipient := recipient logout_msg; content := content' |}
    client_socket;;;
  emit [Close client_socket].

(** One turn of the message loop.  [rx] is [None] when [recv] returns 0 or an
    error, and otherwise the contents of [msg] after the [recv]. *)
Definition handle_recv (client_socket : Z) (name : list ascii)
    (rx : option Message) (junk : Message) : M conn_state :=
  match rx with
  | None => disconnect client_socket name;;; ret Closed
  | Some msg =>
      if decide (type msg = MSG_PRIVATE)
      then send_private_message msg junk;;; ret (Registered name)
      else ret (Registered name)
  end.

(** ** [main] and the threads

    [main] logs "SERVER STARTED" and then starts one thread per accepted
    connection.  A thread is followed through four points of [handle_client]:
    before the duplicate check, between the check and the registration (where
    it does not hold [clients_mutex]), after the registration, and at the
    [recv] of the message loop.  A [step] runs one thread from one point to the
    next while the others stand still, so every sequence of steps is an
    execution of the process, with the threads scheduled in that order. *)

Inductive pc :=
| AtCheck
| AtRegister (name : list ascii)
| AtAnnounce (name : list ascii)
| AtLoop (name : list ascii)
| AtEnd.

Record World := mkWorld {
  server : Server;
  threads : list (Z * pc);      (* socket and position of each thread *)
  trace : list event
}.

(** [update_whiteboard("SERVER STARTED")] *)
Definition startup : M unit :=
  update_whiteboard (lit "SERVER STARTED" ++ [nul]).

Definition server_of {A} (r : result (A * Server * list event)) : Server :=
  match r with Ok (_, st, _) => st | Fault _ => server_init end.

(** The state in which [main] enters the accept loop. *)
Definition server_started : Server := server_of (startup server_init).

Definition world_init : World :=
  {| server := server_started;
     threads := [];
     trace := [Render 0 [lit "SERVER STARTED"]] |}.

(** What the thread of [sock] runs from a point, and the point it reaches.
    [rx] and [junk] are what the network and the stack supply. *)
Inductive next (sock : Z) : pc -> M pc -> Prop :=
| next_check rx :
    next sock AtCheck
      (checked <- check_username sock rx;;
       ret (match checked with Some name => AtRegister name | None => AtEnd end))
| next_register name :
    next sock (AtRegister name) (register_client sock name;;; ret (AtAnnounce name))
| next_announce name :
    next sock (AtAnnounce name) (announce_login sock name;;; ret (AtLoop name))
| next_recv name rx junk :
    next sock (AtLoop name)
      (c <- handle_recv sock name rx junk;;
       ret (match c with Registered name' => AtLoop name' | _ => AtEnd end)).

Inductive step : World -> World -> Prop :=
| step_accept w sock :
    (forall p, (sock, p) ∈ threads w -> p = AtEnd) ->
    step w {| server := server w;
              threads := threads w ++ [(sock, AtCheck)];
              trace := trace w |}
| step_thread w i sock p m p' st' out :
    threads w !! i = Some (sock, p) ->
    next sock p m ->
    m (server w) = Ok (p', st', out) ->
    step w {| server := st';
              threads := <[i := (sock, p')]> (threads w);
              trace := trace w ++ out |}.

Definition reachable (w : World) : Prop := rtc step world_init w.

(** ** The critical sections

    Between two of the points above a thread takes and releases
    [clients_mutex] and [whiteboard_mutex] several times, and another thread
    can run wherever it holds neither, and between the stretches of
    [update_whiteboard] as well.  [code] is the code of a thread cut at these
    places.  An [Atomic] piece is one of: a section under [clients_mutex] (the
    loops of [find_client] and [broadcast_message], the registration, the
    removal, the read of [client_count] in [update_whiteboard]); a stretch of
    [update_whiteboard] under [whiteboard_mutex] before or after that read; a
    stretch that touches only the thread's own variables and its sockets.
    [Lock] and [Unlock] are those of [whiteboard_mutex], which a thread holds
    from the start of [update_whiteboard] to its end.  What the threads send
    and print is not recorded here. *)

Inductive code (R : Type) : Type :=
| Return (r : R)                                  (* the end, with its result *)
| Atomic {A : Type} (m : M A) (k : A -> code R)   (* a piece, and what follows it *)
| Lock (k : code R)              (* [pthread_mutex_lock(&whiteboard_mutex)] *)
| Unlock (k : code R).           (* [pthread_mutex_unlock(&whiteboard_mutex)] *)
Arguments Return {R} r.
Arguments Atomic {R A} m k.
Arguments Lock {R} k.
Arguments Unlock {R} k.

(** [c], then [f] on its result. *)
Fixpoint code_bind {R S} (c : code R) (f : R -> code S) : code S :=
  match c with
  | Return r => f r
  | Atomic m k => Atomic m (fun a => code_bind (k a) f)
  | Lock k => Lock (code_bind k f)
  | Unlock k => Unlock (code_bind k f)
  end.

(** One piece and nothing else. *)
Definition atomic {A} (m : M A) : code A := Atomic m Return.

Notation "x <~ c ;; k" := (code_bind c (fun x => k))
  (at level 100, c at next level, right associativity, only parsing).
Notation "c ~;; k" := (code_bind c (fun _ => k))
  (at level 100, right associativity, only parsing).

(** The code run from start to end with no other thread in between. *)
Fixpoint run {R} (c : code R) : M R :=
  match c with
  | Return r => ret r
  | Atomic m k => bind m (fun a => run (k a))
  | Lock k => run k
  | Unlock k => run k
  end.

(** [update_whiteboard]: the store and the advance of the cursor, then the
    section under [clients_mutex] that reads [client_count], then the display
    of the slots, all three under [whiteboard_mutex]. *)
Definition update_whiteboard_code (message : list ascii) : code unit :=
  Lock
    (atomic (st <- get;;
             wb <- liftR (wb_store (whiteboard st) message);;
             put (with_whiteboard st wb)) ~;;
     active_count <~ atomic (st <- get;; ret (client_count st));;
     atomic (st <- get;;
             lines <- liftR (wb_render (whiteboard st));;
             emit [Render active_count lines]) ~;;
     Unlock (Return tt)).

Definition format_whiteboard_msg_code (ty : ServerMsgType) (text : list ascii) : code unit :=
  let message := snprintf WB_LINE text in
  let '(color, type_str) := get_msg_properties ty in
  let full_message :=
    snprintf WB_LINE (color ++ type_str ++ ANSI_RESET ++ lit " - " ++ message) in
  update_whiteboard_code (full_message ++ [nul]).

(** [broadcast_message]: the loop under [clients_mutex], then the log entry. *)
Definition broadcast_message_code (msg : Message) (sender_socket : Z) : code unit :=
  atomic (st <- get;; emit (broadcast_loop (active st) msg sender_socket)) ~;;
  text <~ atomic (s <- read_str (sender msg);;
                  c <- read_str (content msg);;
                  ret (s ++ lit ": " ++ c));;
  format_whiteboard_msg_code MSG_TYPE_BROADCAST text.

(** [send_private_message]: each [find_client] is a section of its own; the
    [send] calls are outside of them. *)
Definition send_private_message_code (msg junk : Message) : code unit :=
  found <~ atomic (find_client (recipient msg));;
  match found with
  | None =>
      error_msg <~ atomic (r <- read_str (recipient msg);;
                           content' <- write_str (content junk)
                                         (lit "User '" ++ r
                                          ++ lit "' does not exist or is offline");;
                           sender' <- write_str (sender junk) (lit "Server");;
                           ret {| type := MSG_ERROR; sender := sender';
                                  recipient := recipient junk; content := content' |});;
      sender_found <~ atomic (find_client (sender msg));;
      atomic (match sender_found with
              | Some sender_socket => emit [Send sender_socket error_msg]
              | None => ret tt
              end) ~;;
      text <~ atomic (s <- read_str (sender msg);;
                      r' <- read_str (recipient msg);;
                      ret (s ++ lit " tried to message non-existent user " ++ r'));;
      format_whiteboard_msg_code MSG_TYPE_ERROR text
  | Some recipient_socket =>
      atomic (emit [Send recipient_socket msg]) ~;;
      text <~ atomic (s <- read_str (sender msg);;
                      r <- read_str (recipient msg);;
                      c <- read_str (content msg);;
                      ret (s ++ lit " to " ++ r ++ lit ": " ++ c));;
      format_whiteboard_msg_code MSG_TYPE_PRIVATE text
  end.

Definition check_username_code (client_socket : Z) (rx : list ascii)
  : code (option (list ascii)) :=
  match rx with
  | [] => atomic (emit [Close client_socket]) ~;; Return None
  | _ :: _ =>
      let username := recv_username rx in
      found <~ atomic (find_client username);;
      match found with
      | Some _ =>
          let error_msg := zeroed_message MSG_ERROR in
          atomic (name <- read_str username;;
                  content' <- write_str (content error_msg)
                                (lit "Username '" ++ name ++ lit "' is already in use");;
                  sender' <- write_str (sender error_msg) (lit "Server");;
                  emit [Send client_socket
                          {| type := type error_msg; sender := sender';
                             recipient := recipient error_msg; content := content' |};
                        Close client_socket]) ~;;
          Return None
      | None => Return (Some username)
      end
  end.

Definition announce_login_code (client_socket : Z) (name : list ascii) : code unit :=
  s <~ atomic (read_str name);;
  format_whiteboard_msg_code MSG_TYPE_LOGIN (s ++ lit " has joined the chat") ~;;
  let login_msg := zeroed_message MSG_LOGIN in
  msg <~ atomic (sender' <- write_str (sender login_msg) s;;
                 content' <- write_str (content login_msg) (lit "has joined the chat");;
                 ret {| type := type login_msg; sender := sender';
                        recipient := recipient login_msg; content := content' |});;
  broadcast_message_code msg client_socket.

(** The disconnect path: the removal is one section under [clients_mutex]. *)
Definition disconnect_code (client_socket : Z) (name : list ascii) : code unit :=
  name' <~ atomic (remove_client client_socket name);;
  s <~ atomic (read_str name');;
  format_whiteboard_msg_code MSG_TYPE_LOGOUT (s ++ lit " has left the chat") ~;;
  let logout_msg := zeroed_message MSG_LOGOUT in
  msg <~ atomic (sender' <- write_str (sender logout_msg) s;;
                 content' <- write_str (content logout_msg) (lit "has left the chat");;
                 ret {| type := type logout_msg; sender := sender';
                        recipient := recipient logout_msg; content := content' |});;
  broadcast_message_code msg client_socket ~;;
  atomic (emit [Close client_socket]).

Definition handle_recv_code (client_socket : Z) (name : list ascii)
    (rx : option Message) (junk : Message) : code conn_state :=
  match rx with
  | None => disconnect_code client_socket name ~;; Return Closed
  | Some msg =>
      if decide (type msg = MSG_PRIVATE)
      then send_private_message_code msg junk ~;; Return (Registered name)
      else Return (Registered name)
  end.

(** What the thread of [sock] runs from a point of [handle_client], with what
    the network and the stack supply. *)
Inductive next_code (sock : Z) : pc -> code pc -> Prop :=
| code_check rx :
    next_code sock AtCheck
      (checked <~ check_username_code sock rx;;
       Return (match checked with Some name => AtRegister name | None => AtEnd end))
| code_register name :
    next_code sock (AtRegister name)
      (atomic (register_client sock name) ~;; Return (AtAnnounce name))
| code_announce name :
    next_code sock (AtAnnounce name)
      (announce_login_code sock name ~;; Return (AtLoop name))
| code_recv name rx junk :
    next_code sock (AtLoop name)
      (c <~ handle_recv_code sock name rx junk;;
       Return (match c with Registered name' => AtLoop name' | _ => AtEnd end)).

(** The shared memory, the code each thread has left to run up to its next
    point, and whether [whiteboard_mutex] is held. *)
Record Process := mkProcess {
  memory : Server;
  handlers : list (Z * code pc);
  whiteboard_mutex : bool
}.

Definition process_init : Process :=
  {| memory := server_started; handlers := []; whiteboard_mutex := false |}.

(** One thread runs one piece; the others stand still.  A thread at a point
    enters the code that follows it; a [Lock] waits until the mutex is free. *)
Inductive slice : Process -> Process -> Prop :=
| slice_accept w sock :
    (forall c, (sock, c) ∈ handlers w -> c = Return AtEnd) ->
    slice w {| memory := memory w;
               handlers := handlers w ++ [(sock, Return AtCheck)];
               whiteboard_mutex := whiteboard_mutex w |}
| slice_enter w i sock p c :
    handlers w !! i = Some (sock, Return p) ->
    next_code sock p c ->
    slice w {| memory := memory w;
               handlers := <[i := (sock, c)]> (handlers w);
               whiteboard_mutex := whiteboard_mutex w |}
| slice_atomic w i sock A (m : M A) k a st' out :
    handlers w !! i = Some (sock, Atomic m k) ->
    m (memory w) = Ok (a, st', out) ->
    slice w {| memory := st';
               handlers := <[i := (sock, k a)]> (handlers w);
               whiteboard_mutex := whiteboard_mutex w |}
| slice_lock w i sock k :
    handlers w !! i = Some (sock, Lock k) ->
    whiteboard_mutex w = false ->
    slice w {| memory := memory w;
               handlers := <[i := (sock, k)]> (handlers w);
               whiteboard_mutex := true |}
| slice_unlock w i sock k :
    handlers w !! i = Some (sock, Unlock k) ->
    slice w {| memory := memory w;
               handlers := <[i := (sock, k)]> (handlers w);
               whiteboard_mutex := false |}.

Definition interleaved (w : Process) : Prop := rtc slice process_init w.

(** The process in which every thread of [w] stands at its point. *)
Definition process_of (w : World) : Process :=
  {| memory := server w;
     handlers := (fun t => (t.1, Return t.2)) <$> threads w;
     whiteboard_mutex := false |}.

(** ** client.c

    The parts of the client that decide what goes on the wire: the name set
    in [main], the handshake frame of [connect_to_server], the reading of one
    input line in [main], and [send_message]. *)

Module ChatClient.

Definition newline : ascii := ascii_of_nat 10.
Definition space : ascii := " "%char.

(** [strcspn(buf, "\n")] for a one-character reject set: the number of bytes
    before the first [reject] or the terminator.  [None] when the array ends
    first. *)
Fixpoint strcspn (buf : list ascii) (reject : ascii) : option nat :=
  match buf with
  | [] => None
  | x :: rest =>
      if is_nul x || Ascii.eqb x reject then Some 0
      else S <$> strcspn rest reject
  end.

(** [strchr(buf, c)], [c] not the terminator: [Some (Some i)] for a pointer to
    [buf[i]], [Some None] for [NULL], [None] when the array ends first. *)
Fixpoint strchr (buf : list ascii) (c : ascii) : option (option nat) :=
  match buf with
  | [] => None
  | x :: rest =>
      if Ascii.eqb x c then Some (Some 0)
      else if is_nul x then Some None
      else option_map (option_map S) (strchr rest c)
  end.

(** [buf[i] = c], inside the array. *)
Definition store_char (buf : list ascii) (i : nat) (c : ascii) : option (list ascii) :=
  if decide (i < length buf) then Some (<[i := c]> buf) else None.

(** [main]: the global [username] after
    [strncpy(username, argv[1], MAX_USERNAME - 1); username[MAX_USERNAME - 1] = 0],
    [arg] being the array [argv[1]] points to. *)
Definition main_username (arg : list ascii) : result (list ascii) :=
  u ← of_option BufferOverrun (strncpy (zeros MAX_USERNAME) arg (MAX_USERNAME - 1));
  of_option OutOfBounds (store_char u (MAX_USERNAME - 1) nul).

(** [connect_to_server]: the bytes of [write(sock, username, MAX_USERNAME)]. *)
Definition connect_to_server (username : list ascii) : list ascii :=
  take MAX_USERNAME username.

(** What one turn of the input loop of [main] does with the line read. *)
Inductive command :=
| Skip                                      (* empty line: [continue] *)
| Usage                                     (* no space: the usage hint, [continue] *)
| Call (recipient message : list ascii).    (* [send_message(recipient, message)] *)

(** The body of the input loop after [fgets]: [input] is the array [fgets]
    filled, [recipient] the local array as it is found on the stack.  The
    second argument of [Call] is the array from [space + 1] on. *)
Definition main_command (input recipient : list ascii) : result command :=
  k ← of_option BufferOverrun (strcspn input newline);
  input ← of_option OutOfBounds (store_char input k nul);
  line ← of_option BufferOverrun (c_str input);
  if decide (length line = 0) then Ok Skip
  else
    found ← of_option BufferOverrun (strchr input space);
    match found with
    | None => Ok Usage
    | Some pos =>
        let name_len := if decide (MAX_USERNAME <= pos) then MAX_USERNAME - 1 else pos in
        recipient ← of_option BufferOverrun (strncpy recipient input name_len);
        recipient ← of_option OutOfBounds (store_char recipient name_len nul);
        Ok (Call recipient (drop (S pos) input))
    end.

(** [send_message(recipient, content)]: the frame sent, [None] when the client
    is not connected.  [msg] is declared without an initialiser and holds
    [junk]. *)
Definition send_message (connected : bool) (username recipient content : list ascii)
    (junk : Message) : result (option Message) :=
  if negb connected then Ok None
  else
    let '(mkMessage _ junk_sender junk_recipient junk_content) := junk in
    sender' ← of_option BufferOverrun (strncpy junk_sender username MAX_USERNAME);
    recipient' ← of_option BufferOverrun (strncpy junk_recipient recipient MAX_USERNAME);
    content' ← of_option BufferOverrun (strncpy junk_content content MAX_MESSAGE);
    Ok (Some {| type := MSG_PRIVATE; sender := sender';
                recipient := recipient'; content := content' |}).

(** One turn of the input loop: the frame it sends, if any. *)
Definition main_turn (connected : bool) (username input recipient : list ascii)
    (junk : Message) : result (option Message) :=
  cmd ← main_command input recipient;
  match cmd with
  | Call recipient message => send_message connected username recipient message junk
  | Skip | Usage => Ok None
  end.

End ChatClient.

(** ** Vocabulary of the statements *)

Definition nul_free (s : list ascii) : Prop := Forall (fun c => is_nul c = false) s.

Definition nonempty (s : list ascii) : Prop := s <> [].

(** The array sizes of the registry. *)
Definition registry_sized (st : Server) : Prop :=
  Forall (fun c => length (username c) = MAX_USERNAME) (clients st).

(** The active session registered under the name [s]: the first in the array. *)
Definition session_named (st : Server) (s : list ascii) : option Client :=
  snd <$> list_find (fun c => c_str (username c) = Some s) (active st).

(** The array sizes of the whiteboard, the range of its cursor, and the last
    byte of each slot, which [update_whiteboard] never writes. *)
Definition wb_ok (wb : Whiteboard) : Prop :=
  current_index wb < WHITEBOARD_SIZE /\
  length (messages wb) = WHITEBOARD_SIZE /\
  Forall (fun slot => length slot = WB_LINE /\ slot !! (WB_LINE - 1) = Some nul)
         (messages wb).

Definition server_ok (st : Server) : Prop :=
  registry_sized st /\ wb_ok (whiteboard st).

(** The strings in the slots, from the slot under the cursor on: oldest first. *)
Definition wb_entries (wb : Whiteboard) : list (option (list ascii)) :=
  c_str <$> rotate (current_index wb) (messages wb).

(** [wb'] is [wb] after one more entry, for which the oldest slot is given up. *)
Definition appended (wb : Whiteboard) (entry : list ascii) (wb' : Whiteboard) : Prop :=
  wb_entries wb' = drop 1 (wb_entries wb) ++ [Some entry].

(** The last [k] elements of a list. *)
Definition last_n {A} (k : nat) (l : list A) : list A := drop (length l - k) l.

(** What a slot keeps of a string. *)
Definition stored (s : list ascii) : list ascii := take (WB_LINE - 1) s.

(** The text of a log line: the tag of its category, then the message. *)
Definition log_entry (ty : ServerMsgType) (text : list ascii) : list ascii :=
  let '(color, type_str) := get_msg_properties ty in
  color ++ type_str ++ ANSI_RESET ++ lit " - " ++ text.

(** The reply [handle_client] builds for a name in use. *)
Definition duplicate_reply (name : list ascii) : Message :=
  let text := lit "Username '" ++ name ++ lit "' is already in use" in
  {| type := MSG_ERROR;
     sender := lit "Server" ++ nul :: drop (S (length (lit "Server"))) (zeros MAX_USERNAME);
     recipient := zeros MAX_USERNAME;
     content := text ++ nul :: drop (S (length text)) (zeros MAX_MESSAGE) |}.

(** The reply [send_private_message] builds in [error_msg], which held [junk]. *)
Definition offline_reply (r : list ascii) (junk : Message) : Message :=
  let text := lit "User '" ++ r ++ lit "' does not exist or is offline" in
  {| type := MSG_ERROR;
     sender := lit "Server" ++ nul :: drop (S (length (lit "Server"))) (sender junk);
     recipient := recipient junk;
     content := text ++ nul :: drop (S (length text)) (content junk) |}.

(** A run of calls of [update_whiteboard], one per array in [bufs]. *)
Fixpoint update_whiteboard_each (bufs : list (list ascii)) : M unit :=
  match bufs with
  | [] => ret tt
  | message :: rest => update_whiteboard message;;; update_whiteboard_each rest
  end.

(** Connections handled one after the other, each up to its message loop. *)
Fixpoint handshake_each (conns : list (Z * list ascii)) : M unit :=
  match conns with
  | [] => ret tt
  | (sock, rx) :: rest => handshake sock rx;;; handshake_each rest
  end.

(** ** Invariants *)

(** The arrays have their declared sizes, the registry holds at most
    [MAX_CLIENTS] sessions, and the whiteboard is well formed. *)
Definition invariant (st : Server) : Prop :=
  length (clients st) = MAX_CLIENTS /\
  client_count st <= MAX_CLIENTS /\
  server_ok st.

(** No two active sessions have the same name. *)
Definition unique_names (st : Server) : Prop :=
  NoDup ((fun c => c_str (username c)) <$> active st).

Definition serial_invariant (st : Server) : Prop := invariant st /\ unique_names st.

(** [m] keeps [P], whenever it returns. *)
Definition keeps {A} (P : Server -> Prop) (m : M A) : Prop :=
  forall st a st' out, P st -> m st = Ok (a, st', out) -> P st'.

(** [m] leaves the state as it is. *)
Definition reads {A} (m : M A) : Prop :=
  forall st a st' out, m st = Ok (a, st', out) -> st' = st.

(** [P] is not lost when a line is stored in the whiteboard. *)
Definition log_stable (P : Server -> Prop) : Prop :=
  forall st message wb,
    P st -> wb_store (whiteboard st) message = Ok wb -> P (with_whiteboard st wb).

(** The states reached when every handshake and every turn of a message loop
    runs as a whole, one connection at a time. *)
Inductive serial : Server -> Prop :=
| serial_start : serial server_started
| serial_handshake st sock rx c st' out :
    serial st -> handshake sock rx st = Ok (c, st', out) -> serial st'
| serial_recv st sock name rx junk c st' out :
    serial st -> handle_recv sock name rx junk st = Ok (c, st', out) -> serial st'.

(** On a given state or message the sizes are checked by evaluation. *)
#[global] Instance registry_sized_dec st : Decision (registry_sized st).
Proof. unfold registry_sized. apply _. Defined.

#[global] Instance wb_ok_dec wb : Decision (wb_ok wb).
Proof. unfold wb_ok. apply _. Defined.

#[global] Instance server_ok_dec st : Decision (server_ok st).
Proof. unfold server_ok. apply _. Defined.

#[global] Instance message_sized_dec m : Decision (message_sized m).
Proof. unfold message_sized. apply _. Defined.

#[global] Instance invariant_dec st : Decision (invariant st).
Proof. unfold invariant. apply _. Defined.

(** ** The pieces of a thread's code *)

(** Every atomic step of [c] keeps [P]. *)
Fixpoint code_keeps {R} (P : Server -> Prop) (c : code R) : Prop :=
  match c with
  | Return _ => True
  | Atomic m k => keeps P m /\ forall a, code_keeps P (k a)
  | Lock k => code_keeps P k
  | Unlock k => code_keeps P k
  end.

(** [whiteboard_mutex] is taken and given back in turn, and is free at the
    end; [held] tells whether the thread holds it at the start. *)
Fixpoint balanced {R} (held : bool) (c : code R) : Prop :=
  match c with
  | Return _ => held = false
  | Atomic m k => forall a, balanced held (k a)
  | Lock k => held = false /\ balanced true k
  | Unlock k => held = true /\ balanced false k
  end.

(** ** Vocabulary: joining, leaving and the client's frames *)

(** The notice [handle_client] builds for a login or a logout. *)
Definition notice (t : Z) (s text : list ascii) : Message :=
  {| type := t;
     sender := s ++ nul :: drop (S (length s)) (zeros MAX_USERNAME);
     recipient := zeros MAX_USERNAME;
     content := text ++ nul :: drop (S (length text)) (zeros MAX_MESSAGE) |}.

(** The registry after [clients[client_count] = {sock, name}; client_count++]. *)
Definition registered (st : Server) (sock : Z) (name : list ascii) : Server :=
  {| clients := <[client_count st := mkClient sock name]> (clients st);
     client_count := S (client_count st);
     whiteboard := whiteboard st |}.

(** A string in an array of [MAX_USERNAME] bytes, the rest zeroed. *)
Definition padded (s : list ascii) : list ascii := s ++ zeros (MAX_USERNAME - length s).

(** The registry after the entry at [i] is removed: the entries after it move
    one place down, the last active entry stays behind as well, past the new
    [client_count]. *)
Definition unregistered (st : Server) (i : nat) : Server :=
  {| clients := take i (clients st)
                ++ take (client_count st - 1 - i) (drop (S i) (clients st))
                ++ drop (i + (client_count st - 1 - i)) (clients st);
     client_count := client_count st - 1;
     whiteboard := whiteboard st |}.

Definition not_close (e : event) : Prop :=
  match e with Close _ => False | _ => True end.

(** [m] closes no socket. *)
Definition never_closes {A} (m : M A) : Prop :=
  forall st a st' out, m st = Ok (a, st', out) -> Forall not_close out.

(** [m] does nothing to the outside. *)
Definition silent {A} (m : M A) : Prop :=
  forall st a st' out, m st = Ok (a, st', out) -> out = [].

(** The frame of a private message, every array filled up with terminators. *)
Definition private_frame (u r text : list ascii) : Message :=
  {| type := MSG_PRIVATE; sender := padded u; recipient := padded r;
     content := text ++ zeros (MAX_MESSAGE - length text) |}.

(** ** Sample data *)

Definition alice20 : list ascii := recv_username (lit "alice").
Definition bob20 : list ascii := recv_username (lit "bob").
Definition carol20 : list ascii := recv_username (lit "carol").

(** "alice" on socket 4. *)
Definition alice_only : Server :=
  server_of (handshake 4 (lit "alice") server_started).

(** "alice" on socket 4 and "bob" on socket 5. *)
Definition alice_bob : Server :=
  server_of (handshake_each [(4, lit "alice"); (5, lit "bob")]%Z server_started).

(** "a", "b" and "c" on sockets 4, 5 and 6. *)
Definition three_sessions : Server :=
  server_of (handshake_each [(4, lit "a"); (5, lit "b"); (6, lit "c")]%Z server_started).

Definition hi_to (from to : list ascii) : Message :=
  {| type := MSG_PRIVATE; sender := from; recipient := to;
     content := lit "hi" ++ zeros (MAX_MESSAGE - 2) |}.

Definition ten_connections : list (Z * list ascii) :=
  [(4, lit "a"); (5, lit "b"); (6, lit "c"); (7, lit "d"); (8, lit "e");
   (9, lit "f"); (10, lit "g"); (11, lit "h"); (12, lit "i"); (13, lit "j")]%Z.

(** The registry with [MAX_CLIENTS] sessions. *)
Definition full_house : Server :=
  server_of (handshake_each ten_connections server_started).

(** A handshake frame of [MAX_USERNAME] bytes, none of them the terminator. *)
Definition twenty_a : list ascii := replicate MAX_USERNAME "a"%char.

(** Both registered under "alice", before either login is announced. *)
Definition two_alices : Server :=
  {| clients := <[1 := mkClient 5 alice20]>
                  (<[0 := mkClient 4 alice20]> (clients server_init));
     client_count := 2;
     whiteboard := whiteboard server_started |}.

(** Eleven lines, and the arrays that hold them. *)
Definition eleven_lines : list (list ascii) :=
  [lit "SERVER STARTED"; lit "l1"; lit "l2"; lit "l3"; lit "l4"; lit "l5";
   lit "l6"; lit "l7"; lit "l8"; lit "l9"; lit "l10"].

Definition eleven_arrays : list (list ascii) := (fun s => s ++ [nul]) <$> eleven_lines.

(** alice is accepted, passes the check and is registered; her login is not
    announced yet. *)
Definition alice_at_announce : World :=
  {| server := server_of (register_client 4 alice20 server_started);
     threads := [(4%Z, AtAnnounce alice20)];
     trace := trace world_init |}.

Definition long_name : list ascii := lit "bartholomew-of-the-long-name".

Definition long_text : list ascii := replicate 400 "a"%char.

(** ** The model on small inputs *)

Example c_str_alice : c_str (lit "alice" ++ zeros 15) = Some (lit "alice").
Proof. reflexivity. Qed.

Example c_str_unterminated : c_str (lit "alice") = None.
Proof. reflexivity. Qed.

Example strcmp_eq_same :
  strcmp_eq (lit "bob" ++ zeros 17) (lit "bob" ++ nul :: lit "junk") = Some true.
Proof. reflexivity. Qed.

Example startup_run :
  startup server_init = Ok (tt, server world_init, trace world_init).
Proof. vm_compute. reflexivity. Qed.

Example alice_bob_active :
  active alice_bob = [mkClient 4 alice20; mkClient 5 bob20].
Proof. vm_compute. reflexivity. Qed.

(** bob joins: alice is sent the login notice; the log gains a LOGIN and a
    BROADCAST entry. *)
Example bob_joins :
  exists notice lines1 lines2,
    handshake 5 (lit "bob") alice_only
      = Ok (Registered bob20, alice_bob,
            [Render 2 lines1; Send 4 notice; Render 2 lines2]) /\
    type notice = MSG_LOGIN /\
    c_str (sender notice) = Some (lit "bob") /\
    c_str (content notice) = Some (lit "has joined the chat") /\
    last lines1 = Some (log_entry MSG_TYPE_LOGIN (lit "bob has joined the chat")) /\
    last lines2 = Some (log_entry MSG_TYPE_BROADCAST (lit "bob: has joined the chat")).
Proof. do 3 eexists. repeat split; vm_compute; reflexivity. Qed.

(** alice's connection ends: her entry is removed, bob is sent the logout
    notice, the socket is closed. *)
Example alice_leaves :
  exists st notice lines1 lines2,
    handle_recv 4 alice20 None (zeroed_message 0) alice_bob
      = Ok (Closed, st, [Render 1 lines1; Send 5 notice; Render 1 lines2; Close 4]) /\
    active st = [mkClient 5 bob20] /\
    type notice = MSG_LOGOUT /\
    c_str (sender notice) = Some (lit "alice") /\
    c_str (content notice) = Some (lit "has left the chat").
Proof. do 4 eexists. repeat split; vm_compute; reflexivity. Qed.

Example strncpy_pads :
  strncpy (lit "XXXXXXXX") (lit "ab" ++ [nul]) 5 = Some (lit "ab" ++ zeros 3 ++ lit "XXX").
Proof. reflexivity. Qed.

(** ** Facts about C strings *)

Section cstring_facts.
Implicit Types (a b s buf dst : list ascii) (c : ascii).

Lemma is_nul_true c : is_nul c = true <-> c = nul.
Proof. apply Ascii.eqb_eq. Qed.

Lemma c_str_cons c buf s :
  c_str (c :: buf) = Some s <->
  (is_nul c = true /\ s = []) \/
  (is_nul c = false /\ exists s', s = c :: s' /\ c_str buf = Some s').
Proof.
  simpl. destruct (is_nul c); split.
  - intros [= <-]. by left.
  - intros [[_ ->]|[? _]]; done.
  - intros (s' & ? & ->)%fmap_Some. right. eauto.
  - intros [[? _]|[_ (s' & -> & ->)]]; done.
Qed.

Lemma c_str_length buf s : c_str buf = Some s -> length s < length buf.
Proof.
  revert s. induction buf as [|c buf IH]; intros s; [done|].
  intros [[_ ->]|[_ (s' & -> & ?%IH)]]%c_str_cons; simpl; lia.
Qed.

Lemma c_str_nul_free buf s : c_str buf = Some s -> nul_free s.
Proof.
  revert s. induction buf as [|c buf IH]; intros s; [done|].
  intros [[_ ->]|[? (s' & -> & ?%IH)]]%c_str_cons; by constructor.
Qed.

Lemma c_str_app_nul s rest : nul_free s -> c_str (s ++ nul :: rest) = Some s.
Proof.
  induction 1 as [|c s Hc _ IH]; [done|].
  simpl. by rewrite Hc, IH.
Qed.

Lemma c_str_is_Some buf k : buf !! k = Some nul -> is_Some (c_str buf).
Proof.
  revert k. induction buf as [|c buf IH]; intros k; [done|].
  simpl. destruct (is_nul c) eqn:Hc; [by eexists|].
  destruct k as [|k]; simpl.
  - intros [= ->]. done.
  - intros [s ->]%IH. by eexists.
Qed.

Lemma nul_free_app s1 s2 : nul_free s1 -> nul_free s2 -> nul_free (s1 ++ s2).
Proof. apply Forall_app_2. Qed.

(** Against a terminated string, [strcmp] stays inside an array that is longer
    than the string. *)
Lemma strcmp_eq_terminated a b s :
  c_str b = Some s -> length s < length a ->
  strcmp_eq a b = Some (bool_decide (c_str a = Some s)).
Proof.
  revert b s. induction a as [|x a IH]; intros b s Hb Hlen; [simpl in Hlen; lia|].
  destruct b as [|y b]; [done|].
  apply c_str_cons in Hb as [[Hy ->]|[Hy (s' & -> & Hb)]]; simpl.
  - destruct (Ascii.eqb_spec x y) as [->|Hne].
    + rewrite Hy. by rewrite bool_decide_eq_true_2.
    + apply is_nul_true in Hy as ->.
      rewrite bool_decide_eq_false_2; [done|].
      destruct (is_nul x) eqn:Hx; [by apply is_nul_true in Hx|].
      by destruct (c_str a).
  - destruct (Ascii.eqb_spec x y) as [->|Hne].
    + rewrite Hy. simpl in Hlen. rewrite (IH b s' Hb) by lia.
      f_equal. apply bool_decide_ext. split.
      * intros ->. done.
      * intros (? & ? & [= ->])%fmap_Some. done.
    + rewrite bool_decide_eq_false_2; [done|].
      destruct (is_nul x); [done|].
      intros (? & ? & [= ? ?])%fmap_Some. done.
Qed.

Lemma strncpy_bytes_c_str buf s n :
  c_str buf = Some s ->
  strncpy_bytes buf n = Some (take n s ++ zeros (n - length s)).
Proof.
  revert buf s. induction n as [|n IH]; intros buf s Hs; [done|].
  destruct buf as [|c buf]; [done|].
  apply c_str_cons in Hs as [[Hc ->]|[Hc (s' & -> & Hs)]]; simpl; rewrite Hc; [done|].
  by rewrite (IH _ _ Hs).
Qed.

Lemma strcpy_fits dst s :
  length s < length dst ->
  strcpy dst s = Some (s ++ nul :: drop (S (length s)) dst).
Proof. intros. unfold strcpy. by rewrite decide_True by lia. Qed.

Lemma length_zeros n : length (zeros n) = n.
Proof. apply length_replicate. Qed.

Lemma length_lit str : length (lit str) = String.length str.
Proof. unfold lit. induction str as [|c str IH]; [done|]. simpl. by rewrite IH. Qed.

Lemma zeros_snoc k : zeros k ++ [nul] = nul :: zeros k.
Proof. unfold zeros. by rewrite <-replicate_S_end. Qed.

End cstring_facts.

(** Bounds on the lengths of texts put together from literals and strings. *)
Ltac len :=
  repeat first
    [ rewrite length_app in *
    | rewrite length_lit in *
    | rewrite length_zeros in *
    | rewrite length_cons in * ];
  unfold WB_LINE, MAX_USERNAME, MAX_MESSAGE in *; cbn [String.length] in *; lia.

(** A slot of [S n] bytes after [strncpy(slot, message, n)]. *)
Section slot_facts.
Variable n : nat.
Implicit Types slot message s : list ascii.

Lemma strncpy_slot slot message s :
  length slot = S n -> slot !! n = Some nul -> c_str message = Some s ->
  strncpy slot message n = Some (take n s ++ nul :: zeros (n - length s)).
Proof.
  intros Hlen Hlast Hs. unfold strncpy.
  rewrite decide_True by lia.
  rewrite (strncpy_bytes_c_str _ _ _ Hs). simpl.
  rewrite (drop_S _ _ _ Hlast), drop_ge by lia.
  by rewrite <-app_assoc, zeros_snoc.
Qed.

Lemma c_str_slot s :
  nul_free s -> c_str (take n s ++ nul :: zeros (n - length s)) = Some (take n s).
Proof. intros Hs. apply c_str_app_nul. by apply Forall_take. Qed.

Lemma length_slot s : length (take n s ++ nul :: zeros (n - length s)) = S n.
Proof. rewrite length_app, length_take. simpl. rewrite length_zeros. lia. Qed.

Lemma last_of_slot s : (take n s ++ nul :: zeros (n - length s)) !! n = Some nul.
Proof.
  destruct (decide (n <= length s)) as [Hle|Hgt].
  - rewrite lookup_app_r; rewrite length_take; [|lia].
    by replace (n - n `min` length s) with 0 by lia.
  - rewrite lookup_app_r; rewrite length_take; [|lia].
    replace (n - n `min` length s) with (S (n - length s - 1)) by lia. simpl.
    unfold zeros. apply lookup_replicate_2. lia.
Qed.

End slot_facts.

(** ** Facts about the monad *)

Section monad_facts.
Context {A B : Type}.

Lemma bind_pure (m : M A) (k : A -> M B) st a :
  m st = Ok (a, st, []) -> bind m k st = k a st.
Proof. intros H. unfold bind. rewrite H. by destruct (k a st) as [[[? ?] ?]|]. Qed.

Lemma bind_emit out (k : unit -> M B) st :
  bind (emit out) k st =
    match k tt st with
    | Ok (b, st2, out2) => Ok (b, st2, out ++ out2)
    | Fault e => Fault e
    end.
Proof. reflexivity. Qed.

End monad_facts.

Lemma read_str_Ok buf s st : c_str buf = Some s -> read_str buf st = Ok (s, st, []).
Proof. intros H. unfold read_str, liftR. by rewrite H. Qed.

Lemma write_str_Ok dst s st :
  length s < length dst ->
  write_str dst s st = Ok (s ++ nul :: drop (S (length s)) dst, st, []).
Proof. intros H. unfold write_str, liftR. by rewrite strcpy_fits. Qed.

(** ** The registry *)

Lemma find_loop_terminated cs name s :
  c_str name = Some s ->
  Forall (fun c => length s < length (username c)) cs ->
  find_loop cs name =
    Ok (socket ∘ snd <$> list_find (fun c => c_str (username c) = Some s) cs).
Proof.
  intros Hname. induction 1 as [|c cs Hc _ IH]; [done|].
  simpl. rewrite (strcmp_eq_terminated _ _ _ Hname Hc). simpl.
  case_bool_decide; case_decide; try done.
  rewrite IH. by destruct (list_find _ cs) as [[? ?]|].
Qed.

(** [find_client] on a terminated name finds the session of that name. *)
Lemma find_client_Ok st name s :
  registry_sized st -> c_str name = Some s -> length s < MAX_USERNAME ->
  find_client name st = Ok (socket <$> session_named st s, st, []).
Proof.
  intros Hsz Hname Hlen. unfold find_client.
  rewrite (bind_pure _ _ st st) by done. unfold liftR.
  rewrite (find_loop_terminated _ _ s Hname).
  - unfold session_named. by rewrite <-option_fmap_compose.
  - apply Forall_take. eapply Forall_impl; [apply Hsz|]. simpl. intros c ->. done.
Qed.

Lemma session_named_Some_intro st i c s :
  active st !! i = Some c -> c_str (username c) = Some s ->
  is_Some (session_named st s).
Proof.
  intros Hi Hc. unfold session_named.
  destruct (list_find _ (active st)) as [[j d]|] eqn:Hfind; [by eexists|].
  apply list_find_None in Hfind.
  apply (Forall_lookup_1 _ _ _ _ Hfind) in Hi. done.
Qed.

Lemma session_named_Some_elim st s d :
  session_named st s = Some d -> d ∈ active st /\ c_str (username d) = Some s.
Proof.
  unfold session_named. intros ([i d'] & Hfind & ->)%fmap_Some.
  apply list_find_Some in Hfind as (Hi & Hd & _). split; [|done].
  by eapply list_elem_of_lookup_2.
Qed.

Lemma length_recv_username rx : length (recv_username rx) = MAX_USERNAME.
Proof.
  unfold recv_username.
  rewrite length_app, length_take, length_zeros. lia.
Qed.

Lemma check_username_duplicate st client_socket rx name :
  registry_sized st -> rx <> [] -> c_str (recv_username rx) = Some name ->
  is_Some (session_named st name) ->
  check_username client_socket rx st
    = Ok (None, st, [Send client_socket (duplicate_reply name); Close client_socket]).
Proof.
  intros Hsz Hrx Hname [d Hd].
  assert (length name < MAX_USERNAME) as Hlen.
  { rewrite <-(length_recv_username rx). by apply c_str_length. }
  unfold check_username. destruct rx as [|b rx]; [done|].
  rewrite (bind_pure _ _ _ _ (find_client_Ok _ _ _ Hsz Hname Hlen)).
  rewrite Hd. simpl.
  rewrite (bind_pure _ _ _ _ (read_str_Ok _ _ _ Hname)).
  erewrite bind_pure by (apply write_str_Ok; simpl; len).
  erewrite bind_pure by (apply write_str_Ok; len).
  reflexivity.
Qed.

(** ** C10 *)

(** C10: while a session is registered, a received frame whose kind is not
    [MSG_PRIVATE] changes neither the registry nor the activity log, and nothing
    is sent or closed: the loop goes back to [recv]. *)
Theorem non_private_frame_ignored st client_socket name msg junk :
  type msg <> MSG_PRIVATE ->
  handle_recv client_socket name (Some msg) junk st = Ok (Registered name, st, []).
Proof. intros Hty. unfold handle_recv. by rewrite decide_False. Qed.

Lemma non_private_frame_ignored_witness :
  type (zeroed_message MSG_BROADCAST) <> MSG_PRIVATE /\
  handle_recv 4 alice20 (Some (zeroed_message MSG_BROADCAST)) (zeroed_message 0) alice_bob
    = Ok (Registered alice20, alice_bob, []).
Proof.
  split; [|apply non_private_frame_ignored]; vm_compute; discriminate.
Defined.

(** ** C3 *)

(** C3: when the name in the handshake frame is held by an active session, the
    handshake sends the connection one [MSG_ERROR] message from "Server" whose
    content is "Username '<name>' is already in use", closes the connection,
    ends in [Closed], and leaves the whole server state as it was. *)
Theorem duplicate_name_rejected st client_socket rx name i c :
  registry_sized st ->
  active st !! i = Some c -> c_str (username c) = Some name ->
  rx <> [] -> c_str (recv_username rx) = Some name ->
  exists m,
    handshake client_socket rx st
      = Ok (Closed, st, [Send client_socket m; Close client_socket]) /\
    type m = MSG_ERROR /\
    c_str (sender m) = Some (lit "Server") /\
    c_str (content m) = Some (lit "Username '" ++ name ++ lit "' is already in use").
Proof.
  intros Hsz Hi Hc Hrx Hname.
  exists (duplicate_reply name). split; [|split; [done|split; [done|]]].
  - unfold handshake, bind at 1.
    rewrite (check_username_duplicate _ _ _ name) by eauto using session_named_Some_intro.
    reflexivity.
  - unfold duplicate_reply. cbn [content]. apply c_str_app_nul.
    repeat apply nul_free_app;
      [by repeat constructor|by eapply c_str_nul_free|by repeat constructor].
Qed.

Lemma duplicate_name_rejected_witness :
  (registry_sized alice_only /\
   active alice_only !! 0 = Some (mkClient 4 alice20) /\
   c_str alice20 = Some (lit "alice") /\
   lit "alice" <> [] /\ c_str (recv_username (lit "alice")) = Some (lit "alice")) /\
  exists m,
    handshake 5 (lit "alice") alice_only = Ok (Closed, alice_only, [Send 5 m; Close 5]) /\
    type m = MSG_ERROR /\
    c_str (sender m) = Some (lit "Server") /\
    c_str (content m) = Some (lit "Username '" ++ lit "alice" ++ lit "' is already in use").
Proof.
  assert (registry_sized alice_only) as Hsz.
  { apply (bool_decide_unpack _). vm_compute. exact I. }
  split.
  - split; [exact Hsz|]. repeat split; try (vm_compute; reflexivity). discriminate.
  - apply (duplicate_name_rejected alice_only 5 (lit "alice") (lit "alice") 0
             (mkClient 4 alice20) Hsz); try (vm_compute; reflexivity); discriminate.
Defined.

(** ** The activity log as a queue *)

Lemma rotate_insert_advance {A} (l : list A) i x :
  i < length l ->
  rotate ((i + 1) mod length l) (<[i := x]> l) = drop 1 (rotate i l) ++ [x].
Proof.
  intros Hi. unfold rotate. rewrite length_insert.
  rewrite Nat.Div0.mod_mod, (Nat.mod_small i) by done.
  assert (drop 1 (drop i l ++ take i l) = drop (S i) l ++ take i l) as ->.
  { rewrite drop_app_le by (rewrite length_drop; lia). by rewrite drop_drop, Nat.add_1_r. }
  destruct (decide (i + 1 < length l)) as [Hlt|Hge].
  - rewrite Nat.mod_small by done. rewrite Nat.add_1_r.
    rewrite drop_insert_lt by lia.
    rewrite (take_S_r _ _ x) by (rewrite list_lookup_insert_eq; done).
    rewrite take_insert_ge by lia. by rewrite app_assoc.
  - replace (i + 1) with (length l) by lia. rewrite Nat.Div0.mod_same.
    simpl. rewrite drop_0.
    rewrite (drop_ge l (S i)) by lia. simpl.
    rewrite insert_take_drop by done. rewrite (drop_ge l (S i)) by lia.
    by rewrite take_0, app_nil_r.
Qed.

Lemma lookup_rotate_mod {A} (l : list A) cur i :
  i < length l -> rotate cur l !! i = l !! ((cur + i) mod length l).
Proof.
  intros Hi. rewrite lookup_rotate_r by done. unfold rotate_nat_add.
  by rewrite <-Nat2Z.inj_add, <-Nat2Z.inj_mod, Nat2Z.id.
Qed.

(** The display loop reads the slots in the order of [rotate]. *)
Lemma rotate_by_lookups {A} (l : list A) cur :
  (fun i => l !! ((cur + i) mod length l)) <$> seq 0 (length l) = Some <$> rotate cur l.
Proof.
  apply list_eq. intros i. rewrite !list_lookup_fmap.
  destruct (decide (i < length l)) as [Hi|Hi].
  - rewrite lookup_seq_lt by done. simpl. rewrite <-lookup_rotate_mod by done.
    destruct (lookup_lt_is_Some_2 (rotate cur l) i) as [y ->]; [|done].
    by rewrite length_rotate.
  - rewrite lookup_seq_ge by lia. rewrite lookup_ge_None_2; [done|].
    rewrite length_rotate. lia.
Qed.

Lemma length_wb_entries wb : length (wb_entries wb) = length (messages wb).
Proof. unfold wb_entries. by rewrite length_fmap, length_rotate. Qed.

Lemma wb_ok_init : wb_ok (whiteboard server_init).
Proof.
  split; [cbv; lia|]. split; [apply length_replicate|].
  apply Forall_replicate. split; [apply length_zeros|].
  apply lookup_replicate_2. cbv; lia.
Qed.

Lemma wb_entries_init :
  wb_entries (whiteboard server_init) = replicate WHITEBOARD_SIZE (Some []).
Proof.
  unfold wb_entries, server_init. cbn [whiteboard messages current_index].
  by rewrite rotate_replicate, fmap_replicate.
Qed.

(** One store: the slot under the cursor takes the string, cut to the slot,
    and becomes the newest. *)
Lemma wb_store_spec wb message s :
  wb_ok wb -> c_str message = Some s ->
  exists wb',
    wb_store wb message = Ok wb' /\ wb_ok wb' /\ appended wb (stored s) wb'.
Proof.
  intros (Hcur & Hlen & Hall) Hs.
  destruct (lookup_lt_is_Some_2 (messages wb) (current_index wb)) as [slot Hslot]; [lia|].
  destruct (Forall_lookup_1 _ _ _ _ Hall Hslot) as [Hsl Hlast].
  eexists. unfold wb_store. rewrite Hslot. simpl.
  rewrite (strncpy_slot (WB_LINE - 1) _ _ s) by done. simpl.
  split; [reflexivity|]. split.
  - split; simpl; [apply Nat.mod_upper_bound; done|].
    split; [by rewrite length_insert|].
    apply Forall_insert; [done|].
    split; [apply (length_slot (WB_LINE - 1))|apply last_of_slot].
  - unfold appended, wb_entries. simpl. rewrite <-Hlen at 1.
    rewrite rotate_insert_advance by lia.
    rewrite fmap_app, fmap_drop. simpl.
    by rewrite c_str_slot by (by eapply c_str_nul_free).
Qed.

Lemma wb_lines_spec wb ixs :
  wb_ok wb ->
  exists ss,
    (fun i => messages wb !! ((current_index wb + i) mod WHITEBOARD_SIZE) ≫= c_str) <$> ixs
      = Some <$> ss /\
    wb_lines wb ixs = Ok (filter nonempty ss).
Proof.
  intros (Hcur & Hlen & Hall). induction ixs as [|i ixs (ss & Hss & IH)]; [by exists []|].
  destruct (lookup_lt_is_Some_2 (messages wb)
              ((current_index wb + i) mod WHITEBOARD_SIZE)) as [slot Hslot].
  { rewrite Hlen. by apply Nat.mod_upper_bound. }
  destruct (Forall_lookup_1 _ _ _ _ Hall Hslot) as [Hsl Hlast].
  destruct (c_str_is_Some _ _ Hlast) as [s Hs].
  exists (s :: ss). split.
  { rewrite !fmap_cons, Hss, Hslot. simpl. by rewrite Hs. }
  cbn [wb_lines]. rewrite Hslot. simpl.
  destruct slot as [|c slot]; [done|]. simpl.
  apply c_str_cons in Hs as [[Hc ->]|[Hc (s' & -> & Hs)]]; rewrite Hc.
  - by rewrite filter_cons_False by (unfold nonempty; naive_solver).
  - simpl. rewrite Hs, IH. simpl. by rewrite filter_cons_True.
Qed.

(** The display prints the non-empty entries, oldest first. *)
Lemma wb_render_spec wb :
  wb_ok wb ->
  exists ss, wb_entries wb = Some <$> ss /\ wb_render wb = Ok (filter nonempty ss).
Proof.
  intros Hok. destruct (wb_lines_spec wb (seq 0 WHITEBOARD_SIZE) Hok) as (ss & Hss & Hr).
  exists ss. split; [|done].
  rewrite <-Hss. unfold wb_entries. destruct Hok as (_ & Hlen & _).
  rewrite <-Hlen.
  transitivity ((fun o => o ≫= c_str) <$> (Some <$> rotate (current_index wb) (messages wb))).
  - by rewrite <-list_fmap_compose.
  - by rewrite <-rotate_by_lookups, <-list_fmap_compose.
Qed.

Lemma update_whiteboard_spec st message s :
  wb_ok (whiteboard st) -> c_str message = Some s ->
  exists wb lines,
    update_whiteboard message st
      = Ok (tt, with_whiteboard st wb, [Render (client_count st) lines]) /\
    wb_ok wb /\ appended (whiteboard st) (stored s) wb /\
    wb_render wb = Ok lines.
Proof.
  intros Hok Hs.
  destruct (wb_store_spec _ _ _ Hok Hs) as (wb & Hstore & Hok' & Hent).
  destruct (wb_render_spec _ Hok') as (ss & _ & Hrender).
  exists wb, (filter nonempty ss). split; [|done].
  unfold update_whiteboard, bind, get, liftR, put, emit.
  by rewrite Hstore, Hrender.
Qed.

Lemma log_entry_nul_free ty text : nul_free text -> nul_free (log_entry ty text).
Proof.
  intros Htext. unfold log_entry.
  destruct ty; simpl; repeat apply Forall_app_2; try done; by repeat constructor.
Qed.

Lemma length_log_entry ty text : length (log_entry ty text) <= 21 + length text.
Proof.
  unfold log_entry.
  destruct ty; cbn [get_msg_properties];
    unfold ANSI_BLUE, ANSI_MAGENTA, ANSI_GREEN, ANSI_YELLOW, ANSI_RED, ANSI_RESET; len.
Qed.

(** A text short enough for a slot is logged whole, under its tag. *)
Lemma format_whiteboard_msg_spec st ty text :
  wb_ok (whiteboard st) -> nul_free text -> 21 + length text < WB_LINE ->
  exists wb lines,
    format_whiteboard_msg ty text st
      = Ok (tt, with_whiteboard st wb, [Render (client_count st) lines]) /\
    wb_ok wb /\ appended (whiteboard st) (log_entry ty text) wb /\
    wb_render wb = Ok lines.
Proof.
  intros Hok Htext Hlen.
  pose proof (length_log_entry ty text) as Hle.
  assert (format_whiteboard_msg ty text = update_whiteboard (log_entry ty text ++ [nul])) as ->.
  { unfold format_whiteboard_msg, log_entry, snprintf.
    destruct (get_msg_properties ty) as [color type_str] eqn:Hty.
    unfold log_entry in Hle. rewrite Hty in Hle.
    rewrite (take_ge text) by lia. by rewrite take_ge by lia. }
  destruct (update_whiteboard_spec st (log_entry ty text ++ [nul]) (log_entry ty text) Hok)
    as (wb & lines & Hrun & Hok' & Happ & Hrender).
  { by apply c_str_app_nul, log_entry_nul_free. }
  exists wb, lines. unfold stored in Happ. rewrite take_ge in Happ by lia. done.
Qed.

Lemma update_whiteboard_each_spec bufs ss st :
  wb_ok (whiteboard st) ->
  Forall2 (fun b s => c_str b = Some s) bufs ss ->
  exists wb out,
    update_whiteboard_each bufs st = Ok (tt, with_whiteboard st wb, out) /\
    wb_ok wb /\
    wb_entries wb = drop (length ss) (wb_entries (whiteboard st) ++ (Some ∘ stored <$> ss)) /\
    (bufs <> [] ->
     exists lines, last out = Some (Render (client_count st) lines) /\
                   wb_render wb = Ok lines).
Proof.
  intros Hok Hall. revert st Hok.
  induction Hall as [|b s bufs ss Hb Hall IH]; intros st Hok.
  - exists (whiteboard st), []. split; [by destruct st|]. split; [done|].
    split; [|done]. simpl. by rewrite app_nil_r.
  - destruct (update_whiteboard_spec st b s Hok Hb)
      as (wb1 & lines1 & Hrun1 & Hok1 & Happ1 & Hr1).
    destruct (IH (with_whiteboard st wb1) Hok1) as (wb & out & Hrun & Hok' & Hent & Hlast).
    exists wb, (Render (client_count st) lines1 :: out).
    split; [|split; [done|split]].
    + simpl. unfold bind at 1. rewrite Hrun1, Hrun. done.
    + rewrite Hent. simpl. unfold appended in Happ1. rewrite Happ1.
      assert (wb_entries (whiteboard st) <> []) as Hne.
      { intros Heq%(f_equal length). rewrite length_wb_entries in Heq.
        destruct Hok as (_ & Hlen & _). rewrite Hlen in Heq. done. }
      destruct (wb_entries (whiteboard st)) as [|e es]; [done|]. simpl.
      rewrite drop_0. by rewrite <-app_assoc.
    + intros _. destruct bufs as [|b' bufs].
      * cbn in Hrun. injection Hrun as Hwb <-.
        exists lines1. by subst wb.
      * destruct Hlast as (lines & Hl & Hr); [done|].
        exists lines. split; [|done].
        destruct out as [|e out]; [done|]. by rewrite last_cons_cons.
Qed.

Lemma filter_nonempty_replicate k : filter nonempty (replicate k []) = [].
Proof.
  induction k as [|k IH]; [done|]. simpl.
  by rewrite filter_cons_False by (unfold nonempty; naive_solver).
Qed.

(** ** C7 *)

(** C7: from the initial whiteboard, after any sequence of appends of
    terminated strings [ss] the log still has [WHITEBOARD_SIZE] slots; read from
    the cursor they hold the last [WHITEBOARD_SIZE] strings appended (each cut
    to the slot), in the order of the appends, behind slots that are still
    empty when fewer were appended; the display prints the non-empty ones
    among them in that order, oldest first. *)
Theorem activity_log_fifo st bufs ss :
  whiteboard st = whiteboard server_init ->
  Forall2 (fun b s => c_str b = Some s) bufs ss ->
  let kept := last_n WHITEBOARD_SIZE (stored <$> ss) in
  exists wb out,
    update_whiteboard_each bufs st = Ok (tt, with_whiteboard st wb, out) /\
    length (messages wb) = WHITEBOARD_SIZE /\
    wb_entries wb
      = replicate (WHITEBOARD_SIZE - length ss) (Some []) ++ (Some <$> kept) /\
    wb_render wb = Ok (filter nonempty kept) /\
    (bufs <> [] ->
     last out = Some (Render (client_count st) (filter nonempty kept))).
Proof.
  intros Hinit Hall kept.
  assert (wb_ok (whiteboard st)) as Hok by (rewrite Hinit; apply wb_ok_init).
  destruct (update_whiteboard_each_spec _ _ _ Hok Hall)
    as (wb & out & Hrun & Hok' & Hent & Hlast).
  assert (wb_entries wb
          = Some <$> (replicate (WHITEBOARD_SIZE - length ss) [] ++ kept)) as Hent'.
  { rewrite Hent, Hinit, wb_entries_init, fmap_app, fmap_replicate.
    unfold kept, last_n. rewrite length_fmap.
    destruct (decide (length ss <= WHITEBOARD_SIZE)) as [Hle|Hgt].
    - rewrite drop_app_le by (rewrite length_replicate; done).
      rewrite drop_replicate.
      replace (length ss - WHITEBOARD_SIZE) with 0 by lia.
      by rewrite drop_0, list_fmap_compose.
    - rewrite drop_app_ge by (rewrite length_replicate; lia).
      rewrite length_replicate.
      replace (WHITEBOARD_SIZE - length ss) with 0 by lia.
      by rewrite fmap_drop, list_fmap_compose. }
  destruct (wb_render_spec _ Hok') as (ss' & Hss' & Hrender).
  rewrite Hent' in Hss'. apply (inj (fmap Some)) in Hss' as <-.
  rewrite filter_app, filter_nonempty_replicate in Hrender. simpl in Hrender.
  exists wb, out. split; [done|]. split; [apply Hok'|].
  split; [by rewrite Hent', fmap_app, fmap_replicate|]. split; [done|].
  intros Hne. destruct (Hlast Hne) as (lines & -> & Hr).
  rewrite Hrender in Hr. by injection Hr as <-.
Qed.

Lemma activity_log_fifo_witness :
  (whiteboard server_init = whiteboard server_init /\
   Forall2 (fun b s => c_str b = Some s) eleven_arrays eleven_lines) /\
  exists wb out,
    update_whiteboard_each eleven_arrays server_init
      = Ok (tt, with_whiteboard server_init wb, out) /\
    length (messages wb) = WHITEBOARD_SIZE /\
    wb_entries wb = Some <$> drop 1 eleven_lines /\
    wb_render wb = Ok (drop 1 eleven_lines) /\
    (eleven_arrays <> [] -> last out = Some (Render 0 (drop 1 eleven_lines))).
Proof.
  assert (Forall2 (fun b s => c_str b = Some s) eleven_arrays eleven_lines) as Hall.
  { repeat constructor. }
  split; [split; [reflexivity|exact Hall]|].
  exact (activity_log_fifo server_init eleven_arrays eleven_lines eq_refl Hall).
Defined.

(** ** The router *)

Lemma broadcast_loop_filter cs msg sender_socket :
  broadcast_loop cs msg sender_socket =
    (fun c => Send (socket c) msg) <$> filter (fun c => socket c <> sender_socket) cs.
Proof.
  induction cs as [|c cs IH]; [done|]. simpl. case_decide.
  - by rewrite filter_cons_False by naive_solver.
  - by rewrite filter_cons_True, IH.
Qed.

Lemma offline_reply_fields r junk :
  nul_free r ->
  type (offline_reply r junk) = MSG_ERROR /\
  c_str (sender (offline_reply r junk)) = Some (lit "Server") /\
  c_str (content (offline_reply r junk))
    = Some (lit "User '" ++ r ++ lit "' does not exist or is offline").
Proof.
  intros Hr. split; [done|]. split; [done|]. unfold offline_reply. cbn [content].
  apply c_str_app_nul. repeat apply nul_free_app; try done; by repeat constructor.
Qed.

(** [send_private_message] when no active session has the recipient's name. *)
Lemma send_private_message_unknown st msg junk s r :
  server_ok st -> message_sized msg -> message_sized junk ->
  c_str (sender msg) = Some s -> c_str (recipient msg) = Some r ->
  session_named st r = None ->
  exists wb lines,
    send_private_message msg junk st
      = Ok (tt, with_whiteboard st wb,
            match session_named st s with
            | Some d => [Send (socket d) (offline_reply r junk)]
            | None => []
            end ++ [Render (client_count st) lines]) /\
    appended (whiteboard st)
      (log_entry MSG_TYPE_ERROR (s ++ lit " tried to message non-existent user " ++ r)) wb /\
    wb_render wb = Ok lines.
Proof.
  intros [Hsz Hok] (Hls & Hlr & _) (Hjs & _ & Hjc) Hs Hr Hnone.
  pose proof (c_str_length _ _ Hs). pose proof (c_str_length _ _ Hr).
  destruct (format_whiteboard_msg_spec st MSG_TYPE_ERROR
              (s ++ lit " tried to message non-existent user " ++ r) Hok)
    as (wb & lines & Hrun & _ & Happ & Hrender).
  { repeat apply nul_free_app; try (by eapply c_str_nul_free). by repeat constructor. }
  { len. }
  exists wb, lines. split; [|done].
  unfold send_private_message.
  rewrite (bind_pure _ _ _ _ (find_client_Ok _ _ r Hsz Hr ltac:(lia))).
  rewrite Hnone. cbn [fmap option_fmap option_map].
  rewrite (bind_pure _ _ _ _ (read_str_Ok _ _ _ Hr)).
  erewrite bind_pure by (apply write_str_Ok; len).
  erewrite bind_pure by (apply write_str_Ok; len).
  rewrite (bind_pure _ _ _ _ (find_client_Ok _ _ s Hsz Hs ltac:(lia))).
  destruct (session_named st s) as [d|]; cbn [fmap option_fmap option_map].
  - rewrite bind_emit.
    rewrite (bind_pure _ _ _ _ (read_str_Ok _ _ _ Hs)).
    rewrite (bind_pure _ _ _ _ (read_str_Ok _ _ _ Hr)).
    by rewrite Hrun.
  - rewrite (bind_pure _ _ st tt) by done.
    rewrite (bind_pure _ _ _ _ (read_str_Ok _ _ _ Hs)).
    rewrite (bind_pure _ _ _ _ (read_str_Ok _ _ _ Hr)).
    by rewrite Hrun.
Qed.

(** ** C6 *)

(** C6: [broadcast_message] sends the message, as it is, once to each session
    that is active when it is called and whose socket is not the excluded one,
    in the order of the registry, and to nothing else; it then appends one
    BROADCAST log entry "<sender>: <content>"; the registry is unchanged. *)
Theorem broadcast_delivery st msg sender_socket s c :
  wb_ok (whiteboard st) -> message_sized msg ->
  c_str (sender msg) = Some s -> c_str (content msg) = Some c ->
  exists wb lines,
    broadcast_message msg sender_socket st
      = Ok (tt, with_whiteboard st wb,
            ((fun d => Send (socket d) msg)
               <$> filter (fun d => socket d <> sender_socket) (active st))
            ++ [Render (client_count st) lines]) /\
    appended (whiteboard st) (log_entry MSG_TYPE_BROADCAST (s ++ lit ": " ++ c)) wb /\
    wb_render wb = Ok lines.
Proof.
  intros Hok (Hls & _ & Hlc) Hs Hc.
  pose proof (c_str_length _ _ Hs). pose proof (c_str_length _ _ Hc).
  destruct (format_whiteboard_msg_spec st MSG_TYPE_BROADCAST (s ++ lit ": " ++ c) Hok)
    as (wb & lines & Hrun & _ & Happ & Hrender).
  { repeat apply nul_free_app; try (by eapply c_str_nul_free). by repeat constructor. }
  { len. }
  exists wb, lines. split; [|done].
  unfold broadcast_message. rewrite (bind_pure _ _ st st) by done.
  rewrite bind_emit.
  rewrite (bind_pure _ _ _ _ (read_str_Ok _ _ _ Hs)).
  rewrite (bind_pure _ _ _ _ (read_str_Ok _ _ _ Hc)).
  by rewrite Hrun, broadcast_loop_filter.
Qed.

Lemma broadcast_delivery_witness :
  let msg := {| type := MSG_BROADCAST; sender := recv_username (lit "a");
                recipient := zeros MAX_USERNAME;
                content := lit "hello" ++ zeros (MAX_MESSAGE - 5) |} in
  (wb_ok (whiteboard three_sessions) /\ message_sized msg /\
   c_str (sender msg) = Some (lit "a") /\ c_str (content msg) = Some (lit "hello")) /\
  exists wb lines,
    broadcast_message msg 4 three_sessions
      = Ok (tt, with_whiteboard three_sessions wb,
            [Send 5 msg; Send 6 msg; Render 3 lines]) /\
    appended (whiteboard three_sessions)
      (log_entry MSG_TYPE_BROADCAST (lit "a" ++ lit ": " ++ lit "hello")) wb /\
    wb_render wb = Ok lines.
Proof.
  intros msg.
  assert (wb_ok (whiteboard three_sessions)) as Hok.
  { apply (bool_decide_unpack _). vm_compute. exact I. }
  assert (message_sized msg) as Hmsg.
  { apply (bool_decide_unpack _). vm_compute. exact I. }
  split; [split; [exact Hok|split; [exact Hmsg|split; reflexivity]]|].
  exact (broadcast_delivery three_sessions msg 4 (lit "a") (lit "hello")
           Hok Hmsg eq_refl eq_refl).
Defined.

(** ** C5 *)

(** C5: a private message whose recipient names an active session [d] is sent,
    as it is, to the socket of [d] and to no other; one log entry is appended,
    the magenta tag "PRIVATE" and then "<sender> to <recipient>: <content>";
    the registry is unchanged. *)
Theorem private_to_active_recipient st msg junk s r c d :
  server_ok st -> message_sized msg ->
  c_str (sender msg) = Some s -> c_str (recipient msg) = Some r ->
  c_str (content msg) = Some c ->
  session_named st r = Some d ->
  exists wb lines,
    send_private_message msg junk st
      = Ok (tt, with_whiteboard st wb,
            [Send (socket d) msg; Render (client_count st) lines]) /\
    d ∈ active st /\ c_str (username d) = Some r /\
    appended (whiteboard st)
      (("027"%char :: lit "[35m") ++ lit "PRIVATE" ++ ("027"%char :: lit "[0m") ++ lit " - "
       ++ s ++ lit " to " ++ r ++ lit ": " ++ c) wb /\
    wb_render wb = Ok lines.
Proof.
  intros [Hsz Hok] (Hls & Hlr & Hlc) Hs Hr Hc Hd.
  pose proof (c_str_length _ _ Hs). pose proof (c_str_length _ _ Hr).
  pose proof (c_str_length _ _ Hc).
  destruct (format_whiteboard_msg_spec st MSG_TYPE_PRIVATE
              (s ++ lit " to " ++ r ++ lit ": " ++ c) Hok)
    as (wb & lines & Hrun & _ & Happ & Hrender).
  { repeat apply nul_free_app; try (by eapply c_str_nul_free); by repeat constructor. }
  { len. }
  destruct (session_named_Some_elim _ _ _ Hd) as [Hin Hname].
  exists wb, lines. split; [|split; [done|split; [done|split; [exact Happ|done]]]].
  unfold send_private_message.
  rewrite (bind_pure _ _ _ _ (find_client_Ok _ _ r Hsz Hr ltac:(lia))).
  rewrite Hd. cbn [fmap option_fmap option_map].
  rewrite bind_emit.
  rewrite (bind_pure _ _ _ _ (read_str_Ok _ _ _ Hs)).
  rewrite (bind_pure _ _ _ _ (read_str_Ok _ _ _ Hr)).
  rewrite (bind_pure _ _ _ _ (read_str_Ok _ _ _ Hc)).
  by rewrite Hrun.
Qed.

Lemma private_to_active_recipient_witness :
  (server_ok alice_bob /\ message_sized (hi_to alice20 bob20) /\
   c_str alice20 = Some (lit "alice") /\ c_str bob20 = Some (lit "bob") /\
   c_str (content (hi_to alice20 bob20)) = Some (lit "hi") /\
   session_named alice_bob (lit "bob") = Some (mkClient 5 bob20)) /\
  exists wb lines,
    send_private_message (hi_to alice20 bob20) (zeroed_message 0) alice_bob
      = Ok (tt, with_whiteboard alice_bob wb,
            [Send 5 (hi_to alice20 bob20); Render 2 lines]) /\
    mkClient 5 bob20 ∈ active alice_bob /\ c_str bob20 = Some (lit "bob") /\
    appended (whiteboard alice_bob)
      (("027"%char :: lit "[35m") ++ lit "PRIVATE" ++ ("027"%char :: lit "[0m") ++ lit " - "
       ++ lit "alice" ++ lit " to " ++ lit "bob" ++ lit ": " ++ lit "hi") wb /\
    wb_render wb = Ok lines.
Proof.
  assert (server_ok alice_bob) as Hok.
  { apply (bool_decide_unpack _). vm_compute. exact I. }
  assert (message_sized (hi_to alice20 bob20)) as Hmsg.
  { apply (bool_decide_unpack _). vm_compute. exact I. }
  assert (session_named alice_bob (lit "bob") = Some (mkClient 5 bob20)) as Hbob.
  { vm_compute. reflexivity. }
  split.
  { split; [exact Hok|]. split; [exact Hmsg|]. repeat (split; [reflexivity|]). exact Hbob. }
  exact (private_to_active_recipient alice_bob (hi_to alice20 bob20) (zeroed_message 0)
           (lit "alice") (lit "bob") (lit "hi") (mkClient 5 bob20)
           Hok Hmsg eq_refl eq_refl eq_refl Hbob).
Defined.

(** ** C4 *)

(** C4: for a private message whose recipient names no active session,
    [send_private_message] sends exactly one frame when an active session bears
    the name in the message's sender field, to that session's socket, and no
    frame otherwise; the frame has kind [MSG_ERROR], sender "Server" and content
    "User '<recipient>' does not exist or is offline".  One log entry is
    appended, the red tag "ERROR" and then "<sender> tried to message
    non-existent user <recipient>"; nothing is closed and the registry is
    unchanged. *)
Theorem private_to_unknown_recipient st msg junk s r :
  server_ok st -> message_sized msg -> message_sized junk ->
  c_str (sender msg) = Some s -> c_str (recipient msg) = Some r ->
  session_named st r = None ->
  exists err wb lines,
    send_private_message msg junk st
      = Ok (tt, with_whiteboard st wb,
            match session_named st s with
            | Some d => [Send (socket d) err]
            | None => []
            end ++ [Render (client_count st) lines]) /\
    type err = MSG_ERROR /\
    c_str (sender err) = Some (lit "Server") /\
    c_str (content err)
      = Some (lit "User '" ++ r ++ lit "' does not exist or is offline") /\
    appended (whiteboard st)
      (("027"%char :: lit "[31m") ++ lit "ERROR" ++ ("027"%char :: lit "[0m") ++ lit " - "
       ++ s ++ lit " tried to message non-existent user " ++ r) wb /\
    wb_render wb = Ok lines.
Proof.
  intros Hok Hmsg Hjunk Hs Hr Hnone.
  destruct (send_private_message_unknown st msg junk s r Hok Hmsg Hjunk Hs Hr Hnone)
    as (wb & lines & Hrun & Happ & Hrender).
  destruct (offline_reply_fields r junk) as (Hty & Hsender & Hcontent);
    [by eapply c_str_nul_free|].
  exists (offline_reply r junk), wb, lines.
  split; [done|]. split; [done|]. split; [done|]. split; [done|]. split; [|done].
  exact Happ.
Qed.

Lemma private_to_unknown_recipient_witness :
  (server_ok alice_bob /\ message_sized (hi_to alice20 carol20) /\
   message_sized (zeroed_message 0) /\
   c_str alice20 = Some (lit "alice") /\ c_str carol20 = Some (lit "carol") /\
   session_named alice_bob (lit "carol") = None) /\
  exists err wb lines,
    send_private_message (hi_to alice20 carol20) (zeroed_message 0) alice_bob
      = Ok (tt, with_whiteboard alice_bob wb, [Send 4 err; Render 2 lines]) /\
    type err = MSG_ERROR /\
    c_str (sender err) = Some (lit "Server") /\
    c_str (content err)
      = Some (lit "User '" ++ lit "carol" ++ lit "' does not exist or is offline") /\
    appended (whiteboard alice_bob)
      (("027"%char :: lit "[31m") ++ lit "ERROR" ++ ("027"%char :: lit "[0m") ++ lit " - "
       ++ lit "alice" ++ lit " tried to message non-existent user " ++ lit "carol") wb /\
    wb_render wb = Ok lines.
Proof.
  assert (server_ok alice_bob) as Hok.
  { apply (bool_decide_unpack _). vm_compute. exact I. }
  assert (message_sized (hi_to alice20 carol20)) as Hmsg.
  { apply (bool_decide_unpack _). vm_compute. exact I. }
  assert (message_sized (zeroed_message 0)) as Hjunk.
  { apply (bool_decide_unpack _). vm_compute. exact I. }
  split.
  { split; [exact Hok|]. split; [exact Hmsg|]. split; [exact Hjunk|].
    repeat split; reflexivity. }
  exact (private_to_unknown_recipient alice_bob (hi_to alice20 carol20) (zeroed_message 0)
           (lit "alice") (lit "carol") Hok Hmsg Hjunk eq_refl eq_refl eq_refl).
Defined.

(** ** C9 *)

(** C9: when a registered connection [client_socket] delivers a private frame
    for an unknown recipient, the error reply goes to the socket of the active
    session whose name equals the frame's sender field, whichever connection
    the frame came in on; when no active session bears that name nothing is
    sent.  In both cases the ERROR log entry is appended and the connection
    stays registered. *)
Theorem error_reply_follows_sender_field st client_socket name msg junk s r :
  server_ok st -> message_sized msg -> message_sized junk ->
  type msg = MSG_PRIVATE ->
  c_str (sender msg) = Some s -> c_str (recipient msg) = Some r ->
  session_named st r = None ->
  exists err wb lines,
    type err = MSG_ERROR /\
    c_str (content err)
      = Some (lit "User '" ++ r ++ lit "' does not exist or is offline") /\
    appended (whiteboard st)
      (log_entry MSG_TYPE_ERROR (s ++ lit " tried to message non-existent user " ++ r)) wb /\
    (forall d, session_named st s = Some d ->
       handle_recv client_socket name (Some msg) junk st
         = Ok (Registered name, with_whiteboard st wb,
               [Send (socket d) err; Render (client_count st) lines])) /\
    (session_named st s = None ->
       handle_recv client_socket name (Some msg) junk st
         = Ok (Registered name, with_whiteboard st wb,
               [Render (client_count st) lines])).
Proof.
  intros Hok Hmsg Hjunk Hty Hs Hr Hnone.
  destruct (send_private_message_unknown st msg junk s r Hok Hmsg Hjunk Hs Hr Hnone)
    as (wb & lines & Hrun & Happ & Hrender).
  destruct (offline_reply_fields r junk) as (Hety & _ & Hcontent);
    [by eapply c_str_nul_free|].
  exists (offline_reply r junk), wb, lines.
  split; [done|]. split; [done|]. split; [done|].
  unfold handle_recv. rewrite decide_True by done. unfold bind.
  rewrite Hrun. split.
  - intros d ->. done.
  - intros ->. done.
Qed.

Lemma error_reply_follows_sender_field_witness :
  (server_ok alice_bob /\ message_sized (hi_to bob20 carol20) /\
   message_sized (zeroed_message 0) /\
   type (hi_to bob20 carol20) = MSG_PRIVATE /\
   c_str bob20 = Some (lit "bob") /\ c_str carol20 = Some (lit "carol") /\
   session_named alice_bob (lit "carol") = None) /\
  exists err wb lines,
    type err = MSG_ERROR /\
    c_str (content err)
      = Some (lit "User '" ++ lit "carol" ++ lit "' does not exist or is offline") /\
    appended (whiteboard alice_bob)
      (log_entry MSG_TYPE_ERROR
         (lit "bob" ++ lit " tried to message non-existent user " ++ lit "carol")) wb /\
    (forall d, session_named alice_bob (lit "bob") = Some d ->
       handle_recv 4 alice20 (Some (hi_to bob20 carol20)) (zeroed_message 0) alice_bob
         = Ok (Registered alice20, with_whiteboard alice_bob wb,
               [Send (socket d) err; Render 2 lines])) /\
    (session_named alice_bob (lit "bob") = None ->
       handle_recv 4 alice20 (Some (hi_to bob20 carol20)) (zeroed_message 0) alice_bob
         = Ok (Registered alice20, with_whiteboard alice_bob wb, [Render 2 lines])).
Proof.
  assert (server_ok alice_bob) as Hok.
  { apply (bool_decide_unpack _). vm_compute. exact I. }
  assert (message_sized (hi_to bob20 carol20)) as Hmsg.
  { apply (bool_decide_unpack _). vm_compute. exact I. }
  assert (message_sized (zeroed_message 0)) as Hjunk.
  { apply (bool_decide_unpack _). vm_compute. exact I. }
  split.
  { split; [exact Hok|]. split; [exact Hmsg|]. split; [exact Hjunk|].
    repeat split; reflexivity. }
  exact (error_reply_follows_sender_field alice_bob 4 alice20 (hi_to bob20 carol20)
           (zeroed_message 0) (lit "bob") (lit "carol")
           Hok Hmsg Hjunk eq_refl eq_refl eq_refl eq_refl).
Defined.

(** The frame of the witness above came in on alice's connection, socket 4,
    and carries bob's name: the reply goes to bob's socket, 5. *)
Example spoofed_sender_reply_goes_to_named_session :
  exists err wb lines,
    handle_recv 4 alice20 (Some (hi_to bob20 carol20)) (zeroed_message 0) alice_bob
      = Ok (Registered alice20, with_whiteboard alice_bob wb,
            [Send 5 err; Render 2 lines]) /\
    type err = MSG_ERROR.
Proof. do 3 eexists. split; vm_compute; reflexivity. Qed.

(** ** Invariants of the reachable states *)

Section keeps_facts.
Context {A B : Type}.

Lemma bind_inv (m : M A) (k : A -> M B) st b st2 out :
  bind m k st = Ok (b, st2, out) ->
  exists a st1 out1 out2,
    m st = Ok (a, st1, out1) /\ k a st1 = Ok (b, st2, out2) /\ out = out1 ++ out2.
Proof.
  unfold bind. destruct (m st) as [[[a st1] out1]|]; [|done].
  destruct (k a st1) as [[[b' st2'] out2]|] eqn:Hk; [|done].
  intros [= -> -> <-]. by exists a, st1, out1, out2.
Qed.

Lemma reads_keeps P (m : M A) : reads m -> keeps P m.
Proof. intros Hm st a st' out Hinv Hrun. by rewrite (Hm _ _ _ _ Hrun). Qed.

Lemma keeps_bind P (m : M A) (k : A -> M B) :
  keeps P m -> (forall a, keeps P (k a)) -> keeps P (bind m k).
Proof.
  intros Hm Hk st b st2 out Hinv (a & st1 & out1 & out2 & Hrun1 & Hrun2 & _)%bind_inv.
  eapply Hk; [|done]. by eapply Hm.
Qed.

Lemma reads_bind (m : M A) (k : A -> M B) :
  reads m -> (forall a, reads (k a)) -> reads (bind m k).
Proof.
  intros Hm Hk st b st2 out (a & st1 & out1 & out2 & Hrun1 & Hrun2 & _)%bind_inv.
  rewrite <-(Hm _ _ _ _ Hrun1). by eapply Hk.
Qed.

Lemma reads_ret (a : A) : reads (ret a).
Proof. intros st a' st' out H. injection H. congruence. Qed.

Lemma reads_liftR (r : result A) : reads (liftR r).
Proof.
  intros st a st' out. unfold liftR. destruct r; [|done].
  intros H. injection H. congruence.
Qed.

End keeps_facts.

Lemma reads_get : reads get.
Proof. intros st a st' out H. injection H. congruence. Qed.

Lemma reads_emit out : reads (emit out).
Proof. intros st a st' out' H. injection H. congruence. Qed.

Lemma reads_read_str buf : reads (read_str buf).
Proof. apply reads_liftR. Qed.

Lemma reads_write_str dst s : reads (write_str dst s).
Proof. apply reads_liftR. Qed.

Lemma reads_find_client name : reads (find_client name).
Proof. apply reads_bind; [apply reads_get|]. intros st. apply reads_liftR. Qed.

Ltac reads_tac :=
  repeat first
    [ apply reads_ret | apply reads_emit | apply reads_get | apply reads_liftR
    | apply reads_read_str | apply reads_write_str | apply reads_find_client
    | apply reads_bind; [|intros ?]
    | match goal with |- reads (match ?x with _ => _ end) => destruct x end ].

Lemma reads_check_username sock rx : reads (check_username sock rx).
Proof. unfold check_username. reads_tac. Qed.

Lemma length_strncpy_bytes buf n bytes :
  strncpy_bytes buf n = Some bytes -> length bytes = n.
Proof.
  revert buf bytes. induction n as [|n IH]; intros buf bytes; simpl.
  - by intros [= <-].
  - destruct buf as [|c buf]; [done|]. destruct (is_nul c).
    + intros [= <-]. by rewrite length_zeros.
    + intros (? & ?%IH & ->)%fmap_Some. simpl. lia.
Qed.

Lemma strncpy_inv dst src n dst' :
  strncpy dst src n = Some dst' ->
  length dst' = length dst /\ forall i, n <= i -> dst' !! i = dst !! i.
Proof.
  unfold strncpy. case_decide; [|done].
  intros (bytes & Hlen%length_strncpy_bytes & [= <-])%bind_Some. split.
  - rewrite length_app, length_drop. lia.
  - intros i Hi. rewrite lookup_app_r by lia. rewrite lookup_drop. f_equal. lia.
Qed.

Lemma wb_store_ok wb message wb' :
  wb_ok wb -> wb_store wb message = Ok wb' -> wb_ok wb'.
Proof.
  intros (Hcur & Hlen & Hall). unfold wb_store.
  remember (WB_LINE - 1) as n eqn:Hn.
  destruct (messages wb !! current_index wb) as [slot|] eqn:Hslot; simpl; [|done].
  destruct (strncpy slot message n) as [slot'|] eqn:Hcpy; simpl; [|done].
  intros [= <-]. destruct (Forall_lookup_1 _ _ _ _ Hall Hslot) as [Hsl Hlast].
  destruct (strncpy_inv _ _ _ _ Hcpy) as [Hlen' Hkeep].
  split; simpl; [by apply Nat.mod_upper_bound|].
  split; [by rewrite length_insert|].
  subst n. apply Forall_insert; [exact Hall|]. split; [congruence|]. by rewrite Hkeep.
Qed.

Lemma keeps_update_whiteboard P message :
  log_stable P -> keeps P (update_whiteboard message).
Proof.
  intros HP st a st' out Hst.
  unfold update_whiteboard, bind, get, liftR, put, emit.
  destruct (wb_store (whiteboard st) message) as [wb|] eqn:Hstore; [|done].
  destruct (wb_render wb); [|done]. intros [= _ <- _]. by eapply HP.
Qed.

Lemma keeps_format_whiteboard_msg P ty text :
  log_stable P -> keeps P (format_whiteboard_msg ty text).
Proof.
  intros HP. unfold format_whiteboard_msg. destruct (get_msg_properties ty).
  by apply keeps_update_whiteboard.
Qed.

Ltac keeps_tac :=
  repeat first
    [ apply keeps_update_whiteboard; assumption
    | apply keeps_format_whiteboard_msg; assumption
    | apply reads_keeps; solve [reads_tac]
    | apply keeps_bind; [|intros ?]
    | match goal with |- keeps _ (match ?x with _ => _ end) => destruct x end ].

Section log_stable_facts.
Context (P : Server -> Prop) (HP : log_stable P).

Lemma keeps_broadcast_message msg sock : keeps P (broadcast_message msg sock).
Proof. unfold broadcast_message. keeps_tac. Qed.

Lemma keeps_send_private_message msg junk : keeps P (send_private_message msg junk).
Proof. unfold send_private_message. keeps_tac. Qed.

Lemma keeps_announce_login sock name : keeps P (announce_login sock name).
Proof. unfold announce_login. keeps_tac. Qed.

Lemma keeps_disconnect sock name :
  keeps P (remove_client sock name) -> keeps P (disconnect sock name).
Proof.
  intros Hrem. unfold disconnect.
  apply keeps_bind; [done|]. intros ?. keeps_tac.
Qed.

Lemma keeps_handle_recv sock name rx junk :
  keeps P (remove_client sock name) -> keeps P (handle_recv sock name rx junk).
Proof.
  intros Hrem. unfold handle_recv. destruct rx as [msg|].
  - case_decide; keeps_tac.
  - apply keeps_bind; [by apply keeps_disconnect|]. intros ?. keeps_tac.
Qed.

End log_stable_facts.

Lemma invariant_log_stable : log_stable invariant.
Proof.
  intros st message wb (Hlen & Hcount & Hsz & Hwb) Hstore.
  split; [exact Hlen|]. split; [exact Hcount|]. split; [exact Hsz|].
  by eapply wb_store_ok.
Qed.

Lemma invariant_register_client sock name : keeps invariant (register_client sock name).
Proof.
  intros st a st' out (Hlen & Hcount & Hsz & Hwb).
  unfold register_client, bind, get, liftR, put.
  destruct (clients st !! client_count st) as [slot|] eqn:Hslot; simpl; [|done].
  destruct (strncpy (username slot) name MAX_USERNAME) as [name'|] eqn:Hcpy; simpl; [|done].
  intros [= _ <- _]. apply lookup_lt_Some in Hslot as Hlt.
  split; simpl; [by rewrite length_insert|]. split; [lia|]. split; [|done].
  apply Forall_insert; [done|]. simpl.
  destruct (strncpy_inv _ _ _ _ Hcpy) as [-> _].
  by apply (Forall_lookup_1 _ _ _ _ Hsz Hslot).
Qed.

Lemma shift_left_ok cs j n cs' :
  shift_left cs j n = Ok cs' ->
  Forall (fun c => length (username c) = MAX_USERNAME) cs ->
  length cs' = length cs /\ Forall (fun c => length (username c) = MAX_USERNAME) cs'.
Proof.
  revert cs j. induction n as [|n IH]; intros cs j; simpl.
  - by intros [= <-].
  - destruct (cs !! S j) as [c|] eqn:Hc; simpl; [|done].
    intros Hrun Hall. destruct (IH _ _ Hrun) as [Hlen Hall'].
    + apply Forall_insert; [done|]. by apply (Forall_lookup_1 _ _ _ _ Hall Hc).
    + by rewrite length_insert in Hlen.
Qed.

Lemma invariant_remove_client sock name : keeps invariant (remove_client sock name).
Proof.
  intros st a st' out (Hlen & Hcount & Hsz & Hwb).
  unfold remove_client. rewrite (bind_pure _ _ st st) by done.
  destruct (list_find _ (active st)) as [[i c]|]; [|by intros [= _ <-]].
  intros (s & st1 & ? & ? & ->%reads_read_str & Hrun & _)%bind_inv.
  apply bind_inv in Hrun as (name' & st2 & ? & ? & ->%reads_write_str & Hrun & _).
  apply bind_inv in Hrun as (cs & st3 & ? & ? & Hshift & Hrun & _).
  unfold liftR in Hshift.
  destruct (shift_left (clients st) i (client_count st - 1 - i)) as [cs'|] eqn:Hcs; [|done].
  injection Hshift as -> -> _.
  destruct (shift_left_ok _ _ _ _ Hcs Hsz) as [Hlen' Hsz'].
  cbv [bind put ret] in Hrun. injection Hrun as _ <- _.
  split; simpl; [congruence|]. split; [lia|]. done.
Qed.

Lemma invariant_started : invariant server_started.
Proof. apply (bool_decide_unpack _). vm_compute. exact I. Qed.

(** In every state the threads reach by whole steps (a step exists only where
    the code runs without a fault), the arrays have their declared sizes, the
    registry holds at most [MAX_CLIENTS] sessions and every whiteboard slot
    ends with a terminator. *)
Theorem reachable_invariant w : reachable w -> invariant (server w).
Proof.
  unfold reachable. intros H.
  apply (rtc_ind_r (R := step) (fun w => invariant (server w)) world_init);
    [apply invariant_started| |exact H].
  clear w H. intros w1 w2 _ Hstep IH.
  destruct Hstep as [w sock _|w i sock p m p' st' out _ Hnext Hrun]; [done|]. simpl.
  destruct Hnext.
  - apply bind_inv in Hrun as (? & ? & ? & ? & ->%reads_check_username & [= _ <- _] & _).
    done.
  - apply bind_inv in Hrun as (? & ? & ? & ? & Hrun & [= _ <- _] & _).
    by eapply invariant_register_client.
  - apply bind_inv in Hrun as (? & ? & ? & ? & Hrun & [= _ <- _] & _).
    by eapply (keeps_announce_login _ invariant_log_stable).
  - apply bind_inv in Hrun as (? & ? & ? & ? & Hrun & [= _ <- _] & _).
    exact (keeps_handle_recv _ invariant_log_stable _ _ _ _
             (invariant_remove_client _ _) _ _ _ _ IH Hrun).
Qed.

Lemma reachable_invariant_witness :
  reachable alice_at_announce /\ invariant (server alice_at_announce).
Proof.
  assert (reachable alice_at_announce) as H.
  { unfold reachable.
    eapply rtc_l. { apply (step_accept _ 4%Z). intros p Hp. inversion Hp. }
    eapply rtc_l.
    { eapply (step_thread _ 0 4%Z);
        [reflexivity|apply (next_check _ (lit "alice"))|reflexivity]. }
    eapply rtc_l.
    { eapply (step_thread _ 0 4%Z); [reflexivity|apply next_register|reflexivity]. }
    apply rtc_refl. }
  exact (conj H (reachable_invariant alice_at_announce H)).
Defined.

(** ** Interleavings of the critical sections *)

Lemma code_keeps_bind {R S} P (c : code R) (f : R -> code S) :
  code_keeps P c -> (forall r, code_keeps P (f r)) -> code_keeps P (code_bind c f).
Proof.
  intros Hc Hf. induction c as [r|A m k IH|k IH|k IH]; simpl in *; [done| |auto..].
  destruct Hc as [Hm Hk]. split; [done|]. intros a. by apply IH.
Qed.

Lemma code_keeps_atomic {A} P (m : M A) : keeps P m -> code_keeps P (atomic m).
Proof. by split. Qed.

Lemma keeps_wb_store_section P message :
  log_stable P ->
  keeps P (st <- get;; wb <- liftR (wb_store (whiteboard st) message);;
           put (with_whiteboard st wb)).
Proof.
  intros HP st a st' out Hst. unfold bind, get, liftR, put.
  destruct (wb_store (whiteboard st) message) as [wb|] eqn:Hstore; [|done].
  intros [= _ <- _]. by eapply HP.
Qed.

Section code_keeps_facts.
Context (P : Server -> Prop) (HP : log_stable P).

Lemma code_keeps_update_whiteboard message : code_keeps P (update_whiteboard_code message).
Proof.
  simpl. split; [by apply keeps_wb_store_section|]. intros _.
  split; [apply reads_keeps; reads_tac|]. intros n.
  split; [apply reads_keeps; reads_tac|]. done.
Qed.

Lemma code_keeps_format_whiteboard_msg ty text :
  code_keeps P (format_whiteboard_msg_code ty text).
Proof.
  unfold format_whiteboard_msg_code. destruct (get_msg_properties ty).
  apply code_keeps_update_whiteboard.
Qed.

Ltac code_keeps_tac :=
  repeat lazymatch goal with
    | |- code_keeps _ (format_whiteboard_msg_code _ _) =>
        apply code_keeps_format_whiteboard_msg
    | |- code_keeps _ (code_bind _ _) => apply code_keeps_bind; [|intros ?]
    | |- code_keeps _ (atomic _) => apply code_keeps_atomic, reads_keeps; solve [reads_tac]
    | |- code_keeps _ (Return _) => exact I
    | |- code_keeps _ (match ?x with _ => _ end) => destruct x
    end.

Lemma code_keeps_broadcast_message msg sock : code_keeps P (broadcast_message_code msg sock).
Proof. unfold broadcast_message_code. code_keeps_tac. Qed.

Lemma code_keeps_send_private_message msg junk :
  code_keeps P (send_private_message_code msg junk).
Proof. unfold send_private_message_code. code_keeps_tac. Qed.

Lemma code_keeps_check_username sock rx : code_keeps P (check_username_code sock rx).
Proof. unfold check_username_code. destruct rx; cbv zeta; code_keeps_tac. Qed.

Lemma code_keeps_announce_login sock name : code_keeps P (announce_login_code sock name).
Proof.
  unfold announce_login_code. cbv zeta. code_keeps_tac. apply code_keeps_broadcast_message.
Qed.

Lemma code_keeps_handle_recv sock name rx junk :
  keeps P (remove_client sock name) -> code_keeps P (handle_recv_code sock name rx junk).
Proof.
  intros Hrem. unfold handle_recv_code. destruct rx as [msg|].
  - case_decide; [|done].
    apply code_keeps_bind; [apply code_keeps_send_private_message|done].
  - apply code_keeps_bind; [|done]. unfold disconnect_code. cbv zeta.
    apply code_keeps_bind; [by apply code_keeps_atomic|]. intros ?.
    code_keeps_tac. apply code_keeps_broadcast_message.
Qed.

End code_keeps_facts.

Lemma next_code_keeps sock p c : next_code sock p c -> code_keeps invariant c.
Proof.
  destruct 1.
  - apply code_keeps_bind; [apply code_keeps_check_username|done].
  - split; [apply invariant_register_client|done].
  - apply code_keeps_bind; [apply code_keeps_announce_login, invariant_log_stable|done].
  - apply code_keeps_bind; [|done].
    apply code_keeps_handle_recv; [apply invariant_log_stable|apply invariant_remove_client].
Qed.

(** X1: in every state the threads reach, however their critical sections
    interleave (a piece of code runs only where it runs without a fault), the
    arrays have their declared sizes, the registry holds at most [MAX_CLIENTS]
    sessions and every whiteboard slot ends with a terminator. *)
Theorem interleaved_invariant w : interleaved w -> invariant (memory w).
Proof.
  intros H.
  cut (invariant (memory w) /\ Forall (fun t => code_keeps invariant t.2) (handlers w));
    [by intros [? _]|].
  apply (rtc_ind_r (R := slice)
           (fun w => invariant (memory w)
                     /\ Forall (fun t => code_keeps invariant t.2) (handlers w))
           process_init); [split; [apply invariant_started|constructor]| |exact H].
  clear w H. intros w1 w2 _ Hstep [Hinv Hall].
  destruct Hstep as [w sock _|w i sock p c Hi Hnext|w i sock A m k a st' out Hi Hrun
                    |w i sock k Hi _|w i sock k Hi]; simpl.
  - split; [done|]. apply Forall_app. split; [done|]. by repeat constructor.
  - split; [done|]. apply Forall_insert; [done|]. simpl. by eapply next_code_keeps.
  - pose proof (Forall_lookup_1 _ _ _ _ Hall Hi) as [Hm Hk].
    split; [by eapply Hm|]. apply Forall_insert; [done|]. apply Hk.
  - pose proof (Forall_lookup_1 _ _ _ _ Hall Hi) as Hk.
    split; [done|]. by apply Forall_insert.
  - pose proof (Forall_lookup_1 _ _ _ _ Hall Hi) as Hk.
    split; [done|]. by apply Forall_insert.
Qed.

Lemma interleaved_invariant_witness :
  exists w,
    interleaved w /\ whiteboard_mutex w = true /\
    active (memory w) = [mkClient 4 alice20] /\
    invariant (memory w).
Proof.
  assert (exists w, interleaved w /\ whiteboard_mutex w = true /\
                    active (memory w) = [mkClient 4 alice20]) as (w & H & Hheld & Hactive).
  { eexists. split.
    - unfold interleaved.
      eapply rtc_l. { apply (slice_accept _ 4%Z). intros c Hc. inversion Hc. }
      eapply rtc_l.
      { eapply (slice_enter _ 0 4%Z); [reflexivity|apply (code_check _ (lit "alice"))]. }
      eapply rtc_l. { eapply (slice_atomic _ 0 4%Z); reflexivity. }
      eapply rtc_l. { eapply (slice_enter _ 0 4%Z); [reflexivity|apply code_register]. }
      eapply rtc_l. { eapply (slice_atomic _ 0 4%Z); reflexivity. }
      eapply rtc_l. { eapply (slice_enter _ 0 4%Z); [reflexivity|apply code_announce]. }
      eapply rtc_l. { eapply (slice_atomic _ 0 4%Z); reflexivity. }
      eapply rtc_l. { eapply (slice_lock _ 0 4%Z); reflexivity. }
      eapply rtc_l. { eapply (slice_atomic _ 0 4%Z); reflexivity. }
      apply rtc_refl.
    - split; [reflexivity|]. vm_compute. reflexivity. }
  exists w. exact (conj H (conj Hheld (conj Hactive (interleaved_invariant w H)))).
Defined.

(** ** The sections run without interruption *)

Section monad_laws.
Context {A B C : Type}.

Lemma bind_ext (m : M A) (f g : A -> M B) st :
  (forall a st', f a st' = g a st') -> bind m f st = bind m g st.
Proof. intros Hfg. unfold bind. destruct (m st) as [[[a st1] out1]|]; [|done]. by rewrite Hfg. Qed.

Lemma bind_assoc (m : M A) (f : A -> M B) (g : B -> M C) st :
  bind (bind m f) g st = bind m (fun a => bind (f a) g) st.
Proof.
  unfold bind. destruct (m st) as [[[a st1] out1]|]; [|done].
  destruct (f a st1) as [[[b st2] out2]|]; [|done].
  destruct (g b st2) as [[[c st3] out3]|]; [|done].
  by rewrite (assoc_L (++)).
Qed.

Lemma bind_ret_l (a : A) (f : A -> M B) st : bind (ret a) f st = f a st.
Proof. unfold bind, ret. by destruct (f a st) as [[[b st2] out2]|]. Qed.

Lemma bind_ret_r (m : M A) st : bind m ret st = m st.
Proof.
  unfold bind, ret. destruct (m st) as [[[a st1] out1]|]; [|done]. by rewrite app_nil_r.
Qed.

End monad_laws.

Lemma run_bind {R S} (c : code R) (f : R -> code S) st :
  run (code_bind c f) st = bind (run c) (fun r => run (f r)) st.
Proof.
  revert st. induction c as [r|A m k IH|k IH|k IH]; intros st; simpl; [| |done..].
  - by rewrite bind_ret_l.
  - rewrite bind_assoc. apply bind_ext. intros a st'. apply IH.
Qed.

Lemma run_atomic {A} (m : M A) st : run (atomic m) st = m st.
Proof. apply bind_ret_r. Qed.

Lemma bind_ext_l {A B} (m m' : M A) (f g : A -> M B) st :
  (forall st', m st' = m' st') -> (forall a st', f a st' = g a st') ->
  bind m f st = bind m' g st.
Proof. intros Hm Hfg. unfold bind. rewrite Hm. by apply bind_ext. Qed.

Lemma bind_run_atomic {A B} (m : M A) (f : A -> M B) st :
  bind (run (atomic m)) f st = bind m f st.
Proof. apply bind_ext_l; [apply run_atomic|done]. Qed.

Lemma bind_run_bind {R S B} (c : code R) (k : R -> code S) (f : S -> M B) st :
  bind (run (code_bind c k)) f st = bind (run c) (fun r => bind (run (k r)) f) st.
Proof.
  rewrite <-bind_assoc. apply bind_ext_l; [|done]. intros st'. apply run_bind.
Qed.

Lemma run_update_whiteboard message st :
  run (update_whiteboard_code message) st = update_whiteboard message st.
Proof.
  unfold update_whiteboard. simpl. unfold bind, get, liftR, put, ret, emit.
  destruct (wb_store (whiteboard st) message) as [wb|]; [|done]. simpl.
  by destruct (wb_render wb).
Qed.

Lemma run_format_whiteboard_msg ty text st :
  run (format_whiteboard_msg_code ty text) st = format_whiteboard_msg ty text st.
Proof.
  unfold format_whiteboard_msg_code, format_whiteboard_msg.
  destruct (get_msg_properties ty). apply run_update_whiteboard.
Qed.

(** Both sides call by call: the same calls in the same order. *)
Ltac run_step :=
  first
    [ rewrite run_bind | rewrite run_atomic
    | rewrite bind_run_bind | rewrite bind_run_atomic
    | rewrite bind_assoc | rewrite bind_ret_l
    | progress cbn [run]
    | lazymatch goal with
      | |- run (format_whiteboard_msg_code _ _) _ = _ => apply run_format_whiteboard_msg
      | |- bind (run (format_whiteboard_msg_code _ _)) _ _ = _ =>
          apply bind_ext_l; [apply run_format_whiteboard_msg|intros ? ?]
      | |- bind ?m _ _ = bind ?m _ _ => apply bind_ext; intros ? ?
      | |- context [match ?x with _ => _ end] => destruct x
      end
    | reflexivity ].

Ltac run_tac := repeat run_step.

Lemma run_broadcast_message msg sock st :
  run (broadcast_message_code msg sock) st = broadcast_message msg sock st.
Proof. unfold broadcast_message_code, broadcast_message. run_tac. Qed.

Lemma run_send_private_message msg junk st :
  run (send_private_message_code msg junk) st = send_private_message msg junk st.
Proof. unfold send_private_message_code, send_private_message. run_tac. Qed.

Lemma run_check_username sock rx st :
  run (check_username_code sock rx) st = check_username sock rx st.
Proof. unfold check_username_code, check_username. destruct rx; cbv zeta; run_tac. Qed.

Lemma run_announce_login sock name st :
  run (announce_login_code sock name) st = announce_login sock name st.
Proof.
  unfold announce_login_code, announce_login. cbv zeta. run_tac.
  apply run_broadcast_message.
Qed.

Lemma run_disconnect sock name st :
  run (disconnect_code sock name) st = disconnect sock name st.
Proof.
  unfold disconnect_code, disconnect. cbv zeta. run_tac.
  apply bind_ext_l; [apply run_broadcast_message|]. intros [] ?. apply run_atomic.
Qed.

Lemma run_handle_recv sock name rx junk st :
  run (handle_recv_code sock name rx junk) st = handle_recv sock name rx junk st.
Proof.
  unfold handle_recv_code, handle_recv. destruct rx as [msg|].
  - case_decide; [|done]. rewrite run_bind.
    apply bind_ext_l; [apply run_send_private_message|done].
  - rewrite run_bind. apply bind_ext_l; [apply run_disconnect|done].
Qed.

(** The code of a section, run as a whole, is the step of the thread in
    [next]. *)
Lemma next_code_run sock p c :
  next_code sock p c -> exists m, next sock p m /\ forall st, run c st = m st.
Proof.
  destruct 1 as [rx|name|name|name rx junk]; eexists; (split; [constructor|]);
    intros st; rewrite run_bind; unfold bind.
  - by rewrite run_check_username.
  - by rewrite run_atomic.
  - by rewrite run_announce_login.
  - by rewrite run_handle_recv.
Qed.

(** ** Whole steps are runs of slices *)

Lemma balanced_bind {R S} held (c : code R) (f : R -> code S) :
  balanced held c -> (forall r, balanced false (f r)) -> balanced held (code_bind c f).
Proof.
  intros Hc Hf. revert held Hc.
  induction c as [r|A m k IH|k IH|k IH]; intros held Hc; simpl in *.
  - by subst.
  - intros a. by apply IH.
  - destruct Hc. split; [done|]. by apply IH.
  - destruct Hc. split; [done|]. by apply IH.
Qed.

Lemma balanced_atomic {A} (m : M A) : balanced false (atomic m).
Proof. done. Qed.

Lemma balanced_format_whiteboard_msg ty text :
  balanced false (format_whiteboard_msg_code ty text).
Proof. unfold format_whiteboard_msg_code. by destruct (get_msg_properties ty). Qed.

Ltac balanced_tac :=
  repeat lazymatch goal with
    | |- balanced _ (format_whiteboard_msg_code _ _) => apply balanced_format_whiteboard_msg
    | |- balanced _ (code_bind _ _) => apply balanced_bind; [|intros ?]
    | |- balanced _ (atomic _) => apply balanced_atomic
    | |- balanced _ (Return _) => reflexivity
    | |- balanced _ (match ?x with _ => _ end) => destruct x
    end.

Lemma balanced_broadcast_message msg sock : balanced false (broadcast_message_code msg sock).
Proof. unfold broadcast_message_code. balanced_tac. Qed.

Lemma next_code_balanced sock p c : next_code sock p c -> balanced false c.
Proof.
  destruct 1 as [rx|name|name|name rx junk].
  - unfold check_username_code. destruct rx; balanced_tac.
  - balanced_tac.
  - unfold announce_login_code. balanced_tac. apply balanced_broadcast_message.
  - unfold handle_recv_code, disconnect_code, send_private_message_code.
    destruct rx; [case_decide|]; balanced_tac; apply balanced_broadcast_message.
Qed.

Lemma run_slices (c : code pc) :
  forall held st hs i sock p st' out,
    hs !! i = Some (sock, c) -> balanced held c ->
    run c st = Ok (p, st', out) ->
    rtc slice {| memory := st; handlers := hs; whiteboard_mutex := held |}
              {| memory := st'; handlers := <[i := (sock, Return p)]> hs;
                 whiteboard_mutex := false |}.
Proof.
  induction c as [r|A m k IH|k IH|k IH]; intros held st hs i sock p st' out Hi Hbal Hrun;
    simpl in *.
  - injection Hrun as -> -> _. subst held. by rewrite list_insert_id.
  - apply bind_inv in Hrun as (a & st1 & out1 & out2 & Hm & Hk & _).
    eapply rtc_l; [exact (slice_atomic (mkProcess st hs held) i sock A m k a st1 out1 Hi Hm)|].
    simpl. rewrite <-(list_insert_insert_eq hs i (sock, Return p) (sock, k a)).
    eapply IH; [|done..]. apply list_lookup_insert_eq. by eapply lookup_lt_Some.
  - destruct Hbal as [-> Hbal].
    eapply rtc_l; [exact (slice_lock (mkProcess st hs false) i sock k Hi eq_refl)|].
    simpl. rewrite <-(list_insert_insert_eq hs i (sock, Return p) (sock, k)).
    eapply IH; [|done..]. apply list_lookup_insert_eq. by eapply lookup_lt_Some.
  - destruct Hbal as [-> Hbal].
    eapply rtc_l; [exact (slice_unlock (mkProcess st hs true) i sock k Hi)|].
    simpl. rewrite <-(list_insert_insert_eq hs i (sock, Return p) (sock, k)).
    eapply IH; [|done..]. apply list_lookup_insert_eq. by eapply lookup_lt_Some.
Qed.

Lemma next_run_code sock p m :
  next sock p m -> exists c, next_code sock p c /\ forall st, run c st = m st.
Proof.
  destruct 1 as [rx|name|name|name rx junk]; eexists; (split; [constructor|]);
    intros st; rewrite run_bind; unfold bind.
  - by rewrite run_check_username.
  - by rewrite run_atomic.
  - by rewrite run_announce_login.
  - by rewrite run_handle_recv.
Qed.

(** A step of a thread from one point to the next is a run of slices in which
    no other thread moves. *)
Lemma step_slices w w' : step w w' -> rtc slice (process_of w) (process_of w').
Proof.
  destruct 1 as [w sock Hfree|w i sock p m p' st' out Hi Hnext Hrun]; unfold process_of; simpl.
  - apply rtc_once. rewrite fmap_app. simpl.
    apply (slice_accept (process_of w) sock). simpl.
    intros c ([sock' p] & [= <- ->] & Hin)%list_elem_of_fmap. simpl. f_equal.
    by apply Hfree.
  - destruct (next_run_code _ _ _ Hnext) as (c & Hcode & Hc).
    assert (handlers (process_of w) !! i = Some (sock, Return p)) as Hi'.
    { simpl. by rewrite list_lookup_fmap, Hi. }
    eapply rtc_l; [exact (slice_enter (process_of w) i sock p c Hi' Hcode)|]. simpl.
    rewrite list_fmap_insert. simpl.
    rewrite <-(list_insert_insert_eq _ i (sock, Return p') (sock, c)).
    eapply run_slices; [|by eapply next_code_balanced|by rewrite Hc].
    apply list_lookup_insert_eq. rewrite length_fmap. by eapply lookup_lt_Some.
Qed.

(** Every execution in whole steps is an execution in slices. *)
Lemma reachable_interleaved w : reachable w -> interleaved (process_of w).
Proof.
  unfold reachable, interleaved. intros H.
  apply (rtc_ind_r (R := step) (fun w => rtc slice process_init (process_of w)) world_init);
    [apply rtc_refl| |exact H].
  clear w H. intros w1 w2 _ Hstep IH. etrans; [exact IH|]. by apply step_slices.
Qed.

(** ** Names stay unique when the connections are served one at a time *)

Lemma c_str_strncpy_name dst name name' s :
  strncpy dst name MAX_USERNAME = Some name' ->
  c_str name = Some s -> length s < MAX_USERNAME ->
  c_str name' = Some s.
Proof.
  unfold strncpy. case_decide; [|done]. intros Hcpy Hs Hlen.
  rewrite (strncpy_bytes_c_str _ _ _ Hs) in Hcpy. simpl in Hcpy.
  injection Hcpy as <-. rewrite take_ge by lia.
  replace (MAX_USERNAME - length s) with (S (MAX_USERNAME - length s - 1)) by lia.
  rewrite <-!app_assoc. apply c_str_app_nul. by eapply c_str_nul_free.
Qed.

Lemma register_client_active sock name st a st' out :
  register_client sock name st = Ok (a, st', out) ->
  exists slot name',
    strncpy (username slot) name MAX_USERNAME = Some name' /\
    active st' = active st ++ [mkClient sock name'].
Proof.
  unfold register_client, bind, get, liftR, put.
  destruct (clients st !! client_count st) as [slot|] eqn:Hslot; simpl; [|done].
  destruct (strncpy (username slot) name MAX_USERNAME) as [name'|] eqn:Hcpy; simpl; [|done].
  intros [= _ <- _]. exists slot, name'. split; [done|].
  apply lookup_lt_Some in Hslot as Hlt. unfold active. simpl.
  rewrite (take_S_r _ _ (mkClient sock name')) by (by rewrite list_lookup_insert_eq).
  by rewrite take_insert_ge.
Qed.

Lemma check_username_passed sock rx st name st' out :
  check_username sock rx st = Ok (Some name, st', out) ->
  name = recv_username rx /\ exists out', find_client name st = Ok (None, st, out').
Proof.
  unfold check_username. destruct rx as [|b rx].
  { intros (? & ? & ? & ? & _ & [=] & _)%bind_inv. }
  intros ([d|] & st1 & out1 & out2 & Hfind & Hrest & _)%bind_inv.
  - apply bind_inv in Hrest as (? & ? & ? & ? & _ & Hrest & _).
    apply bind_inv in Hrest as (? & ? & ? & ? & _ & Hrest & _).
    apply bind_inv in Hrest as (? & ? & ? & ? & _ & Hrest & _).
    apply bind_inv in Hrest as (? & ? & ? & ? & _ & [=] & _).
  - injection Hrest as <- _ _. split; [done|].
    rewrite (reads_find_client _ _ _ _ _ Hfind) in Hfind. eauto.
Qed.

Lemma announce_login_terminated sock name st a st' out :
  announce_login sock name st = Ok (a, st', out) -> is_Some (c_str name).
Proof.
  unfold announce_login. intros (s & ? & ? & ? & Hread & _)%bind_inv.
  unfold read_str, liftR in Hread. by destruct (c_str name).
Qed.

(** The shifting loop moves [n] entries one place down, from [j + 1] on. *)
Lemma shift_left_closed cs j n cs' :
  shift_left cs j n = Ok cs' ->
  cs' = take j cs ++ take n (drop (S j) cs) ++ drop (j + n) cs.
Proof.
  revert cs j. induction n as [|n IH]; intros cs j; simpl.
  - intros [= <-]. by rewrite Nat.add_0_r, take_drop.
  - destruct (cs !! S j) as [c|] eqn:Hc; simpl; [|done].
    intros ->%IH. apply lookup_lt_Some in Hc as Hlt.
    rewrite (take_S_r _ _ c) by (rewrite list_lookup_insert_eq; [done|lia]).
    rewrite take_insert_ge by lia.
    rewrite !drop_insert_lt by lia.
    rewrite (drop_S cs c (S j)) by done. simpl.
    rewrite <-app_assoc. simpl. by replace (j + S n) with (S (j + n)) by lia.
Qed.

Lemma remove_client_active sock name st name' st' out :
  client_count st <= length (clients st) ->
  remove_client sock name st = Ok (name', st', out) ->
  st' = st \/
  (exists i, i < length (active st) /\ active st' = delete i (active st) /\
             whiteboard st' = whiteboard st).
Proof.
  intros Hcount. unfold remove_client. rewrite (bind_pure _ _ st st) by done.
  destruct (list_find _ (active st)) as [[i c]|] eqn:Hfind; [|intros [= _ <- _]; by left].
  apply list_find_Some in Hfind as (Hi%lookup_lt_Some & _).
  intros (s & st1 & ? & ? & ->%reads_read_str & Hrun & _)%bind_inv.
  apply bind_inv in Hrun as (? & st2 & ? & ? & ->%reads_write_str & Hrun & _).
  apply bind_inv in Hrun as (cs & st3 & ? & ? & Hshift & Hrun & _).
  unfold liftR in Hshift.
  destruct (shift_left (clients st) i (client_count st - 1 - i)) as [cs'|] eqn:Hcs; [|done].
  injection Hshift as -> -> _. apply shift_left_closed in Hcs as ->.
  cbv [bind put ret] in Hrun. injection Hrun as _ <- _.
  right. exists i. split; [done|]. split; [|done].
  unfold active in *. rewrite length_take in Hi. simpl.
  rewrite delete_take_drop, take_take, app_assoc.
  rewrite take_app_length'.
  - rewrite Nat.min_l by lia. f_equal.
    rewrite take_drop_commute. do 2 f_equal. lia.
  - rewrite length_app, !length_take, length_drop. lia.
Qed.

Lemma unique_names_log_stable : log_stable unique_names.
Proof. by intros st message wb Hst _. Qed.

Lemma serial_invariant_log_stable : log_stable serial_invariant.
Proof.
  intros st message wb [Hinv Huniq] Hstore. split.
  - by eapply invariant_log_stable.
  - by eapply unique_names_log_stable.
Qed.

Lemma serial_invariant_remove_client sock name :
  keeps serial_invariant (remove_client sock name).
Proof.
  intros st name' st' out [Hinv Huniq] Hrem.
  split; [by eapply invariant_remove_client|].
  destruct Hinv as (Hlen & Hcount & _).
  assert (client_count st <= length (clients st)) as Hle by lia.
  destruct (remove_client_active _ _ _ _ _ _ Hle Hrem) as [->|(i & Hi & Hact & _)];
    [done|].
  unfold unique_names. rewrite Hact, list_fmap_delete.
  exact (sublist_NoDup _ _ Huniq (sublist_delete _ _)).
Qed.

(** A handshake run as a whole: the name it registers is not in the registry. *)
Lemma serial_invariant_handshake sock rx :
  keeps serial_invariant (handshake sock rx).
Proof.
  intros st c st' out [Hinv Huniq]. unfold handshake.
  intros ([name|] & st1 & ? & ? & Hcheck & Hrest & _)%bind_inv;
    pose proof (reads_check_username _ _ _ _ _ _ Hcheck) as ->;
    [|by injection Hrest as _ <- _].
  apply bind_inv in Hrest as ([] & st2 & ? & ? & Hreg & Hrest & _).
  apply bind_inv in Hrest as ([] & st3 & ? & ? & Hann & [= _ <- _] & _).
  assert (invariant st2) as Hinv2 by (by eapply invariant_register_client).
  cut (unique_names st2).
  { intros Huniq2. split.
    - by eapply (keeps_announce_login _ invariant_log_stable).
    - by eapply (keeps_announce_login _ unique_names_log_stable). }
  destruct (announce_login_terminated _ _ _ _ _ _ Hann) as [s Hs].
  destruct (check_username_passed _ _ _ _ _ _ Hcheck) as [-> [out' Hfind]].
  assert (length s < MAX_USERNAME) as Hlen.
  { rewrite <-(length_recv_username rx). by apply c_str_length. }
  destruct Hinv as (_ & _ & Hsz & _).
  rewrite (find_client_Ok _ _ _ Hsz Hs Hlen) in Hfind.
  destruct (register_client_active _ _ _ _ _ _ Hreg) as (slot & name' & Hcpy & Hact).
  unfold unique_names. rewrite Hact, fmap_app. apply NoDup_app.
  split; [done|]. split; [|apply NoDup_singleton].
  intros o (d & -> & Hd)%list_elem_of_fmap Heq%list_elem_of_singleton. simpl in Heq.
  rewrite (c_str_strncpy_name _ _ _ _ Hcpy Hs Hlen) in Heq.
  unfold session_named in Hfind.
  destruct (list_find _ (active st)) as [[? ?]|] eqn:Hnone; [done|].
  apply list_find_None in Hnone. rewrite Forall_forall in Hnone. by eapply Hnone.
Qed.

(** X2: served one at a time, the connections never register a name twice and
    never register more than [MAX_CLIENTS] sessions without a fault. *)
Theorem serial_names_unique st : serial st -> invariant st /\ unique_names st.
Proof.
  induction 1 as [|st sock rx c st' out _ IH Hrun|st sock name rx junk c st' out _ IH Hrun].
  - split; [apply invariant_started|]. apply NoDup_nil_2.
  - by eapply serial_invariant_handshake.
  - exact (keeps_handle_recv _ serial_invariant_log_stable _ _ _ _
             (serial_invariant_remove_client _ _) _ _ _ _ IH Hrun).
Qed.

Lemma serial_names_unique_witness :
  serial alice_only /\ invariant alice_only /\ unique_names alice_only.
Proof.
  assert (serial alice_only) as H.
  { unfold alice_only.
    destruct (handshake 4 (lit "alice") server_started) as [[[c st'] out]|f] eqn:Hrun.
    - exact (serial_handshake _ _ _ _ _ _ serial_start Hrun).
    - vm_compute in Hrun. discriminate. }
  exact (conj H (serial_names_unique alice_only H)).
Defined.

(** ** C1 *)

(** C1: ten connections register one after the other and fill the registry.
    For an eleventh, with a new name, the duplicate check passes without any
    reply, and the registration stores into [clients[MAX_CLIENTS]], outside the
    array: there is no check of [client_count] against [MAX_CLIENTS], no error
    is sent and the socket is not closed. *)
Theorem eleventh_registration_overruns_array :
  (exists out, handshake_each ten_connections server_started = Ok (tt, full_house, out)) /\
  client_count full_house = MAX_CLIENTS /\
  check_username 14 (lit "k") full_house
    = Ok (Some (recv_username (lit "k")), full_house, []) /\
  register_client 14 (recv_username (lit "k")) full_house = Fault OutOfBounds /\
  handshake 14 (lit "k") full_house = Fault OutOfBounds.
Proof.
  split; [eexists; vm_compute; reflexivity|].
  repeat split; vm_compute; reflexivity.
Qed.

(** ** C2 *)

(** C2: two connections send the handshake frame "alice".  Scheduled so that
    both duplicate checks run before either registration, both threads pass the
    check and both register: the registry then holds two active sessions named
    "alice", on sockets 4 and 5. *)
Theorem same_name_registered_twice :
  reachable {| server := two_alices;
               threads := [(4%Z, AtAnnounce alice20); (5%Z, AtAnnounce alice20)];
               trace := trace world_init |} /\
  active two_alices = [mkClient 4 alice20; mkClient 5 alice20] /\
  c_str alice20 = Some (lit "alice").
Proof.
  split; [|done]. unfold reachable.
  eapply rtc_l. { apply (step_accept _ 4%Z). intros p Hp. inversion Hp. }
  eapply rtc_l.
  { apply (step_accept _ 5%Z). intros p Hp%list_elem_of_singleton. discriminate. }
  eapply rtc_l.
  { eapply (step_thread _ 0 4%Z);
      [reflexivity|apply (next_check _ (lit "alice"))|reflexivity]. }
  eapply rtc_l.
  { eapply (step_thread _ 1 5%Z);
      [reflexivity|apply (next_check _ (lit "alice"))|reflexivity]. }
  eapply rtc_l.
  { eapply (step_thread _ 0 4%Z); [reflexivity|apply next_register|reflexivity]. }
  eapply rtc_l.
  { eapply (step_thread _ 1 5%Z); [reflexivity|apply next_register|reflexivity]. }
  apply rtc_refl.
Qed.

(** ** C8 *)

(** C8: a handshake frame of [MAX_USERNAME] bytes without a terminator fills
    the local [username] array; on the empty registry the check passes, and
    [strncpy(..., MAX_USERNAME)] copies the twenty bytes into the registry with
    no terminator after them.  The next use of the name as a string, the
    ["%s"] of the login entry, reads past the array. *)
Theorem full_length_username_unterminated :
  recv_username twenty_a = twenty_a /\
  check_username 4 twenty_a server_started = Ok (Some twenty_a, server_started, []) /\
  (exists st, register_client 4 twenty_a server_started = Ok (tt, st, []) /\
              active st = [mkClient 4 twenty_a]) /\
  c_str twenty_a = None /\
  handshake 4 twenty_a server_started = Fault BufferOverrun.
Proof.
  split; [reflexivity|]. split; [reflexivity|].
  split; [eexists; split; reflexivity|]. split; [reflexivity|]. vm_compute. reflexivity.
Qed.

(** * The handshake, the disconnect path and the client *)

(** A hypothesis on given data, settled by evaluation. *)
Ltac evaluated :=
  first
    [ by (vm_compute; reflexivity)
    | by (vm_compute; discriminate)
    | by (unfold nul_free, unique_names; apply (bool_decide_unpack _); vm_compute; exact I) ].

(** ** Joining and leaving *)

Lemma notice_fields t s text :
  nul_free s -> nul_free text -> length s < MAX_USERNAME -> length text < MAX_MESSAGE ->
  message_sized (notice t s text) /\
  type (notice t s text) = t /\
  c_str (sender (notice t s text)) = Some s /\
  c_str (content (notice t s text)) = Some text.
Proof.
  intros Hs Htext Hls Hlt. split; [|split; [done|split; by apply c_str_app_nul]].
  unfold message_sized, notice. cbn [sender recipient content].
  rewrite !length_app, !length_cons, !length_drop, !length_zeros. lia.
Qed.

(** [broadcast_message] on a message with terminated sender and content. *)
Lemma broadcast_message_run st msg sender_socket s c :
  wb_ok (whiteboard st) -> message_sized msg ->
  c_str (sender msg) = Some s -> c_str (content msg) = Some c ->
  exists wb lines,
    broadcast_message msg sender_socket st
      = Ok (tt, with_whiteboard st wb,
            ((fun d => Send (socket d) msg)
               <$> filter (fun d => socket d <> sender_socket) (active st))
            ++ [Render (client_count st) lines]) /\
    wb_ok wb /\
    appended (whiteboard st) (log_entry MSG_TYPE_BROADCAST (s ++ lit ": " ++ c)) wb /\
    wb_render wb = Ok lines.
Proof.
  intros Hok (Hls & _ & Hlc) Hs Hc.
  pose proof (c_str_length _ _ Hs). pose proof (c_str_length _ _ Hc).
  destruct (format_whiteboard_msg_spec st MSG_TYPE_BROADCAST (s ++ lit ": " ++ c) Hok)
    as (wb & lines & Hrun & Hok' & Happ & Hrender).
  { repeat apply nul_free_app; try (by eapply c_str_nul_free). by repeat constructor. }
  { len. }
  exists wb, lines. split; [|done].
  unfold broadcast_message. rewrite (bind_pure _ _ st st) by done.
  rewrite bind_emit.
  rewrite (bind_pure _ _ _ _ (read_str_Ok _ _ _ Hs)).
  rewrite (bind_pure _ _ _ _ (read_str_Ok _ _ _ Hc)).
  by rewrite Hrun, broadcast_loop_filter.
Qed.

(** The log entry and the notice for a name [s], of [text] ("has joined the
    chat" or "has left the chat"), as [announce_login] and [disconnect] make
    them. *)
Lemma announce_run st ty t s text client_socket :
  wb_ok (whiteboard st) -> nul_free s -> length s < MAX_USERNAME ->
  nul_free (lit text) -> String.length text < 200 ->
  exists wb1 wb2 lines1 lines2,
    (format_whiteboard_msg ty (s ++ lit " " ++ lit text);;;
     sender' <- write_str (sender (zeroed_message t)) s;;
     content' <- write_str (content (zeroed_message t)) (lit text);;
     broadcast_message
       {| type := type (zeroed_message t); sender := sender';
          recipient := recipient (zeroed_message t); content := content' |}
       client_socket) st
    = Ok (tt, with_whiteboard st wb2,
          Render (client_count st) lines1
          :: ((fun d => Send (socket d) (notice t s (lit text)))
                <$> filter (fun d => socket d <> client_socket) (active st))
          ++ [Render (client_count st) lines2]) /\
    wb_ok wb1 /\ wb_ok wb2 /\
    appended (whiteboard st) (log_entry ty (s ++ lit " " ++ lit text)) wb1 /\
    appended wb1 (log_entry MSG_TYPE_BROADCAST (s ++ lit ": " ++ lit text)) wb2 /\
    wb_render wb1 = Ok lines1 /\ wb_render wb2 = Ok lines2.
Proof.
  intros Hok Hs Hls Htext Hlt.
  destruct (format_whiteboard_msg_spec st ty (s ++ lit " " ++ lit text) Hok)
    as (wb1 & lines1 & Hrun1 & Hok1 & Happ1 & Hrender1).
  { repeat apply nul_free_app; try done. by repeat constructor. }
  { len. }
  destruct (notice_fields t s (lit text)) as (Hsized & _ & Hsender & Hcontent);
    [done|done|done|rewrite length_lit; unfold MAX_MESSAGE; lia|].
  destruct (broadcast_message_run (with_whiteboard st wb1) (notice t s (lit text))
              client_socket s (lit text) Hok1 Hsized Hsender Hcontent)
    as (wb2 & lines2 & Hrun2 & Hok2 & Happ2 & Hrender2).
  exists wb1, wb2, lines1, lines2. split; [|done].
  unfold bind at 1. rewrite Hrun1.
  erewrite bind_pure
    by (apply write_str_Ok; cbn [zeroed_message sender]; rewrite length_zeros; done).
  erewrite bind_pure
    by (apply write_str_Ok; cbn [zeroed_message content];
        rewrite length_zeros, length_lit; unfold MAX_MESSAGE; lia).
  unfold notice in Hrun2. cbn [zeroed_message type sender recipient content].
  by rewrite Hrun2.
Qed.

Lemma strncpy_terminated dst src n s :
  length dst = n -> c_str src = Some s -> length s < n ->
  strncpy dst src n = Some (s ++ zeros (n - length s)).
Proof.
  intros Hdst Hs Hlen. unfold strncpy. rewrite decide_True by lia.
  rewrite (strncpy_bytes_c_str _ _ _ Hs). simpl.
  by rewrite take_ge, drop_ge, app_nil_r by lia.
Qed.

Lemma c_str_padded s : nul_free s -> length s < MAX_USERNAME -> c_str (padded s) = Some s.
Proof.
  intros Hs Hlen. unfold padded.
  replace (MAX_USERNAME - length s) with (S (MAX_USERNAME - length s - 1)) by lia.
  by apply c_str_app_nul.
Qed.

Lemma length_padded s : length s <= MAX_USERNAME -> length (padded s) = MAX_USERNAME.
Proof. intros. unfold padded. rewrite length_app, length_zeros. lia. Qed.

Lemma active_registered st sock name :
  client_count st < length (clients st) ->
  active (registered st sock name) = active st ++ [mkClient sock name].
Proof.
  intros Hlt. unfold active, registered. simpl.
  rewrite (take_S_r _ _ (mkClient sock name)) by (by rewrite list_lookup_insert_eq).
  by rewrite take_insert_ge.
Qed.

Lemma register_client_run st sock name s :
  invariant st -> client_count st < MAX_CLIENTS ->
  c_str name = Some s -> length s < MAX_USERNAME ->
  register_client sock name st = Ok (tt, registered st sock (padded s), []).
Proof.
  intros (Hlen & _ & Hsz & _) Hcount Hs Hls.
  destruct (lookup_lt_is_Some_2 (clients st) (client_count st)) as [slot Hslot]; [lia|].
  pose proof (Forall_lookup_1 _ _ _ _ Hsz Hslot) as Hslen. simpl in Hslen.
  unfold register_client, bind, get, liftR, put. rewrite Hslot. simpl.
  by rewrite (strncpy_terminated _ _ _ s Hslen Hs Hls).
Qed.

Lemma check_username_fresh st sock rx s :
  registry_sized st -> rx <> [] -> c_str (recv_username rx) = Some s ->
  session_named st s = None ->
  check_username sock rx st = Ok (Some (recv_username rx), st, []).
Proof.
  intros Hsz Hrx Hs Hnone.
  assert (length s < MAX_USERNAME) as Hlen.
  { rewrite <-(length_recv_username rx). by apply c_str_length. }
  unfold check_username. destruct rx as [|b rx]; [done|].
  rewrite (bind_pure _ _ _ _ (find_client_Ok _ _ _ Hsz Hs Hlen)).
  by rewrite Hnone.
Qed.

Lemma invariant_registered st sock s :
  invariant st -> client_count st < MAX_CLIENTS -> length s < MAX_USERNAME ->
  invariant (registered st sock (padded s)).
Proof.
  intros (Hlen & Hcount & Hsz & Hwb) Hlt Hls.
  split; simpl; [by rewrite length_insert|]. split; [lia|]. split; [|done].
  apply Forall_insert; [done|]. simpl. apply length_padded. lia.
Qed.

(** The handshake of a name that no active session bears, with room left. *)
Lemma handshake_fresh st sock rx s :
  invariant st -> client_count st < MAX_CLIENTS -> rx <> [] ->
  c_str (recv_username rx) = Some s -> session_named st s = None ->
  exists wb1 wb2 lines1 lines2,
    handshake sock rx st
      = Ok (Registered (recv_username rx),
            with_whiteboard (registered st sock (padded s)) wb2,
            Render (S (client_count st)) lines1
            :: ((fun d => Send (socket d) (notice MSG_LOGIN s (lit "has joined the chat")))
                  <$> filter (fun d => socket d <> sock) (active st))
            ++ [Render (S (client_count st)) lines2]) /\
    wb_ok wb1 /\ wb_ok wb2 /\
    appended (whiteboard st) (log_entry MSG_TYPE_LOGIN (s ++ lit " has joined the chat")) wb1 /\
    appended wb1 (log_entry MSG_TYPE_BROADCAST (s ++ lit ": has joined the chat")) wb2 /\
    wb_render wb1 = Ok lines1 /\ wb_render wb2 = Ok lines2.
Proof.
  intros Hinv Hcount Hrx Hs Hnone.
  assert (length s < MAX_USERNAME) as Hlen.
  { rewrite <-(length_recv_username rx). by apply c_str_length. }
  pose proof (c_str_nul_free _ _ Hs) as Hnf.
  pose proof (invariant_registered st sock s Hinv Hcount Hlen) as (Hlen1 & _ & _ & Hwb1).
  destruct (announce_run (registered st sock (padded s)) MSG_TYPE_LOGIN MSG_LOGIN s
              "has joined the chat" sock Hwb1 Hnf Hlen)
    as (wb1 & wb2 & lines1 & lines2 & Hrun & Hok1 & Hok2 & Happ1 & Happ2 & Hr1 & Hr2);
    [by repeat constructor|simpl; lia|].
  exists wb1, wb2, lines1, lines2. split; [|done].
  destruct Hinv as (Hl & Hc & Hsz & Hwb).
  unfold handshake.
  rewrite (bind_pure _ _ _ _ (check_username_fresh _ _ _ _ Hsz Hrx Hs Hnone)).
  unfold bind at 1.
  rewrite (register_client_run st sock _ s) by done.
  unfold bind at 1. unfold announce_login.
  rewrite (bind_pure _ _ _ _ (read_str_Ok _ _ _ Hs)).
  cbv zeta. cbn [client_count registered] in Hrun.
  change (lit " has joined the chat") with (lit " " ++ lit "has joined the chat").
  rewrite Hrun. cbn [ret app].
  rewrite active_registered by lia.
  rewrite filter_app, filter_cons_False, filter_nil, app_nil_r by (simpl; naive_solver).
  by rewrite app_nil_r.
Qed.

Lemma list_find_snoc {A} (P : A -> Prop) `{!forall x, Decision (P x)} (l : list A) x :
  snd <$> list_find P (l ++ [x]) =
    match snd <$> list_find P l with
    | Some y => Some y
    | None => if decide (P x) then Some x else None
    end.
Proof.
  destruct (list_find P l) as [[i y]|] eqn:Hl.
  - by rewrite (list_find_app_l _ _ _ _ _ Hl).
  - rewrite (list_find_app_r _ _ _ Hl). simpl. by case_decide.
Qed.

Lemma session_named_registered st sock s s' wb :
  client_count st < length (clients st) -> nul_free s -> length s < MAX_USERNAME ->
  session_named (with_whiteboard (registered st sock (padded s)) wb) s' =
    match session_named st s' with
    | Some d => Some d
    | None => if decide (s = s') then Some (mkClient sock (padded s)) else None
    end.
Proof.
  intros Hlt Hs Hlen. unfold session_named.
  change (active (with_whiteboard (registered st sock (padded s)) wb))
    with (active (registered st sock (padded s))).
  rewrite active_registered by done. rewrite list_find_snoc. simpl.
  rewrite c_str_padded by done.
  destruct (list_find _ (active st)) as [[? ?]|]; [done|]. simpl.
  repeat case_decide; naive_solver.
Qed.

(** The line of the newest entry is the last one the display prints. *)
Lemma last_line_appended wb entry wb' lines :
  wb_ok wb' -> appended wb entry wb' -> wb_render wb' = Ok lines -> entry <> [] ->
  last lines = Some entry.
Proof.
  intros Hok Happ Hrender Hne.
  destruct (wb_render_spec _ Hok) as (ss & Hss & Hr).
  rewrite Hrender in Hr. injection Hr as ->.
  unfold appended in Happ. rewrite Hss in Happ.
  apply fmap_app_inv in Happ as (ss1 & ss2 & _ & Hlast & ->).
  destruct ss2 as [|e [|? ?]]; try done. injection Hlast as ->.
  rewrite filter_app, filter_cons_True, filter_nil by done. apply last_snoc.
Qed.

Lemma log_entry_nonempty ty text : log_entry ty text <> [].
Proof. by destruct ty. Qed.

(** X3: the handshake of a name that no active session bears, with room left
    in the registry, appends the session to the registry under that name,
    sends the login notice to every other active session, and appends a LOGIN
    and a BROADCAST entry to the log; the sizes of the arrays are kept. *)
Theorem new_name_is_registered st sock rx s :
  invariant st -> client_count st < MAX_CLIENTS -> rx <> [] ->
  c_str (recv_username rx) = Some s -> session_named st s = None ->
  exists st' name' login lines1 lines2,
    handshake sock rx st
      = Ok (Registered (recv_username rx), st',
            Render (S (client_count st)) lines1
            :: ((fun d => Send (socket d) login)
                  <$> filter (fun d => socket d <> sock) (active st))
            ++ [Render (S (client_count st)) lines2]) /\
    invariant st' /\
    active st' = active st ++ [mkClient sock name'] /\
    c_str name' = Some s /\
    type login = MSG_LOGIN /\ c_str (sender login) = Some s /\
    c_str (content login) = Some (lit "has joined the chat") /\
    last lines1 = Some (log_entry MSG_TYPE_LOGIN (s ++ lit " has joined the chat")) /\
    last lines2 = Some (log_entry MSG_TYPE_BROADCAST (s ++ lit ": has joined the chat")).
Proof.
  intros Hinv Hcount Hrx Hs Hnone.
  assert (length s < MAX_USERNAME) as Hlen.
  { rewrite <-(length_recv_username rx). by apply c_str_length. }
  pose proof (c_str_nul_free _ _ Hs) as Hnf.
  destruct (handshake_fresh st sock rx s Hinv Hcount Hrx Hs Hnone)
    as (wb1 & wb2 & lines1 & lines2 & Hrun & Hok1 & Hok2 & Happ1 & Happ2 & Hr1 & Hr2).
  destruct (notice_fields MSG_LOGIN s (lit "has joined the chat"))
    as (_ & Hty & Hsender & Hcontent);
    [done|by repeat constructor|done|rewrite length_lit; unfold MAX_MESSAGE; simpl; lia|].
  pose proof (invariant_registered st sock s Hinv Hcount Hlen) as (Hl1 & Hc1 & Hsz1 & Hwb1).
  eexists _, (padded s), _, lines1, lines2. split; [exact Hrun|].
  split; [exact (conj Hl1 (conj Hc1 (conj Hsz1 Hok2)))|].
  split; [apply active_registered; destruct Hinv as (-> & _); done|].
  split; [by apply c_str_padded|].
  split; [done|]. split; [done|]. split; [done|].
  split.
  - exact (last_line_appended _ _ _ _ Hok1 Happ1 Hr1 (log_entry_nonempty _ _)).
  - exact (last_line_appended _ _ _ _ Hok2 Happ2 Hr2 (log_entry_nonempty _ _)).
Qed.

Lemma new_name_is_registered_witness :
  (invariant alice_only /\ client_count alice_only < MAX_CLIENTS /\ lit "bob" <> [] /\
   c_str (recv_username (lit "bob")) = Some (lit "bob") /\
   session_named alice_only (lit "bob") = None) /\
  exists st' name' login lines1 lines2,
    handshake 5 (lit "bob") alice_only
      = Ok (Registered (recv_username (lit "bob")), st',
            Render (S (client_count alice_only)) lines1
            :: ((fun d => Send (socket d) login)
                  <$> filter (fun d => socket d <> 5%Z) (active alice_only))
            ++ [Render (S (client_count alice_only)) lines2]) /\
    invariant st' /\
    active st' = active alice_only ++ [mkClient 5 name'] /\
    c_str name' = Some (lit "bob") /\
    type login = MSG_LOGIN /\ c_str (sender login) = Some (lit "bob") /\
    c_str (content login) = Some (lit "has joined the chat") /\
    last lines1 = Some (log_entry MSG_TYPE_LOGIN (lit "bob" ++ lit " has joined the chat")) /\
    last lines2 = Some (log_entry MSG_TYPE_BROADCAST (lit "bob" ++ lit ": has joined the chat")).
Proof.
  assert (invariant alice_only) as H1 by evaluated.
  assert (client_count alice_only < MAX_CLIENTS) as H2 by evaluated.
  assert (lit "bob" <> []) as H3 by evaluated.
  assert (c_str (recv_username (lit "bob")) = Some (lit "bob")) as H4 by evaluated.
  assert (session_named alice_only (lit "bob") = None) as H5 by evaluated.
  exact (conj (conj H1 (conj H2 (conj H3 (conj H4 H5))))
              (new_name_is_registered alice_only 5 (lit "bob") (lit "bob") H1 H2 H3 H4 H5)).
Defined.

(** X4: after such a handshake [find_client] finds the new name, on the new
    socket; for every other name it answers as it did before. *)
Theorem registered_name_is_found st sock rx s :
  invariant st -> client_count st < MAX_CLIENTS -> rx <> [] ->
  c_str (recv_username rx) = Some s -> session_named st s = None ->
  exists st' out,
    handshake sock rx st = Ok (Registered (recv_username rx), st', out) /\
    (forall q, c_str q = Some s -> find_client q st' = Ok (Some sock, st', [])) /\
    (forall q s', c_str q = Some s' -> length s' < MAX_USERNAME -> s' <> s ->
       exists r, find_client q st = Ok (r, st, []) /\ find_client q st' = Ok (r, st', [])).
Proof.
  intros Hinv Hcount Hrx Hs Hnone.
  assert (length s < MAX_USERNAME) as Hlen.
  { rewrite <-(length_recv_username rx). by apply c_str_length. }
  pose proof (c_str_nul_free _ _ Hs) as Hnf.
  destruct (handshake_fresh st sock rx s Hinv Hcount Hrx Hs Hnone)
    as (wb1 & wb2 & lines1 & lines2 & Hrun & _).
  pose proof (invariant_registered st sock s Hinv Hcount Hlen) as (_ & _ & Hsz1 & _).
  destruct Hinv as (Hl & _ & Hsz & _).
  assert (client_count st < length (clients st)) as Hlt by lia.
  eexists _, _. split; [exact Hrun|]. split.
  - intros q Hq. rewrite (find_client_Ok _ _ s) by done.
    rewrite session_named_registered, Hnone by done. by rewrite decide_True.
  - intros q s' Hq Hlen' Hne. exists (socket <$> session_named st s').
    split; [by apply find_client_Ok|].
    rewrite (find_client_Ok _ _ s') by done.
    rewrite session_named_registered by done.
    destruct (session_named st s'); [done|]. by rewrite decide_False.
Qed.

Lemma registered_name_is_found_witness :
  (invariant alice_only /\ client_count alice_only < MAX_CLIENTS /\ lit "bob" <> [] /\
   c_str (recv_username (lit "bob")) = Some (lit "bob") /\
   session_named alice_only (lit "bob") = None) /\
  exists st' out,
    handshake 5 (lit "bob") alice_only = Ok (Registered (recv_username (lit "bob")), st', out) /\
    (forall q, c_str q = Some (lit "bob") -> find_client q st' = Ok (Some 5%Z, st', [])) /\
    (forall q s', c_str q = Some s' -> length s' < MAX_USERNAME -> s' <> lit "bob" ->
       exists r, find_client q alice_only = Ok (r, alice_only, []) /\
                 find_client q st' = Ok (r, st', [])).
Proof.
  assert (invariant alice_only) as H1 by evaluated.
  assert (client_count alice_only < MAX_CLIENTS) as H2 by evaluated.
  assert (lit "bob" <> []) as H3 by evaluated.
  assert (c_str (recv_username (lit "bob")) = Some (lit "bob")) as H4 by evaluated.
  assert (session_named alice_only (lit "bob") = None) as H5 by evaluated.
  exact (conj (conj H1 (conj H2 (conj H3 (conj H4 H5))))
              (registered_name_is_found alice_only 5 (lit "bob") (lit "bob") H1 H2 H3 H4 H5)).
Defined.

(** X5: with [MAX_CLIENTS] sessions registered, a handshake that passes the
    duplicate check stores into [clients[MAX_CLIENTS]], past the array:
    [handle_client] does not compare [client_count] with [MAX_CLIENTS]. *)
Theorem handshake_on_full_registry_overruns st sock rx name st1 out1 :
  length (clients st) = MAX_CLIENTS -> client_count st = MAX_CLIENTS ->
  check_username sock rx st = Ok (Some name, st1, out1) ->
  handshake sock rx st = Fault OutOfBounds.
Proof.
  intros Hlen Hcount Hcheck.
  pose proof (reads_check_username _ _ _ _ _ _ Hcheck) as ->.
  unfold handshake, bind at 1. rewrite Hcheck.
  unfold bind at 1, register_client, bind at 1, get, bind at 1, liftR.
  rewrite lookup_ge_None_2 by lia. done.
Qed.

Lemma handshake_on_full_registry_overruns_witness :
  (length (clients full_house) = MAX_CLIENTS /\ client_count full_house = MAX_CLIENTS /\
   check_username 14 (lit "k") full_house
     = Ok (Some (recv_username (lit "k")), full_house, [])) /\
  handshake 14 (lit "k") full_house = Fault OutOfBounds.
Proof.
  assert (length (clients full_house) = MAX_CLIENTS) as H1 by evaluated.
  assert (client_count full_house = MAX_CLIENTS) as H2 by evaluated.
  assert (check_username 14 (lit "k") full_house
          = Ok (Some (recv_username (lit "k")), full_house, [])) as H3 by evaluated.
  exact (conj (conj H1 (conj H2 H3))
              (handshake_on_full_registry_overruns full_house 14 (lit "k") _ _ _ H1 H2 H3)).
Defined.

Lemma shift_left_Ok cs j n :
  j + n < length cs ->
  shift_left cs j n = Ok (take j cs ++ take n (drop (S j) cs) ++ drop (j + n) cs).
Proof.
  intros Hlt.
  assert (exists cs', shift_left cs j n = Ok cs') as [cs' Hcs].
  { revert cs j Hlt. induction n as [|n IH]; intros cs j Hlt; simpl; [by eexists|].
    destruct (lookup_lt_is_Some_2 cs (S j)) as [c ->]; [lia|]. simpl.
    apply IH. rewrite length_insert. lia. }
  rewrite Hcs. f_equal. by apply shift_left_closed.
Qed.

Lemma active_unregistered st i :
  client_count st <= length (clients st) -> i < client_count st ->
  active (unregistered st i) = delete i (active st).
Proof.
  intros Hle Hi. unfold active, unregistered. simpl.
  rewrite delete_take_drop, take_take, app_assoc.
  rewrite take_app_length'.
  - rewrite Nat.min_l by lia. f_equal.
    rewrite take_drop_commute. do 2 f_equal. lia.
  - rewrite length_app, !length_take, length_drop. lia.
Qed.

Lemma remove_client_run st sock name i c s :
  client_count st <= length (clients st) ->
  list_find (fun d => socket d = sock) (active st) = Some (i, c) ->
  c_str (username c) = Some s -> length s < length name ->
  remove_client sock name st
    = Ok (s ++ nul :: drop (S (length s)) name, unregistered st i, []).
Proof.
  intros Hle Hfind Hs Hlen.
  apply list_find_Some in Hfind as Hi. destruct Hi as (Hi%lookup_lt_Some & _).
  unfold active in Hi. rewrite length_take in Hi.
  unfold remove_client. rewrite (bind_pure _ _ st st) by done. rewrite Hfind.
  rewrite (bind_pure _ _ _ _ (read_str_Ok _ _ _ Hs)).
  rewrite (bind_pure _ _ _ _ (write_str_Ok _ _ _ Hlen)).
  unfold bind, liftR, put, ret. by rewrite shift_left_Ok by lia.
Qed.

Lemma remove_client_absent st sock name :
  list_find (fun d => socket d = sock) (active st) = None ->
  remove_client sock name st = Ok (name, st, []).
Proof.
  intros Hfind. unfold remove_client. rewrite (bind_pure _ _ st st) by done.
  by rewrite Hfind.
Qed.

(** [disconnect] after its critical section. *)
Lemma disconnect_run st sock name name' st1 s :
  remove_client sock name st = Ok (name', st1, []) ->
  wb_ok (whiteboard st1) -> c_str name' = Some s -> length s < MAX_USERNAME ->
  exists wb1 wb2 lines1 lines2,
    disconnect sock name st
      = Ok (tt, with_whiteboard st1 wb2,
            Render (client_count st1) lines1
            :: ((fun d => Send (socket d) (notice MSG_LOGOUT s (lit "has left the chat")))
                  <$> filter (fun d => socket d <> sock) (active st1))
            ++ [Render (client_count st1) lines2; Close sock]) /\
    wb_ok wb1 /\ wb_ok wb2 /\
    appended (whiteboard st1) (log_entry MSG_TYPE_LOGOUT (s ++ lit " has left the chat")) wb1 /\
    appended wb1 (log_entry MSG_TYPE_BROADCAST (s ++ lit ": has left the chat")) wb2 /\
    wb_render wb1 = Ok lines1 /\ wb_render wb2 = Ok lines2.
Proof.
  intros Hrem Hwb Hs Hlen. pose proof (c_str_nul_free _ _ Hs) as Hnf.
  destruct (announce_run st1 MSG_TYPE_LOGOUT MSG_LOGOUT s "has left the chat" sock Hwb Hnf Hlen)
    as (wb1 & wb2 & lines1 & lines2 & Hrun & Hok1 & Hok2 & Happ1 & Happ2 & Hr1 & Hr2);
    [by repeat constructor|simpl; lia|].
  exists wb1, wb2, lines1, lines2. split; [|done].
  apply bind_inv in Hrun
    as ([] & st2 & out1 & out2 & Hfmt & Hrest & Hout).
  apply bind_inv in Hrest as (sender' & st3 & o3 & out3 & Hw1 & Hrest & ->).
  pose proof (reads_write_str _ _ _ _ _ _ Hw1) as ->.
  apply bind_inv in Hrest as (content' & st4 & o4 & out4 & Hw2 & Hbc & ->).
  pose proof (reads_write_str _ _ _ _ _ _ Hw2) as ->.
  unfold disconnect, bind at 1. rewrite Hrem.
  rewrite (bind_pure _ _ _ _ (read_str_Ok _ _ _ Hs)).
  unfold bind at 1.
  change (lit " has left the chat") with (lit " " ++ lit "has left the chat").
  rewrite Hfmt. cbv zeta.
  unfold bind at 1. rewrite Hw1. unfold bind at 1. rewrite Hw2.
  unfold bind at 1. rewrite Hbc. cbn [emit].
  f_equal. f_equal. rewrite !app_nil_l.
  transitivity ((out1 ++ o3 ++ o4 ++ out4) ++ [Close sock]).
  - by rewrite <-!app_assoc.
  - rewrite <-Hout. simpl. by rewrite <-app_assoc.
Qed.

Lemma invariant_unregistered st i :
  invariant st -> i < client_count st -> invariant (unregistered st i).
Proof.
  intros (Hlen & Hcount & Hsz & Hwb) Hi. unfold unregistered.
  split; simpl.
  { rewrite !length_app, !length_take, !length_drop. lia. }
  split; [lia|]. split; [|done].
  unfold registry_sized. simpl.
  repeat apply Forall_app_2; auto using Forall_take, Forall_drop.
Qed.

Lemma filter_all {A} (P : A -> Prop) `{!forall x, Decision (P x)} (l : list A) :
  Forall P l -> filter P l = l.
Proof.
  induction 1 as [|x l Hx _ IH]; [done|]. by rewrite filter_cons_True, IH.
Qed.

(** X6: when [recv] returns 0 or an error for a registered socket, its entry is
    taken out of the registry and the later entries move down in order; the
    logout notice, under the name the registry held, goes to the sessions that
    remain; the log gains a LOGOUT and a BROADCAST entry; the socket is closed
    last. *)
Theorem session_leaves st sock name junk i c s :
  invariant st -> length name = MAX_USERNAME ->
  list_find (fun d => socket d = sock) (active st) = Some (i, c) ->
  c_str (username c) = Some s ->
  exists st' logout lines1 lines2,
    handle_recv sock name None junk st
      = Ok (Closed, st',
            Render (client_count st - 1) lines1
            :: ((fun d => Send (socket d) logout)
                  <$> filter (fun d => socket d <> sock) (delete i (active st)))
            ++ [Render (client_count st - 1) lines2; Close sock]) /\
    invariant st' /\
    active st' = delete i (active st) /\
    type logout = MSG_LOGOUT /\ c_str (sender logout) = Some s /\
    c_str (content logout) = Some (lit "has left the chat") /\
    last lines1 = Some (log_entry MSG_TYPE_LOGOUT (s ++ lit " has left the chat")) /\
    last lines2 = Some (log_entry MSG_TYPE_BROADCAST (s ++ lit ": has left the chat")).
Proof.
  intros Hinv Hname Hfind Hs.
  apply list_find_Some in Hfind as Hi. destruct Hi as (Hic & _).
  pose proof (lookup_lt_Some _ _ _ Hic) as Hi. unfold active in Hi, Hic.
  rewrite length_take in Hi. apply lookup_take_Some in Hic as [Hic _].
  destruct Hinv as (Hlen & Hcount & Hsz & Hwb).
  pose proof (Forall_lookup_1 _ _ _ _ Hsz Hic) as Hclen. simpl in Hclen.
  pose proof (c_str_length _ _ Hs) as Hslen. pose proof (c_str_nul_free _ _ Hs) as Hnf.
  assert (client_count st <= length (clients st)) as Hle by lia.
  pose proof (remove_client_run st sock name i c s Hle Hfind Hs ltac:(lia)) as Hrem.
  pose proof (invariant_unregistered st i (conj Hlen (conj Hcount (conj Hsz Hwb))) ltac:(lia))
    as (Hl1 & Hc1 & Hsz1 & Hwb1).
  destruct (disconnect_run st sock name _ _ s Hrem Hwb1)
    as (wb1 & wb2 & lines1 & lines2 & Hrun & Hok1 & Hok2 & Happ1 & Happ2 & Hr1 & Hr2);
    [apply c_str_app_nul; done|lia|].
  destruct (notice_fields MSG_LOGOUT s (lit "has left the chat"))
    as (_ & Hty & Hsender & Hcontent);
    [done|by repeat constructor|lia|rewrite length_lit; unfold MAX_MESSAGE; simpl; lia|].
  eexists _, _, lines1, lines2. split.
  { unfold handle_recv, bind. rewrite Hrun. cbn [ret].
    rewrite app_nil_r, active_unregistered by lia. reflexivity. }
  split; [exact (conj Hl1 (conj Hc1 (conj Hsz1 Hok2)))|].
  split; [apply active_unregistered; lia|].
  split; [done|]. split; [done|]. split; [done|]. split.
  - exact (last_line_appended _ _ _ _ Hok1 Happ1 Hr1 (log_entry_nonempty _ _)).
  - exact (last_line_appended _ _ _ _ Hok2 Happ2 Hr2 (log_entry_nonempty _ _)).
Qed.

Lemma session_leaves_witness :
  (invariant alice_bob /\ length alice20 = MAX_USERNAME /\
   list_find (fun d => socket d = 4%Z) (active alice_bob) = Some (0, mkClient 4 alice20) /\
   c_str (username (mkClient 4 alice20)) = Some (lit "alice")) /\
  exists st' logout lines1 lines2,
    handle_recv 4 alice20 None (zeroed_message 0) alice_bob
      = Ok (Closed, st',
            Render (client_count alice_bob - 1) lines1
            :: ((fun d => Send (socket d) logout)
                  <$> filter (fun d => socket d <> 4%Z) (delete 0 (active alice_bob)))
            ++ [Render (client_count alice_bob - 1) lines2; Close 4]) /\
    invariant st' /\
    active st' = delete 0 (active alice_bob) /\
    type logout = MSG_LOGOUT /\ c_str (sender logout) = Some (lit "alice") /\
    c_str (content logout) = Some (lit "has left the chat") /\
    last lines1 = Some (log_entry MSG_TYPE_LOGOUT (lit "alice" ++ lit " has left the chat")) /\
    last lines2
      = Some (log_entry MSG_TYPE_BROADCAST (lit "alice" ++ lit ": has left the chat")).
Proof.
  assert (invariant alice_bob) as H1 by evaluated.
  assert (length alice20 = MAX_USERNAME) as H2 by evaluated.
  assert (list_find (fun d => socket d = 4%Z) (active alice_bob)
          = Some (0, mkClient 4 alice20)) as H3 by evaluated.
  assert (c_str (username (mkClient 4 alice20)) = Some (lit "alice")) as H4 by evaluated.
  exact (conj (conj H1 (conj H2 (conj H3 H4)))
              (session_leaves alice_bob 4 alice20 (zeroed_message 0) 0 (mkClient 4 alice20)
                 (lit "alice") H1 H2 H3 H4)).
Defined.

(** X7: when the socket is not in the registry, the disconnect path removes
    nothing: the registry stays as it is, the name of the logout notice is the
    one in the local [username] array, the notice goes to every active session,
    and the socket is closed. *)
Theorem absent_socket_leaves st sock name junk s :
  invariant st -> length name = MAX_USERNAME ->
  list_find (fun d => socket d = sock) (active st) = None ->
  c_str name = Some s ->
  exists wb logout lines1 lines2,
    handle_recv sock name None junk st
      = Ok (Closed, with_whiteboard st wb,
            Render (client_count st) lines1
            :: ((fun d => Send (socket d) logout) <$> active st)
            ++ [Render (client_count st) lines2; Close sock]) /\
    type logout = MSG_LOGOUT /\ c_str (sender logout) = Some s /\
    last lines1 = Some (log_entry MSG_TYPE_LOGOUT (s ++ lit " has left the chat")).
Proof.
  intros (Hlen & Hcount & Hsz & Hwb) Hname Hfind Hs.
  pose proof (c_str_length _ _ Hs) as Hslen. pose proof (c_str_nul_free _ _ Hs) as Hnf.
  pose proof (remove_client_absent st sock name Hfind) as Hrem.
  destruct (disconnect_run st sock name _ _ s Hrem Hwb Hs)
    as (wb1 & wb2 & lines1 & lines2 & Hrun & Hok1 & Hok2 & Happ1 & Happ2 & Hr1 & Hr2);
    [lia|].
  destruct (notice_fields MSG_LOGOUT s (lit "has left the chat"))
    as (_ & Hty & Hsender & Hcontent);
    [done|by repeat constructor|lia|rewrite length_lit; unfold MAX_MESSAGE; simpl; lia|].
  eexists wb2, _, lines1, lines2. split.
  { unfold handle_recv, bind. rewrite Hrun. cbn [ret].
    rewrite app_nil_r, filter_all; [reflexivity|].
    apply list_find_None in Hfind. eapply Forall_impl; [exact Hfind|]. done. }
  split; [done|]. split; [done|].
  exact (last_line_appended _ _ _ _ Hok1 Happ1 Hr1 (log_entry_nonempty _ _)).
Qed.

Lemma absent_socket_leaves_witness :
  (invariant alice_only /\ length bob20 = MAX_USERNAME /\
   list_find (fun d => socket d = 9%Z) (active alice_only) = None /\
   c_str bob20 = Some (lit "bob")) /\
  exists wb logout lines1 lines2,
    handle_recv 9 bob20 None (zeroed_message 0) alice_only
      = Ok (Closed, with_whiteboard alice_only wb,
            Render (client_count alice_only) lines1
            :: ((fun d => Send (socket d) logout) <$> active alice_only)
            ++ [Render (client_count alice_only) lines2; Close 9]) /\
    type logout = MSG_LOGOUT /\ c_str (sender logout) = Some (lit "bob") /\
    last lines1 = Some (log_entry MSG_TYPE_LOGOUT (lit "bob" ++ lit " has left the chat")).
Proof.
  assert (invariant alice_only) as H1 by evaluated.
  assert (length bob20 = MAX_USERNAME) as H2 by evaluated.
  assert (list_find (fun d => socket d = 9%Z) (active alice_only) = None) as H3 by evaluated.
  assert (c_str bob20 = Some (lit "bob")) as H4 by evaluated.
  exact (conj (conj H1 (conj H2 (conj H3 H4)))
              (absent_socket_leaves alice_only 9 bob20 (zeroed_message 0) (lit "bob")
                 H1 H2 H3 H4)).
Defined.

Lemma unique_names_delete st i c s :
  unique_names st -> active st !! i = Some c -> c_str (username c) = Some s ->
  Forall (fun d => c_str (username d) <> Some s) (delete i (active st)).
Proof.
  unfold unique_names. intros Huniq Hi Hs.
  rewrite <-(take_drop_middle _ _ _ Hi), fmap_app, fmap_cons, Hs in Huniq.
  apply NoDup_app in Huniq as (_ & Hleft & [Hright _]%NoDup_cons).
  rewrite delete_take_drop. apply Forall_app. split; apply Forall_forall; intros d Hd Heq.
  - apply (Hleft (Some s)); [|left].
    apply list_elem_of_fmap. exists d. by rewrite Heq.
  - apply Hright. apply list_elem_of_fmap. exists d. by rewrite Heq.
Qed.

(** X8: if the names are unique, then after a session has left [find_client]
    no longer finds its name (the copy of the last entry that the shift leaves
    past [client_count] is not looked at), and the names are still unique. *)
Theorem left_name_is_not_found st sock name junk i c s :
  invariant st -> unique_names st -> length name = MAX_USERNAME ->
  list_find (fun d => socket d = sock) (active st) = Some (i, c) ->
  c_str (username c) = Some s ->
  exists st' out,
    handle_recv sock name None junk st = Ok (Closed, st', out) /\
    unique_names st' /\
    forall q, c_str q = Some s -> find_client q st' = Ok (None, st', []).
Proof.
  intros Hinv Huniq Hname Hfind Hs.
  apply list_find_Some in Hfind as Hi. destruct Hi as (Hic & _).
  pose proof (lookup_lt_Some _ _ _ Hic) as Hi. unfold active in Hi.
  rewrite length_take in Hi.
  pose proof (unique_names_delete st i c s Huniq Hic Hs) as Hgone.
  apply lookup_take_Some in Hic as [Hic _].
  pose proof Hinv as (Hlen & Hcount & Hsz & Hwb).
  pose proof (Forall_lookup_1 _ _ _ _ Hsz Hic) as Hclen. simpl in Hclen.
  pose proof (c_str_length _ _ Hs) as Hslen. pose proof (c_str_nul_free _ _ Hs) as Hnf.
  assert (client_count st <= length (clients st)) as Hle by lia.
  pose proof (remove_client_run st sock name i c s Hle Hfind Hs ltac:(lia)) as Hrem.
  pose proof (invariant_unregistered st i Hinv ltac:(lia)) as (Hl1 & Hc1 & Hsz1 & Hwb1).
  destruct (disconnect_run st sock name _ _ s Hrem Hwb1)
    as (wb1 & wb2 & lines1 & lines2 & Hrun & _);
    [apply c_str_app_nul; done|lia|].
  pose proof (active_unregistered st i Hle ltac:(lia)) as Hact.
  eexists _, _. split; [unfold handle_recv, bind; rewrite Hrun; reflexivity|].
  split.
  - unfold unique_names.
    change (active (with_whiteboard (unregistered st i) wb2)) with (active (unregistered st i)).
    rewrite Hact, list_fmap_delete. exact (sublist_NoDup _ _ Huniq (sublist_delete _ _)).
  - intros q Hq. rewrite (find_client_Ok _ _ s) by (done || lia).
    unfold session_named.
    change (active (with_whiteboard (unregistered st i) wb2)) with (active (unregistered st i)).
    rewrite Hact. by rewrite (proj2 (list_find_None _ _) Hgone).
Qed.

Lemma left_name_is_not_found_witness :
  (invariant alice_bob /\ unique_names alice_bob /\ length alice20 = MAX_USERNAME /\
   list_find (fun d => socket d = 4%Z) (active alice_bob) = Some (0, mkClient 4 alice20) /\
   c_str (username (mkClient 4 alice20)) = Some (lit "alice")) /\
  exists st' out,
    handle_recv 4 alice20 None (zeroed_message 0) alice_bob = Ok (Closed, st', out) /\
    unique_names st' /\
    forall q, c_str q = Some (lit "alice") -> find_client q st' = Ok (None, st', []).
Proof.
  assert (invariant alice_bob) as H1 by evaluated.
  assert (unique_names alice_bob) as H2 by evaluated.
  assert (length alice20 = MAX_USERNAME) as H3 by evaluated.
  assert (list_find (fun d => socket d = 4%Z) (active alice_bob)
          = Some (0, mkClient 4 alice20)) as H4 by evaluated.
  assert (c_str (username (mkClient 4 alice20)) = Some (lit "alice")) as H5 by evaluated.
  exact (conj (conj H1 (conj H2 (conj H3 (conj H4 H5))))
              (left_name_is_not_found alice_bob 4 alice20 (zeroed_message 0) 0
                 (mkClient 4 alice20) (lit "alice") H1 H2 H3 H4 H5)).
Defined.

(** ** What a received frame cannot do *)

Section never_closes_facts.
Context {A B : Type}.

Lemma silent_never_closes (m : M A) : silent m -> never_closes m.
Proof. intros Hm st a st' out Hrun. by rewrite (Hm _ _ _ _ Hrun). Qed.

Lemma never_closes_bind (m : M A) (k : A -> M B) :
  never_closes m -> (forall a, never_closes (k a)) -> never_closes (bind m k).
Proof.
  intros Hm Hk st b st2 out (a & st1 & out1 & out2 & Hrun1 & Hrun2 & ->)%bind_inv.
  apply Forall_app. split; [by eapply Hm|by eapply Hk].
Qed.

Lemma silent_bind (m : M A) (k : A -> M B) :
  silent m -> (forall a, silent (k a)) -> silent (bind m k).
Proof.
  intros Hm Hk st b st2 out (a & st1 & out1 & out2 & Hrun1 & Hrun2 & ->)%bind_inv.
  by rewrite (Hm _ _ _ _ Hrun1), (Hk _ _ _ _ _ Hrun2).
Qed.

Lemma silent_ret (a : A) : silent (ret a).
Proof. intros st a' st' out H. injection H. congruence. Qed.

Lemma silent_liftR (r : result A) : silent (liftR r).
Proof.
  intros st a st' out. unfold liftR. destruct r; [|done].
  intros H. injection H. congruence.
Qed.

End never_closes_facts.

Lemma silent_get : silent get.
Proof. intros st a st' out H. injection H. congruence. Qed.

Lemma silent_put st0 : silent (put st0).
Proof. intros st a st' out H. injection H. congruence. Qed.

Lemma silent_find_client name : silent (find_client name).
Proof. apply silent_bind; [apply silent_get|]. intros st. apply silent_liftR. Qed.

Lemma never_closes_emit out : Forall not_close out -> never_closes (emit out).
Proof. intros Hout st a st' out' H. injection H as _ _ <-. done. Qed.

Lemma broadcast_loop_sends cs msg sock : Forall not_close (broadcast_loop cs msg sock).
Proof.
  induction cs as [|c cs IH]; simpl; [done|]. case_decide; [done|]. by constructor.
Qed.

Ltac never_closes_tac :=
  repeat first
    [ apply silent_never_closes;
      first [ apply silent_ret | apply silent_get | apply silent_put | apply silent_liftR
            | apply silent_find_client ]
    | apply never_closes_emit; first [ apply broadcast_loop_sends | by repeat constructor ]
    | apply never_closes_bind; [|intros ?]
    | match goal with |- never_closes (match ?x with _ => _ end) => destruct x end ].

Lemma never_closes_update_whiteboard message : never_closes (update_whiteboard message).
Proof. unfold update_whiteboard. never_closes_tac. Qed.

Lemma never_closes_format_whiteboard_msg ty text :
  never_closes (format_whiteboard_msg ty text).
Proof.
  unfold format_whiteboard_msg. destruct (get_msg_properties ty).
  apply never_closes_update_whiteboard.
Qed.

Lemma never_closes_send_private_message msg junk :
  never_closes (send_private_message msg junk).
Proof.
  unfold send_private_message.
  repeat first [apply never_closes_format_whiteboard_msg | progress never_closes_tac].
Qed.

Lemma handle_recv_frame_inv st sock name msg junk c st' out :
  handle_recv sock name (Some msg) junk st = Ok (c, st', out) ->
  c = Registered name /\
  clients st' = clients st /\ client_count st' = client_count st /\
  Forall not_close out.
Proof.
  unfold handle_recv. case_decide as Hty.
  - intros ([] & st1 & out1 & out2 & Hrun & Hret & ->)%bind_inv.
    injection Hret as <- <- <-. split; [done|].
    assert (log_stable (fun x => clients x = clients st /\ client_count x = client_count st))
      as HP by (by intros x message wb [? ?] _).
    destruct (keeps_send_private_message _ HP msg junk _ _ _ _ (conj eq_refl eq_refl) Hrun)
      as [Hc Hn].
    split; [done|]. split; [done|]. rewrite app_nil_r.
    by eapply never_closes_send_private_message.
  - intros H. injection H as <- <- <-. by repeat split.
Qed.

(** [send_private_message] when an active session has the recipient's name. *)
Lemma send_private_message_known st msg junk s r c d :
  server_ok st -> message_sized msg ->
  c_str (sender msg) = Some s -> c_str (recipient msg) = Some r ->
  c_str (content msg) = Some c ->
  session_named st r = Some d ->
  exists wb lines,
    send_private_message msg junk st
      = Ok (tt, with_whiteboard st wb,
            [Send (socket d) msg; Render (client_count st) lines]).
Proof.
  intros [Hsz Hok] (Hls & Hlr & Hlc) Hs Hr Hc Hd.
  pose proof (c_str_length _ _ Hs). pose proof (c_str_length _ _ Hr).
  pose proof (c_str_length _ _ Hc).
  destruct (format_whiteboard_msg_spec st MSG_TYPE_PRIVATE
              (s ++ lit " to " ++ r ++ lit ": " ++ c) Hok)
    as (wb & lines & Hrun & _).
  { repeat apply nul_free_app; try (by eapply c_str_nul_free); by repeat constructor. }
  { len. }
  exists wb, lines. unfold send_private_message.
  rewrite (bind_pure _ _ _ _ (find_client_Ok _ _ r Hsz Hr ltac:(lia))).
  rewrite Hd. cbn [fmap option_fmap option_map].
  rewrite bind_emit.
  rewrite (bind_pure _ _ _ _ (read_str_Ok _ _ _ Hs)).
  rewrite (bind_pure _ _ _ _ (read_str_Ok _ _ _ Hr)).
  rewrite (bind_pure _ _ _ _ (read_str_Ok _ _ _ Hc)).
  by rewrite Hrun.
Qed.

(** X9: a frame received in the message loop whose sender, recipient and
    content fields hold terminated strings is handled without a fault, whatever
    its type; it leaves the registry (the array and [client_count]) as it is,
    closes no socket, and keeps the handler in the loop under the same name. *)
Theorem received_frame_keeps_registry st sock name msg junk s r c :
  server_ok st -> message_sized msg -> message_sized junk ->
  c_str (sender msg) = Some s -> c_str (recipient msg) = Some r ->
  c_str (content msg) = Some c ->
  exists st' out,
    handle_recv sock name (Some msg) junk st = Ok (Registered name, st', out) /\
    clients st' = clients st /\ client_count st' = client_count st /\
    Forall not_close out.
Proof.
  intros Hok Hmsg Hjunk Hs Hr Hc.
  assert (exists st' out,
            handle_recv sock name (Some msg) junk st = Ok (Registered name, st', out))
    as (st' & out & Hrun).
  { unfold handle_recv. case_decide; [|by eexists _, _].
    assert (exists st1 out1, send_private_message msg junk st = Ok (tt, st1, out1))
      as (st1 & out1 & Hsend).
    { destruct (session_named st r) as [d|] eqn:Hd.
      - destruct (send_private_message_known st msg junk s r c d Hok Hmsg Hs Hr Hc Hd)
          as (wb & lines & Hsend). by eexists _, _.
      - destruct (send_private_message_unknown st msg junk s r Hok Hmsg Hjunk Hs Hr Hd)
          as (wb & lines & Hsend & _). by eexists _, _. }
    unfold bind. rewrite Hsend. by eexists _, _. }
  exists st', out. split; [done|].
  by destruct (handle_recv_frame_inv _ _ _ _ _ _ _ _ Hrun) as (_ & ? & ? & ?).
Qed.

Lemma received_frame_keeps_registry_witness :
  (server_ok alice_bob /\ message_sized (hi_to alice20 carol20) /\
   message_sized (zeroed_message 0) /\
   c_str (sender (hi_to alice20 carol20)) = Some (lit "alice") /\
   c_str (recipient (hi_to alice20 carol20)) = Some (lit "carol") /\
   c_str (content (hi_to alice20 carol20)) = Some (lit "hi")) /\
  exists st' out,
    handle_recv 4 alice20 (Some (hi_to alice20 carol20)) (zeroed_message 0) alice_bob
      = Ok (Registered alice20, st', out) /\
    clients st' = clients alice_bob /\ client_count st' = client_count alice_bob /\
    Forall not_close out.
Proof.
  assert (server_ok alice_bob) as H1 by evaluated.
  assert (message_sized (hi_to alice20 carol20)) as H2 by evaluated.
  assert (message_sized (zeroed_message 0)) as H3 by evaluated.
  assert (c_str (sender (hi_to alice20 carol20)) = Some (lit "alice")) as H4 by evaluated.
  assert (c_str (recipient (hi_to alice20 carol20)) = Some (lit "carol")) as H5 by evaluated.
  assert (c_str (content (hi_to alice20 carol20)) = Some (lit "hi")) as H6 by evaluated.
  exact (conj (conj H1 (conj H2 (conj H3 (conj H4 (conj H5 H6)))))
              (received_frame_keeps_registry alice_bob 4 alice20 (hi_to alice20 carol20)
                 (zeroed_message 0) (lit "alice") (lit "carol") (lit "hi")
                 H1 H2 H3 H4 H5 H6)).
Defined.

(** ** Long log lines *)

Lemma nul_free_take n s : nul_free s -> nul_free (take n s).
Proof. apply Forall_take. Qed.

Lemma take_app_take {A} n (p t : list A) : take n (p ++ take n t) = take n (p ++ t).
Proof.
  rewrite !take_app. f_equal. rewrite take_take. f_equal. lia.
Qed.

(** X10: [format_whiteboard_msg] never overruns a whiteboard slot: for a text
    of any length the entry stored is the tagged line cut to [WB_LINE - 1]
    characters, and it is stored terminated. *)
Theorem long_log_line_is_cut st ty text :
  wb_ok (whiteboard st) -> nul_free text ->
  exists wb lines,
    format_whiteboard_msg ty text st
      = Ok (tt, with_whiteboard st wb, [Render (client_count st) lines]) /\
    wb_ok wb /\
    appended (whiteboard st) (take (WB_LINE - 1) (log_entry ty text)) wb /\
    wb_render wb = Ok lines.
Proof.
  intros Hok Htext.
  set (entry := take (WB_LINE - 1) (log_entry ty text)).
  assert (format_whiteboard_msg ty text = update_whiteboard (entry ++ [nul])) as ->.
  { unfold format_whiteboard_msg, entry, log_entry, snprintf.
    destruct (get_msg_properties ty) as [color type_str].
    do 2 f_equal. rewrite !(assoc_L (++)). apply take_app_take. }
  destruct (update_whiteboard_spec st (entry ++ [nul]) entry Hok)
    as (wb & lines & Hrun & Hok' & Happ & Hrender).
  { by apply c_str_app_nul, nul_free_take, log_entry_nul_free. }
  exists wb, lines. unfold stored, entry in Happ. rewrite take_take, Nat.min_id in Happ.
  done.
Qed.

Lemma long_log_line_is_cut_witness :
  (wb_ok (whiteboard server_started) /\ nul_free long_text) /\
  exists wb lines,
    format_whiteboard_msg MSG_TYPE_PRIVATE long_text server_started
      = Ok (tt, with_whiteboard server_started wb,
            [Render (client_count server_started) lines]) /\
    wb_ok wb /\
    appended (whiteboard server_started)
      (take (WB_LINE - 1) (log_entry MSG_TYPE_PRIVATE long_text)) wb /\
    wb_render wb = Ok lines.
Proof.
  assert (wb_ok (whiteboard server_started)) as H1 by evaluated.
  assert (nul_free long_text) as H2 by evaluated.
  exact (conj (conj H1 H2) (long_log_line_is_cut server_started MSG_TYPE_PRIVATE long_text H1 H2)).
Defined.

(** X11: [find_client] on a terminated name answers with the socket of the
    first active session of that name, or with no socket when no active session
    has it; it changes nothing and sends nothing. *)
Theorem find_client_first_match st name s :
  registry_sized st -> c_str name = Some s -> length s < MAX_USERNAME ->
  (find_client name st = Ok (None, st, []) /\
   Forall (fun c => c_str (username c) <> Some s) (active st)) \/
  (exists i c,
     find_client name st = Ok (Some (socket c), st, []) /\
     active st !! i = Some c /\ c_str (username c) = Some s /\
     forall j d, active st !! j = Some d -> j < i -> c_str (username d) <> Some s).
Proof.
  intros Hsz Hname Hlen. unfold find_client.
  rewrite (bind_pure _ _ st st) by done. unfold liftR.
  rewrite (find_loop_terminated _ _ s Hname).
  - destruct (list_find _ (active st)) as [[i c]|] eqn:Hfind.
    + right. exists i, c. apply list_find_Some in Hfind as (Hi & Hc & Hbefore). done.
    + left. by apply list_find_None in Hfind.
  - apply Forall_take. eapply Forall_impl; [apply Hsz|]. simpl. intros c ->. done.
Qed.

Lemma find_client_first_match_witness :
  (registry_sized alice_bob /\ c_str bob20 = Some (lit "bob") /\
   length (lit "bob") < MAX_USERNAME) /\
  ((find_client bob20 alice_bob = Ok (None, alice_bob, []) /\
    Forall (fun c => c_str (username c) <> Some (lit "bob")) (active alice_bob)) \/
   (exists i c,
      find_client bob20 alice_bob = Ok (Some (socket c), alice_bob, []) /\
      active alice_bob !! i = Some c /\ c_str (username c) = Some (lit "bob") /\
      forall j d, active alice_bob !! j = Some d -> j < i ->
                  c_str (username d) <> Some (lit "bob"))).
Proof.
  assert (registry_sized alice_bob) as H1 by evaluated.
  assert (c_str bob20 = Some (lit "bob")) as H2 by evaluated.
  assert (length (lit "bob") < MAX_USERNAME) as H3 by evaluated.
  exact (conj (conj H1 (conj H2 H3)) (find_client_first_match alice_bob bob20 (lit "bob") H1 H2 H3)).
Defined.

(** ** The client *)

Import ChatClient.

Lemma result_bind_Ok {A B} (a : A) (f : A -> result B) : Ok a ≫= f = f a.
Proof. done. Qed.

Lemma store_char_app a x rest c :
  store_char (a ++ x :: rest) (length a) c = Some (a ++ c :: rest).
Proof.
  unfold store_char. rewrite decide_True by (rewrite length_app; simpl; lia).
  by rewrite insert_app_r_alt, Nat.sub_diag by lia.
Qed.

Lemma strncpy_bytes_prefix p q n :
  nul_free p -> n <= length p -> strncpy_bytes (p ++ q) n = Some (take n p).
Proof.
  intros Hp. revert n. induction Hp as [|c p Hc _ IH]; intros n Hn.
  - simpl in Hn. by replace n with 0 by lia.
  - destruct n as [|n]; [done|]. simpl in *. rewrite Hc, IH by lia. done.
Qed.

Lemma zeros_S k : zeros (S k) = zeros k ++ [nul].
Proof. by rewrite zeros_snoc. Qed.

Lemma main_username_Ok arg s :
  c_str arg = Some s ->
  main_username arg = Ok (padded (take (MAX_USERNAME - 1) s)).
Proof.
  intros Hs. unfold main_username, strncpy.
  rewrite decide_True by (rewrite length_zeros; unfold MAX_USERNAME; lia).
  rewrite (strncpy_bytes_c_str _ _ _ Hs). cbn [mbind option_bind of_option].
  change (drop (MAX_USERNAME - 1) (zeros MAX_USERNAME)) with [nul].
  set (n := MAX_USERNAME - 1).
  assert (length (take n s ++ zeros (n - length s)) = n) as Hlen.
  { rewrite length_app, length_take, length_zeros. lia. }
  unfold result_bind.
  rewrite <-Hlen at 3. rewrite store_char_app.
  cbn [of_option]. f_equal. unfold padded. rewrite <-(assoc_L (++)). f_equal.
  rewrite <-zeros_S, length_take. f_equal. unfold n, MAX_USERNAME. lia.
Qed.

(** X12: the client's [username] array always holds a terminated string: the
    first [MAX_USERNAME - 1] characters of [argv[1]]. *)
Theorem client_name_is_terminated arg s :
  c_str arg = Some s ->
  exists u, main_username arg = Ok u /\ length u = MAX_USERNAME /\
            c_str u = Some (take (MAX_USERNAME - 1) s).
Proof.
  intros Hs. exists (padded (take (MAX_USERNAME - 1) s)).
  split; [by apply main_username_Ok|].
  assert (length (take (MAX_USERNAME - 1) s) < MAX_USERNAME) as Hlen.
  { rewrite length_take. unfold MAX_USERNAME. lia. }
  split; [apply length_padded; lia|].
  apply c_str_padded; [|done]. by eapply nul_free_take, c_str_nul_free.
Qed.

Lemma client_name_is_terminated_witness :
  c_str (long_name ++ [nul]) = Some long_name /\
  exists u, main_username (long_name ++ [nul]) = Ok u /\ length u = MAX_USERNAME /\
            c_str u = Some (take (MAX_USERNAME - 1) long_name).
Proof.
  assert (c_str (long_name ++ [nul]) = Some long_name) as H1 by evaluated.
  exact (conj H1 (client_name_is_terminated (long_name ++ [nul]) long_name H1)).
Defined.

Lemma strcspn_line line e rest :
  nul_free line -> newline ∉ line -> e = newline \/ e = nul ->
  strcspn (line ++ e :: rest) newline = Some (length line).
Proof.
  intros Hline Hnl He. induction Hline as [|c line Hc _ IH]; simpl.
  - by destruct He as [-> | ->].
  - apply not_elem_of_cons in Hnl as [Hne Hnl]. rewrite Hc.
    destruct (Ascii.eqb_spec c newline) as [->|_]; [done|]. simpl. by rewrite IH.
Qed.

Lemma strchr_absent line rest :
  nul_free line -> space ∉ line -> strchr (line ++ nul :: rest) space = Some None.
Proof.
  intros Hline Hsp. induction Hline as [|c line Hc _ IH]; [done|]. simpl.
  apply not_elem_of_cons in Hsp as [Hne Hsp]. rewrite Hc.
  destruct (Ascii.eqb_spec c space) as [->|_]; [done|]. by rewrite IH.
Qed.

Lemma strchr_first name rest :
  nul_free name -> space ∉ name ->
  strchr (name ++ space :: rest) space = Some (Some (length name)).
Proof.
  intros Hname Hsp. induction Hname as [|c name Hc _ IH]; [done|]. simpl.
  apply not_elem_of_cons in Hsp as [Hne Hsp]. rewrite Hc.
  destruct (Ascii.eqb_spec c space) as [->|_]; [done|]. by rewrite IH.
Qed.

(** The prefix of a name that fits the recipient array. *)
Lemma main_command_Call name text e rest recipient :
  nul_free name -> space ∉ name -> newline ∉ name ->
  nul_free text -> newline ∉ text -> e = newline \/ e = nul ->
  length recipient = MAX_USERNAME ->
  main_command (name ++ space :: text ++ e :: rest) recipient
    = Ok (Call (take (MAX_USERNAME - 1) name
                  ++ nul :: drop (S (length (take (MAX_USERNAME - 1) name))) recipient)
               (text ++ nul :: rest)).
Proof.
  intros Hname Hsp Hnl Htext Hnl' He Hrec.
  assert (nul_free (name ++ space :: text)) as Hline.
  { apply nul_free_app; [done|]. by constructor. }
  unfold main_command.
  replace (name ++ space :: text ++ e :: rest) with ((name ++ space :: text) ++ e :: rest)
    by (by rewrite <-(assoc_L (++))).
  rewrite strcspn_line; [|done| |done].
  2:{ rewrite elem_of_app, elem_of_cons. intros [?|[?|?]]; done. }
  cbn [of_option]. rewrite result_bind_Ok, store_char_app.
  cbn [of_option]. rewrite result_bind_Ok, c_str_app_nul by done.
  cbn [of_option]. rewrite result_bind_Ok.
  rewrite decide_False by (rewrite length_app; simpl; lia).
  rewrite <-(assoc_L (++)). cbn [app].
  rewrite strchr_first by done. cbn [of_option]. rewrite result_bind_Ok.
  set (name_len := if decide (MAX_USERNAME <= length name) then _ else _).
  assert (name_len <= length name /\ name_len < MAX_USERNAME /\
          take name_len name = take (MAX_USERNAME - 1) name) as (Hle & Hlt & Htake).
  { unfold name_len. case_decide.
    - repeat split; unfold MAX_USERNAME in *; lia.
    - rewrite !take_ge by lia. repeat split; lia. }
  unfold strncpy. rewrite decide_True by lia.
  rewrite strncpy_bytes_prefix by done. cbn [mbind option_bind of_option].
  rewrite result_bind_Ok.
  replace name_len with (length (take name_len name)) at 2 3
    by (rewrite length_take; lia).
  destruct (drop (length (take name_len name)) recipient) as [|x tail] eqn:Hdrop.
  { apply (f_equal length) in Hdrop. rewrite length_drop, length_take in Hdrop.
    simpl in Hdrop. lia. }
  rewrite store_char_app. cbn [of_option]. rewrite result_bind_Ok.
  rewrite Htake in *. f_equal. f_equal.
  - do 2 f_equal.
    replace (S (length (take (MAX_USERNAME - 1) name)))
      with (length (take (MAX_USERNAME - 1) name) + 1) by lia.
    by rewrite <-drop_drop, Hdrop.
  - rewrite (cons_middle space), (assoc_L (++)).
    apply drop_app_length'. rewrite length_app. simpl. lia.
Qed.

(** X13: a turn of the client's input loop on a line read by [fgets]: an empty
    line is skipped; a line without a space gives the usage hint; otherwise the
    recipient is the text before the first space, cut to [MAX_USERNAME - 1]
    characters and terminated, and the message is all the text after that
    space. *)
Theorem input_line_is_parsed line e rest recipient :
  nul_free line -> newline ∉ line -> e = newline \/ e = nul ->
  length recipient = MAX_USERNAME ->
  (line = [] -> main_command (line ++ e :: rest) recipient = Ok Skip) /\
  (line <> [] -> space ∉ line -> main_command (line ++ e :: rest) recipient = Ok Usage) /\
  (forall name text, line = name ++ space :: text -> space ∉ name ->
     exists r m,
       main_command (line ++ e :: rest) recipient = Ok (Call r m) /\
       length r = MAX_USERNAME /\
       c_str r = Some (take (MAX_USERNAME - 1) name) /\
       c_str m = Some text).
Proof.
  intros Hline Hnl He Hrec.
  split; [|split].
  - intros ->. unfold main_command. rewrite strcspn_line by done.
    cbn [of_option]. rewrite result_bind_Ok, store_char_app. done.
  - intros Hne Hsp. unfold main_command. rewrite strcspn_line by done.
    cbn [of_option]. rewrite result_bind_Ok, store_char_app.
    cbn [of_option]. rewrite result_bind_Ok, c_str_app_nul by done.
    cbn [of_option]. rewrite result_bind_Ok.
    rewrite decide_False by (by destruct line).
    by rewrite strchr_absent.
  - intros name text -> Hsp.
    apply Forall_app in Hline as [Hname [_ Htext]%Forall_cons].
    rewrite not_elem_of_app, not_elem_of_cons in Hnl. destruct Hnl as (Hnl1 & _ & Hnl2).
    rewrite <-(assoc_L (++)). cbn [app].
    rewrite main_command_Call by done.
    assert (length (take (MAX_USERNAME - 1) name) < MAX_USERNAME) as Hlen.
    { rewrite length_take. unfold MAX_USERNAME. lia. }
    eexists _, _. split; [done|]. split; [|split].
    + rewrite length_app, length_cons, length_drop. lia.
    + by apply c_str_app_nul, nul_free_take.
    + by apply c_str_app_nul.
Qed.

Lemma input_line_is_parsed_witness :
  (nul_free (lit "bob hi") /\ (newline ∉ lit "bob hi") /\
   (newline = newline \/ newline = nul) /\ length (zeros MAX_USERNAME) = MAX_USERNAME) /\
  (lit "bob hi" = [] ->
   main_command (lit "bob hi" ++ newline :: [nul]) (zeros MAX_USERNAME) = Ok Skip) /\
  (lit "bob hi" <> [] -> space ∉ lit "bob hi" ->
   main_command (lit "bob hi" ++ newline :: [nul]) (zeros MAX_USERNAME) = Ok Usage) /\
  (forall name text, lit "bob hi" = name ++ space :: text -> space ∉ name ->
     exists r m,
       main_command (lit "bob hi" ++ newline :: [nul]) (zeros MAX_USERNAME)
         = Ok (Call r m) /\
       length r = MAX_USERNAME /\
       c_str r = Some (take (MAX_USERNAME - 1) name) /\
       c_str m = Some text).
Proof.
  assert (nul_free (lit "bob hi")) as H1 by evaluated.
  assert (newline ∉ lit "bob hi") as H2 by evaluated.
  assert (newline = newline \/ newline = nul) as H3 by (left; reflexivity).
  assert (length (zeros MAX_USERNAME) = MAX_USERNAME) as H4 by evaluated.
  exact (conj (conj H1 (conj H2 (conj H3 H4)))
              (input_line_is_parsed (lit "bob hi") newline [nul] (zeros MAX_USERNAME)
                 H1 H2 H3 H4)).
Defined.

Lemma send_message_Ok username recipient content junk u r text :
  message_sized junk ->
  c_str username = Some u -> length u < MAX_USERNAME ->
  c_str recipient = Some r -> length r < MAX_USERNAME ->
  c_str content = Some text -> length text < MAX_MESSAGE ->
  send_message true username recipient content junk = Ok (Some (private_frame u r text)).
Proof.
  intros (Hjs & Hjr & Hjc) Hu Hlu Hr Hlr Ht Hlt.
  unfold send_message. destruct junk as [jt js jr jc]. simpl in *.
  rewrite (strncpy_terminated _ _ _ u Hjs Hu Hlu). cbn [of_option]. rewrite result_bind_Ok.
  rewrite (strncpy_terminated _ _ _ r Hjr Hr Hlr). cbn [of_option]. rewrite result_bind_Ok.
  rewrite (strncpy_terminated _ _ _ text Hjc Ht Hlt). done.
Qed.

Lemma main_turn_Ok username u name text e rest recipient junk :
  length username = MAX_USERNAME -> c_str username = Some u ->
  nul_free name -> space ∉ name -> newline ∉ name ->
  nul_free text -> newline ∉ text -> length text < MAX_MESSAGE ->
  e = newline \/ e = nul ->
  length recipient = MAX_USERNAME -> message_sized junk ->
  main_turn true username (name ++ space :: text ++ e :: rest) recipient junk
    = Ok (Some (private_frame u (take (MAX_USERNAME - 1) name) text)).
Proof.
  intros Hlen Hu Hname Hsp Hnl Htext Hnl' Hlt He Hrec Hjunk.
  unfold main_turn. rewrite main_command_Call by done. rewrite result_bind_Ok.
  apply send_message_Ok; try done.
  - rewrite <-Hlen. by apply c_str_length.
  - by apply c_str_app_nul, nul_free_take.
  - rewrite length_take. unfold MAX_USERNAME. lia.
  - by apply c_str_app_nul.
Qed.

Lemma typed_line_frame_fields u r text :
  length u < MAX_USERNAME -> nul_free u ->
  length r < MAX_USERNAME -> nul_free r ->
  length text < MAX_MESSAGE -> nul_free text ->
  message_sized (private_frame u r text) /\
  c_str (sender (private_frame u r text)) = Some u /\
  c_str (recipient (private_frame u r text)) = Some r /\
  c_str (content (private_frame u r text)) = Some text.
Proof.
  intros Hlu Hu Hlr Hr Hlt Ht. cbn [private_frame sender recipient content].
  split; [|split; [|split]].
  - split; [|split]; cbn [private_frame sender recipient content].
    + apply length_padded. lia.
    + apply length_padded. lia.
    + rewrite length_app, length_zeros. lia.
  - by apply c_str_padded.
  - by apply c_str_padded.
  - replace (MAX_MESSAGE - length text) with (S (MAX_MESSAGE - length text - 1)) by lia.
    by apply c_str_app_nul.
Qed.

(** X14: the frame the client sends for a line [name text] is a [MSG_PRIVATE]
    frame of the declared sizes whose every byte is set by the client: the
    three fields hold the client's name, the recipient (cut to
    [MAX_USERNAME - 1] characters) and the text, each filled up with
    terminators; nothing of the uninitialised [msg] or [recipient] arrays is
    sent. *)
Theorem typed_line_frame username u name text e rest buf junk :
  length username = MAX_USERNAME -> c_str username = Some u ->
  nul_free name -> space ∉ name -> newline ∉ name ->
  nul_free text -> newline ∉ text -> length text < MAX_MESSAGE ->
  e = newline \/ e = nul ->
  length buf = MAX_USERNAME -> message_sized junk ->
  exists frame,
    main_turn true username (name ++ space :: text ++ e :: rest) buf junk
      = Ok (Some frame) /\
    frame = private_frame u (take (MAX_USERNAME - 1) name) text /\
    message_sized frame /\ type frame = MSG_PRIVATE /\
    c_str (sender frame) = Some u /\
    c_str (recipient frame) = Some (take (MAX_USERNAME - 1) name) /\
    c_str (content frame) = Some text.
Proof.
  intros Hlen Hu Hname Hsp Hnl Htext Hnl' Hlt He Hrec Hjunk.
  eexists. split; [by apply main_turn_Ok|]. split; [done|].
  destruct (typed_line_frame_fields u (take (MAX_USERNAME - 1) name) text)
    as (Hsized & Hs & Hr & Hc); try done.
  - rewrite <-Hlen. by apply c_str_length.
  - by eapply c_str_nul_free.
  - rewrite length_take. unfold MAX_USERNAME. lia.
  - by apply nul_free_take.
Qed.

Lemma typed_line_frame_witness :
  (length alice20 = MAX_USERNAME /\ c_str alice20 = Some (lit "alice") /\
   nul_free long_name /\ (space ∉ long_name) /\ (newline ∉ long_name) /\
   nul_free (lit "hi") /\ (newline ∉ lit "hi") /\ length (lit "hi") < MAX_MESSAGE /\
   (newline = newline \/ newline = nul) /\
   length twenty_a = MAX_USERNAME /\ message_sized (zeroed_message 0)) /\
  exists frame,
    main_turn true alice20 (long_name ++ space :: lit "hi" ++ newline :: [nul]) twenty_a
      (zeroed_message 0) = Ok (Some frame) /\
    frame = private_frame (lit "alice") (take (MAX_USERNAME - 1) long_name) (lit "hi") /\
    message_sized frame /\ type frame = MSG_PRIVATE /\
    c_str (sender frame) = Some (lit "alice") /\
    c_str (recipient frame) = Some (take (MAX_USERNAME - 1) long_name) /\
    c_str (content frame) = Some (lit "hi").
Proof.
  assert (length alice20 = MAX_USERNAME) as H1 by evaluated.
  assert (c_str alice20 = Some (lit "alice")) as H2 by evaluated.
  assert (nul_free long_name) as H3 by evaluated.
  assert (space ∉ long_name) as H4 by evaluated.
  assert (newline ∉ long_name) as H5 by evaluated.
  assert (nul_free (lit "hi")) as H6 by evaluated.
  assert (newline ∉ lit "hi") as H7 by evaluated.
  assert (length (lit "hi") < MAX_MESSAGE) as H8 by evaluated.
  assert (newline = newline \/ newline = nul) as H9 by (left; reflexivity).
  assert (length twenty_a = MAX_USERNAME) as H10 by evaluated.
  assert (message_sized (zeroed_message 0)) as H11 by evaluated.
  exact (conj (conj H1 (conj H2 (conj H3 (conj H4 (conj H5 (conj H6 (conj H7 (conj H8
                 (conj H9 (conj H10 H11))))))))))
              (typed_line_frame alice20 (lit "alice") long_name (lit "hi") newline [nul]
                 twenty_a (zeroed_message 0) H1 H2 H3 H4 H5 H6 H7 H8 H9 H10 H11)).
Defined.

(** ** From the client to the server *)

(** X15: the frame of a typed line never makes the server's handler fault:
    it is sent, as it is, to the session named by the first
    [MAX_USERNAME - 1] characters of the recipient if there is one, and
    otherwise the error reply goes to the session that bears the client's
    name; the log gains the PRIVATE or the ERROR entry. *)
Theorem typed_line_is_routed st sock nm junk' username u name text e rest buf junk :
  invariant st -> message_sized junk' ->
  length username = MAX_USERNAME -> c_str username = Some u ->
  nul_free name -> space ∉ name -> newline ∉ name ->
  nul_free text -> newline ∉ text -> length text < MAX_MESSAGE ->
  e = newline \/ e = nul ->
  length buf = MAX_USERNAME -> message_sized junk ->
  let r := take (MAX_USERNAME - 1) name in
  exists frame wb lines,
    main_turn true username (name ++ space :: text ++ e :: rest) buf junk
      = Ok (Some frame) /\
    handle_recv sock nm (Some frame) junk' st
      = Ok (Registered nm, with_whiteboard st wb,
            match session_named st r, session_named st u with
            | Some d, _ => [Send (socket d) frame]
            | None, Some d => [Send (socket d) (offline_reply r junk')]
            | None, None => []
            end ++ [Render (client_count st) lines]) /\
    appended (whiteboard st)
      (match session_named st r with
       | Some _ => log_entry MSG_TYPE_PRIVATE (u ++ lit " to " ++ r ++ lit ": " ++ text)
       | None => log_entry MSG_TYPE_ERROR (u ++ lit " tried to message non-existent user " ++ r)
       end) wb /\
    wb_render wb = Ok lines.
Proof.
  intros (_ & _ & Hsz & Hok) Hjunk' Hlen Hu Hname Hsp Hnl Htext Hnl' Hlt He Hbuf Hjunk r.
  destruct (typed_line_frame_fields u r text) as (Hsized & Hs & Hr & Hc).
  { rewrite <-Hlen. by apply c_str_length. }
  { by eapply c_str_nul_free. }
  { unfold r. rewrite length_take. unfold MAX_USERNAME. lia. }
  { by apply nul_free_take. }
  { done. } { done. }
  assert (length u < MAX_USERNAME) as Hlu by (rewrite <-Hlen; by apply c_str_length).
  assert (length r < MAX_USERNAME) as Hlr.
  { unfold r. rewrite length_take. unfold MAX_USERNAME. lia. }
  exists (private_frame u r text).
  unfold handle_recv. rewrite decide_True by done.
  destruct (session_named st r) as [d|] eqn:Hd.
  - destruct (format_whiteboard_msg_spec st MSG_TYPE_PRIVATE
                (u ++ lit " to " ++ r ++ lit ": " ++ text) Hok)
      as (wb & lines & Hrun & _ & Happ & Hrender).
    { repeat apply nul_free_app; try done; try (by eapply c_str_nul_free);
        try (by apply nul_free_take); by repeat constructor. }
    { len. }
    assert (send_private_message (private_frame u r text) junk' st
            = Ok (tt, with_whiteboard st wb,
                  [Send (socket d) (private_frame u r text);
                   Render (client_count st) lines])) as Hsend.
    { unfold send_private_message.
      rewrite (bind_pure _ _ _ _ (find_client_Ok _ _ r Hsz Hr ltac:(lia))).
      rewrite Hd. cbn [fmap option_fmap option_map].
      rewrite bind_emit.
      rewrite (bind_pure _ _ _ _ (read_str_Ok _ _ _ Hs)).
      rewrite (bind_pure _ _ _ _ (read_str_Ok _ _ _ Hr)).
      rewrite (bind_pure _ _ _ _ (read_str_Ok _ _ _ Hc)).
      by rewrite Hrun. }
    exists wb, lines. split; [by apply main_turn_Ok|]. split; [|done].
    unfold bind. by rewrite Hsend.
  - destruct (send_private_message_unknown st (private_frame u r text) junk' u r
                (conj Hsz Hok) Hsized Hjunk' Hs Hr Hd)
      as (wb & lines & Hrun & Happ & Hrender).
    exists wb, lines. split; [by apply main_turn_Ok|]. split; [|done].
    unfold bind. rewrite Hrun. simpl. rewrite app_nil_r.
    by destruct (session_named st u).
Qed.

Lemma typed_line_is_routed_witness :
  (invariant alice_bob /\ message_sized (zeroed_message 0) /\
   length alice20 = MAX_USERNAME /\ c_str alice20 = Some (lit "alice") /\
   nul_free (lit "bob") /\ (space ∉ lit "bob") /\ (newline ∉ lit "bob") /\
   nul_free (lit "hi") /\ (newline ∉ lit "hi") /\ length (lit "hi") < MAX_MESSAGE /\
   (newline = newline \/ newline = nul) /\
   length twenty_a = MAX_USERNAME /\ message_sized (zeroed_message 0)) /\
  let r := take (MAX_USERNAME - 1) (lit "bob") in
  exists frame wb lines,
    main_turn true alice20 (lit "bob" ++ space :: lit "hi" ++ newline :: [nul]) twenty_a
      (zeroed_message 0) = Ok (Some frame) /\
    handle_recv 4 alice20 (Some frame) (zeroed_message 0) alice_bob
      = Ok (Registered alice20, with_whiteboard alice_bob wb,
            match session_named alice_bob r, session_named alice_bob (lit "alice") with
            | Some d, _ => [Send (socket d) frame]
            | None, Some d => [Send (socket d) (offline_reply r (zeroed_message 0))]
            | None, None => []
            end ++ [Render (client_count alice_bob) lines]) /\
    appended (whiteboard alice_bob)
      (match session_named alice_bob r with
       | Some _ =>
           log_entry MSG_TYPE_PRIVATE (lit "alice" ++ lit " to " ++ r ++ lit ": " ++ lit "hi")
       | None =>
           log_entry MSG_TYPE_ERROR
             (lit "alice" ++ lit " tried to message non-existent user " ++ r)
       end) wb /\
    wb_render wb = Ok lines.
Proof.
  assert (invariant alice_bob) as H0 by evaluated.
  assert (message_sized (zeroed_message 0)) as H11 by evaluated.
  assert (length alice20 = MAX_USERNAME) as H1 by evaluated.
  assert (c_str alice20 = Some (lit "alice")) as H2 by evaluated.
  assert (nul_free (lit "bob")) as H3 by evaluated.
  assert (space ∉ lit "bob") as H4 by evaluated.
  assert (newline ∉ lit "bob") as H5 by evaluated.
  assert (nul_free (lit "hi")) as H6 by evaluated.
  assert (newline ∉ lit "hi") as H7 by evaluated.
  assert (length (lit "hi") < MAX_MESSAGE) as H8 by evaluated.
  assert (newline = newline \/ newline = nul) as H9 by (left; reflexivity).
  assert (length twenty_a = MAX_USERNAME) as H10 by evaluated.
  exact (conj (conj H0 (conj H11 (conj H1 (conj H2 (conj H3 (conj H4 (conj H5 (conj H6
                 (conj H7 (conj H8 (conj H9 (conj H10 H11))))))))))))
              (typed_line_is_routed alice_bob 4 alice20 (zeroed_message 0) alice20
                 (lit "alice") (lit "bob") (lit "hi") newline [nul] twenty_a
                 (zeroed_message 0) H0 H11 H1 H2 H3 H4 H5 H6 H7 H8 H9 H10 H11)).
Defined.

Lemma recv_username_sized u : length u = MAX_USERNAME -> recv_username u = u.
Proof.
  intros Hu. unfold recv_username.
  by rewrite take_ge, Hu, Nat.sub_diag, app_nil_r by lia.
Qed.

(** X16: the handshake frame of the client is always a terminated name; when
    no active session bears it and there is room, the server registers the
    connection under the first [MAX_USERNAME - 1] characters of [argv[1]]. *)
Theorem client_name_is_registered st sock arg s :
  invariant st -> client_count st < MAX_CLIENTS -> c_str arg = Some s ->
  session_named st (take (MAX_USERNAME - 1) s) = None ->
  exists u st' out,
    main_username arg = Ok u /\
    handshake sock (connect_to_server u) st = Ok (Registered u, st', out) /\
    invariant st' /\
    active st' = active st ++ [mkClient sock u] /\
    c_str u = Some (take (MAX_USERNAME - 1) s).
Proof.
  intros Hinv Hcount Hs Hnone.
  set (s' := take (MAX_USERNAME - 1) s) in *.
  assert (length s' < MAX_USERNAME) as Hlen.
  { unfold s'. rewrite length_take. unfold MAX_USERNAME. lia. }
  assert (nul_free s') as Hnf by (by eapply nul_free_take, c_str_nul_free).
  pose proof (length_padded s' ltac:(lia)) as Hlu.
  pose proof (c_str_padded s' Hnf Hlen) as Hu.
  assert (connect_to_server (padded s') = padded s') as Hwire.
  { unfold connect_to_server. by rewrite take_ge by lia. }
  destruct (handshake_fresh st sock (padded s') s' Hinv Hcount)
    as (wb1 & wb2 & lines1 & lines2 & Hrun & _ & Hok2 & _).
  { intros Hnil. rewrite Hnil in Hlu. unfold MAX_USERNAME in Hlu. done. }
  { by rewrite recv_username_sized. }
  { done. }
  rewrite recv_username_sized in Hrun by done.
  pose proof (invariant_registered st sock s' Hinv Hcount Hlen) as (Hl1 & Hc1 & Hsz1 & _).
  eexists (padded s'), _, _. split; [by apply main_username_Ok|].
  rewrite Hwire. split; [exact Hrun|].
  split; [exact (conj Hl1 (conj Hc1 (conj Hsz1 Hok2)))|].
  split; [|done]. apply active_registered. destruct Hinv as (-> & _). done.
Qed.

Lemma client_name_is_registered_witness :
  (invariant alice_only /\ client_count alice_only < MAX_CLIENTS /\
   c_str (long_name ++ [nul]) = Some long_name /\
   session_named alice_only (take (MAX_USERNAME - 1) long_name) = None) /\
  exists u st' out,
    main_username (long_name ++ [nul]) = Ok u /\
    handshake 5 (connect_to_server u) alice_only = Ok (Registered u, st', out) /\
    invariant st' /\
    active st' = active alice_only ++ [mkClient 5 u] /\
    c_str u = Some (take (MAX_USERNAME - 1) long_name).
Proof.
  assert (invariant alice_only) as H1 by evaluated.
  assert (client_count alice_only < MAX_CLIENTS) as H2 by evaluated.
  assert (c_str (long_name ++ [nul]) = Some long_name) as H3 by evaluated.
  assert (session_named alice_only (take (MAX_USERNAME - 1) long_name) = None)
    as H4 by evaluated.
  exact (conj (conj H1 (conj H2 (conj H3 H4)))
              (client_name_is_registered alice_only 5 (long_name ++ [nul]) long_name
                 H1 H2 H3 H4)).
Defined.
